(** * The honeypot conversation engine, embedded from its JavaScript handlers

    The repository exposes several serverless handlers.  The one that owns the
    per-session state machine (turn counter, indicator sets, one-shot
    finalization callback) is the [handler] of the session endpoint; the
    others are stateless variants with their own gateway checks.

    Conventions of the embedding:
    - the module-level object [sessionState] is a [gmap string Session.t]
      holding its own entries; it is a plain object, so a lookup that finds
      no own entry still finds what [Object.prototype] defines under that
      name ([constructor], [toString], ...), and [Js.inherited] says which
      names those are;
    - the inbound envelope is typed as the endpoint documents it: the
      session id and the message text are strings, the metadata is an object
      of strings, and every field may be missing; the answer of the text
      oracle is an arbitrary JSON value;
    - what the network does for one request (the answer of the text oracle,
      the fate of the callback) is an explicit argument, the [World];
    - the outgoing calls are returned as a list of [Event]s;
    - a handler runs without interruption until it awaits.  [Honeypot.run]
      lets requests overlap: each one advances at its arrival and each time
      something it awaits settles, in any order.  [Honeypot.handler] and
      [Honeypot.serve] are the case in which every request is answered before
      the next arrives;
    - strings are UTF-8 byte strings; [toLowerCase] is exact on every letter
      whose lower case reaches the ASCII range, in which the rule table of
      the extractor is written;
    - the turn counter of a stored session is a natural number (JavaScript
      numbers count exactly far beyond any number of requests a process can
      receive). *)

From Stdlib Require Import String Ascii List Bool Arith ZArith Lia.
From stdpp Require Import base option list gmap strings pretty.
Import ListNotations.

Local Open Scope string_scope.
Local Open Scope list_scope.

(** ** JavaScript strings *)
Module JsString.

(** Case folding of one byte of the ASCII range. *)

Definition lower_ascii (c : ascii) : ascii :=
  let n := nat_of_ascii c in
  if ((65 <=? n) && (n <=? 90))%nat then ascii_of_nat (n + 32) else c.

Definition upper_ascii (c : ascii) : ascii :=
  let n := nat_of_ascii c in
  if ((97 <=? n) && (n <=? 122))%nat then ascii_of_nat (n - 32) else c.

(** The letters [A-Z] lowered and every other byte kept: how a regular
    expression with the flag [i] and without the flag [u] compares a text
    with a pattern of ASCII letters (it folds no character outside ASCII to
    one inside). *)
Fixpoint fold_case (s : string) : string :=
  match s with
  | EmptyString => EmptyString
  | String c rest => String (lower_ascii c) (fold_case rest)
  end.

(** U+0307 COMBINING DOT ABOVE, as UTF-8. *)
Definition dot_above : string :=
  String (ascii_of_nat 204) (String (ascii_of_nat 135) EmptyString).

(** [s.toLowerCase()].  Besides [A-Z], two characters have a lower case
    with an ASCII letter: U+212A KELVIN SIGN (bytes 226 132 170) becomes [k]
    and U+0130 (bytes 196 176) becomes [i] followed by U+0307.  Every other
    character is kept: its lower case has no ASCII letter, so the text and its
    JavaScript lower case have the same ASCII letters between the same
    characters outside ASCII, which is all a search for ASCII words reads. *)
Fixpoint toLowerCase (s : string) : string :=
  match s with
  | EmptyString => EmptyString
  | String c rest =>
      match rest with
      | EmptyString => String (lower_ascii c) EmptyString
      | String c2 rest2 =>
          if Ascii.eqb c (ascii_of_nat 196) && Ascii.eqb c2 (ascii_of_nat 176) then
            String "i"%char (dot_above +:+ toLowerCase rest2)
          else
            match rest2 with
            | EmptyString => String (lower_ascii c) (toLowerCase rest)
            | String c3 rest3 =>
                if Ascii.eqb c (ascii_of_nat 226) && Ascii.eqb c2 (ascii_of_nat 132)
                   && Ascii.eqb c3 (ascii_of_nat 170)
                then String "k"%char (toLowerCase rest3)
                else String (lower_ascii c) (toLowerCase rest)
            end
      end
  end.

(** [includes pat s]: [pat] occurs in [s] as a contiguous substring. *)
Fixpoint includes (pat s : string) : bool :=
  String.prefix pat s ||
  match s with
  | EmptyString => false
  | String _ rest => includes pat rest
  end.

(** [/a|b|c/.test(s)] for a regular expression that is an alternation of
    literal words, without flags: some alternative occurs in [s]. *)
Definition test (alternatives : list string) (s : string) : bool :=
  existsb (fun pat => includes pat s) alternatives.

(** [!s] and [s === k] for a value that is a string or [undefined]. *)
Definition falsy (s : option string) : bool :=
  match s with
  | None => true
  | Some s => String.eqb s EmptyString
  end.

Definition strict_eq (s : option string) (k : string) : bool :=
  match s with
  | None => false
  | Some s => String.eqb s k
  end.

(** [s || fallback]. *)
Definition or_else (s : option string) (fallback : string) : string :=
  match s with
  | None => fallback
  | Some s => if String.eqb s EmptyString then fallback else s
  end.

End JsString.

(** ** JavaScript [Set] of strings: unique values in insertion order *)
Module JsSet.

Definition t := list string.

Definition empty : t := [].

Definition has (x : string) (s : t) : bool := existsb (String.eqb x) s.

Definition add (x : string) (s : t) : t := if has x s then s else s ++ [x].

(** [Array.from(set)] lists the values in insertion order. *)
Definition Array_from (s : t) : list string := s.

End JsSet.

(** ** JSON values and the accessors the handlers apply to them *)
Module Js.

#[local] Set Warnings "-register-all".

(** An object lists its own fields, each name once, in insertion order; a
    number is an integer, which is all the truth test below needs. *)
Inductive value :=
| VUndefined
| VNull
| VBool (b : bool)
| VNum (n : Z)
| VStr (s : string)
| VArr (items : list value)
| VObj (fields : list (string * value)).

Definition truthy (v : value) : bool :=
  match v with
  | VUndefined | VNull => false
  | VBool b => b
  | VNum n => negb (n =? 0)%Z
  | VStr s => negb (String.eqb s EmptyString)
  | VArr _ | VObj _ => true
  end.

(** [a || b] *)
Definition or (a b : value) : value := if truthy a then a else b.

Definition nullish (v : value) : bool :=
  match v with
  | VUndefined | VNull => true
  | _ => false
  end.

Fixpoint own (k : string) (fields : list (string * value)) : value :=
  match fields with
  | [] => VUndefined
  | (k', v) :: rest => if String.eqb k k' then v else own k rest
  end.

Inductive accessor :=
| Field (name : string)
| Index (i : nat).

(** [v.name] and [v[i]] on a value that is neither [null] nor [undefined].
    [Field] is used with names that no built-in prototype defines, so only
    an object's own field can answer it. *)
Definition access (a : accessor) (v : value) : value :=
  match a, v with
  | Field name, VObj fields => own name fields
  | Index i, VArr items => nth i items VUndefined
  | Index i, VStr s =>
      match String.get i s with
      | Some c => VStr (String c EmptyString)
      | None => VUndefined
      end
  | Index i, VObj fields => own (pretty i) fields
  | _, _ => VUndefined
  end.

(** [v?.a1?.a2 ...]: the chain stops with [undefined] at the first link whose
    receiver is [null] or [undefined]. *)
Fixpoint optional_chain (v : value) (path : list accessor) : value :=
  match path with
  | [] => v
  | a :: rest => if nullish v then VUndefined else optional_chain (access a v) rest
  end.

Definition is_string (v : value) : bool :=
  match v with
  | VStr _ => true
  | _ => false
  end.

(** The names every plain object inherits from [Object.prototype].  Each
    names a function, and [__proto__] the prototype itself, so what a lookup
    finds under any of them is truthy. *)
Definition Object_prototype : list string :=
  ["constructor"; "__defineGetter__"; "__defineSetter__"; "hasOwnProperty";
   "__lookupGetter__"; "__lookupSetter__"; "isPrototypeOf";
   "propertyIsEnumerable"; "toString"; "valueOf"; "__proto__";
   "toLocaleString"].

Definition inherited (name : string) : bool :=
  existsb (String.eqb name) Object_prototype.

End Js.

(** ** What a handler receives and what it sends *)
Module Http.

Record Request (B : Type) := {
  method : string;
  x_api_key : option string;   (* req.headers["x-api-key"] *)
  body : option B              (* req.body; [None] when there is none *)
}.
Arguments method {B} _.
Arguments x_api_key {B} _.
Arguments body {B} _.

Record Response := { status : nat; json : Js.value }.

(** A handler either sends a response or its promise rejects with the
    exception that escaped it. *)
Inductive Outcome :=
| Sent (r : Response)
| Uncaught.

(** The oracle call [fetch(...)] followed by [response.json()]. *)
Inductive OracleRun :=
| FetchRejects                 (* network failure or timeout *)
| JsonRejects                  (* the answer is not JSON *)
| Parsed (data : Js.value).

End Http.

(** ** The session endpoint: per-session state machine with one-shot callback *)
Module Honeypot.
Import Http.

Module Message.
Record t := { sender : option string; text : option string }.
End Message.

Module Metadata.
Record t := {
  channel : option string;
  language : option string;
  locale : option string
}.
(** The default [metadata = {}] of the destructuring. *)
Definition none : t := {| channel := None; language := None; locale := None |}.
End Metadata.

(** The inbound envelope [req.body]. *)
Module Envelope.
Record t := {
  sessionId : option string;
  message : option Message.t;
  metadata : option Metadata.t
}.
End Envelope.

(** One entry of [sessionState]. *)
Module Session.
Record t := {
  turns : nat;
  scamIndicators : JsSet.t;
  requestedData : JsSet.t;
  finalized : bool
}.
Definition set_turns (n : nat) (s : t) : t :=
  {| turns := n; scamIndicators := scamIndicators s;
     requestedData := requestedData s; finalized := finalized s |}.
Definition add_scamIndicator (tag : string) (s : t) : t :=
  {| turns := turns s; scamIndicators := JsSet.add tag (scamIndicators s);
     requestedData := requestedData s; finalized := finalized s |}.
Definition add_requestedData (tag : string) (s : t) : t :=
  {| turns := turns s; scamIndicators := scamIndicators s;
     requestedData := JsSet.add tag (requestedData s); finalized := finalized s |}.
Definition set_finalized (b : bool) (s : t) : t :=
  {| turns := turns s; scamIndicators := scamIndicators s;
     requestedData := requestedData s; finalized := b |}.
End Session.

(** The body of the callback to the evaluation endpoint. *)
Module Payload.
Record t := {
  sessionId : string;
  scamDetected : bool;
  scamIndicators : list string;
  requestedSensitiveData : list string;
  channel : string;
  language : string;
  locale : string;
  totalTurns : nat
}.
End Payload.

(** The two outgoing calls of the handler. *)
Inductive Event :=
| GeminiRequest (prompt : string)
| GuviCallback (intelligencePayload : Payload.t).

(** What the network does while one request is handled: the oracle's run,
    and whether the callback's [fetch] resolves. *)
Record World := { gemini : OracleRun; guvi_resolves : bool }.

Record Result := {
  store : gmap string Session.t;
  trace : list Event;
  outcome : Outcome
}.

Definition nl : string := String (ascii_of_nat 10) EmptyString.
Definition dquote : string := String (ascii_of_nat 34) EmptyString.

(** [generateGeminiReply]: the first candidate's first text part, [null] when
    the call or the parsing throws. *)
Definition generateGeminiReply (run : OracleRun) : Js.value :=
  match run with
  | FetchRejects | JsonRejects => Js.VNull
  | Parsed data =>
      Js.optional_chain data
        [Js.Field "candidates"; Js.Index 0; Js.Field "content";
         Js.Field "parts"; Js.Index 0; Js.Field "text"]
  end.

(** INIT SESSION *)
Definition newSession : Session.t :=
  {| Session.turns := 0; Session.scamIndicators := JsSet.empty;
     Session.requestedData := JsSet.empty; Session.finalized := false |}.

(** [if (!sessionState[sessionId]) sessionState[sessionId] = {...}]: nothing
    is created when the object has the entry, nor when the id is a name it
    inherits. *)
Definition init (sessionId : string) (sessionState : gmap string Session.t)
  : gmap string Session.t :=
  match sessionState !! sessionId with
  | Some _ => sessionState
  | None =>
      if Js.inherited sessionId then sessionState
      else <[sessionId := newSession]> sessionState
  end.

(** SCAM INTELLIGENCE EXTRACTION *)
Definition extraction (text : string) (state : Session.t) : Session.t :=
  let lower := JsString.toLowerCase text in
  let state := if JsString.test ["otp"; "one time password"] lower
               then Session.add_requestedData "OTP" state else state in
  let state := if JsString.test ["upi"; "account number"; "bank"] lower
               then Session.add_requestedData "Bank Details" state else state in
  let state := if JsString.test ["link"; "click"] lower
               then Session.add_scamIndicator "Phishing Link" state else state in
  let state := if JsString.test ["blocked"; "suspended"; "urgent"; "hours"] lower
               then Session.add_scamIndicator "Threat / Urgency" state else state in
  let state := if JsString.test ["won"; "prize"; "reward"] lower
               then Session.add_scamIndicator "Lottery Scam" state else state in
  state.

(** BASE HUMAN REPLY: the chain of [state.turns === n] tests. *)
Definition baseReply_when (turns_is : nat -> bool) : string :=
  if turns_is 1 then "Why is my account being suspended?"
  else if turns_is 2 then "What exactly do you need to verify?"
  else if turns_is 3 then "I haven’t received any official notification."
  else "Can you share official confirmation for this request?".

Definition baseReply (turns : nat) : string := baseReply_when (Nat.eqb turns).

(** The chain when [state.turns] is [NaN], which equals no number. *)
Definition baseReply_NaN : string := baseReply_when (fun _ => false).

(** GEMINI REPHRASING *)
Definition geminiPrompt (baseReply : string) : string :=
  nl +:+ "You are a cautious bank customer." +:+ nl
  +:+ "Ask ONE short clarification question." +:+ nl
  +:+ "Do NOT share personal information." +:+ nl
  +:+ "Do NOT mention scams or security." +:+ nl
  +:+ "Rephrase naturally:" +:+ nl
  +:+ nl
  +:+ dquote +:+ baseReply +:+ dquote +:+ nl.

(** FINALIZATION + GUVI CALLBACK *)
Definition intelligencePayload (sessionId : string) (metadata : Metadata.t)
    (state : Session.t) : Payload.t :=
  {| Payload.sessionId := sessionId;
     Payload.scamDetected := true;
     Payload.scamIndicators := JsSet.Array_from (Session.scamIndicators state);
     Payload.requestedSensitiveData := JsSet.Array_from (Session.requestedData state);
     Payload.channel := JsString.or_else (Metadata.channel metadata) "Unknown";
     Payload.language := JsString.or_else (Metadata.language metadata) "Unknown";
     Payload.locale := JsString.or_else (Metadata.locale metadata) "Unknown";
     Payload.totalTurns := Session.turns state |}.

(** The guarded block: it returns the session and the callback it sent, if
    any.  Whether the callback's [fetch] resolves or throws changes nothing:
    the [catch] is empty. *)
Definition finalization (guvi_resolves : bool) (sessionId : string)
    (metadata : Metadata.t) (state : Session.t) : Session.t * list Event :=
  if (4 <=? Session.turns state)%nat && negb (Session.finalized state) then
    let state := Session.set_finalized true state in
    let sent := [GuviCallback (intelligencePayload sessionId metadata state)] in
    (state, if guvi_resolves then sent else sent)
  else (state, []).

Definition respond (sessionState : gmap string Session.t) (events : list Event)
    (code : nat) (fields : list (string * Js.value)) : Result :=
  {| store := sessionState; trace := events;
     outcome := Sent {| status := code; json := Js.VObj fields |} |}.

(** Some rule of the extraction block matches the text, so that the block
    calls [add] on one of the two sets. *)
Definition adds_a_tag (text : string) : bool :=
  let lower := JsString.toLowerCase text in
  JsString.test ["otp"; "one time password"] lower
  || JsString.test ["upi"; "account number"; "bank"] lower
  || JsString.test ["link"; "click"] lower
  || JsString.test ["blocked"; "suspended"; "urgent"; "hours"] lower
  || JsString.test ["won"; "prize"; "reward"] lower.

(** Lines 46 to 83, which run without awaiting: the session is created if
    need be, counted and tagged, and the baseline is chosen.  [state] is the
    entry of the store, or else what the store inherits under that name: a
    built-in, on which [turns += 1] leaves [NaN] in a property that nothing
    else reads, and which has no sets, so that a rule that matches throws.
    The result is the store and the baseline, [None] when it throws. *)
Definition receive (sessionState : gmap string Session.t)
    (sessionId text : string) : option (gmap string Session.t * string) :=
  let sessionState := init sessionId sessionState in
  match sessionState !! sessionId with
  | Some state =>
      let state := Session.set_turns (Session.turns state + 1) state in
      let state := extraction text state in
      Some (<[sessionId := state]> sessionState, baseReply (Session.turns state))
  | None =>
      if adds_a_tag text then None else Some (sessionState, baseReply_NaN)
  end.

(** Lines 89 to 101, which run when the oracle has settled: the guarded
    block on [state] as it is then.  On a built-in the guard fails, [NaN]
    being no less than 4. *)
Definition finalize (guvi_resolves : bool) (sessionId : string)
    (metadata : Metadata.t) (sessionState : gmap string Session.t)
  : gmap string Session.t * list Event :=
  match sessionState !! sessionId with
  | Some state =>
      let '(state, callback) := finalization guvi_resolves sessionId metadata state in
      (<[sessionId := state]> sessionState, callback)
  | None => (sessionState, [])
  end.

Definition success (reply : Js.value) : Response :=
  {| status := 200;
     json := Js.VObj [("status", Js.VStr "success"); ("reply", reply)] |}.

(** The part of [handler] below the envelope check, run to its response:
    [sessionId] and [text] are non-empty strings here. *)
Definition converse (w : World) (sessionState : gmap string Session.t)
    (sessionId text : string) (metadata : Metadata.t) : Result :=
  match receive sessionState sessionId text with
  | None => {| store := sessionState; trace := []; outcome := Uncaught |}
  | Some (sessionState, baseReply) =>
      let geminiPrompt := geminiPrompt baseReply in
      let geminiReply := generateGeminiReply (gemini w) in
      let reply := Js.or geminiReply (Js.VStr baseReply) in
      let '(sessionState, callback) :=
        finalize (guvi_resolves w) sessionId metadata sessionState in
      {| store := sessionState;
         trace := GeminiRequest geminiPrompt :: callback;
         outcome := Sent (success reply) |}
  end.

(** Lines 30 to 43: the credential and the envelope. *)
Inductive Gate :=
| Turned_away (r : Response)
| Throws                         (* destructuring a missing body *)
| Let_in (sessionId text : string) (metadata : Metadata.t).

Definition gateway (req : Request Envelope.t) : Gate :=
  let apiKey := x_api_key req in
  if JsString.falsy apiKey then
    Turned_away {| status := 401;
                   json := Js.VObj [("error", Js.VStr "x-api-key missing")] |}
  else if negb (JsString.strict_eq apiKey "dev-key") then
    Turned_away {| status := 403;
                   json := Js.VObj [("error", Js.VStr "Invalid API key")] |}
  else
    match body req with
    | None => Throws
    | Some envelope =>
        let sessionId := Envelope.sessionId envelope in
        let text := Envelope.message envelope ≫= Message.text in
        let metadata := default Metadata.none (Envelope.metadata envelope) in
        match sessionId, text with
        | Some sessionId, Some text =>
            if String.eqb sessionId EmptyString || String.eqb text EmptyString then
              Turned_away (success (Js.VStr "Can you explain this message?"))
            else Let_in sessionId text metadata
        | _, _ => Turned_away (success (Js.VStr "Can you explain this message?"))
        end
    end.

(** One request from its arrival to its response, nothing else running
    meanwhile. *)
Definition handler (w : World) (sessionState : gmap string Session.t)
    (req : Request Envelope.t) : Result :=
  match gateway req with
  | Turned_away r => {| store := sessionState; trace := []; outcome := Sent r |}
  | Throws => {| store := sessionState; trace := []; outcome := Uncaught |}
  | Let_in sessionId text metadata => converse w sessionState sessionId text metadata
  end.

(** Requests handled one after the other, each with what the network does
    meanwhile.  The result keeps the final store, every outgoing call in
    order, and the outcome of each request. *)
Record Run := {
  final : gmap string Session.t;
  calls : list Event;
  outcomes : list Outcome
}.

Fixpoint serve (arrivals : list (World * Request Envelope.t))
    (sessionState : gmap string Session.t) : Run :=
  match arrivals with
  | [] => {| final := sessionState; calls := []; outcomes := [] |}
  | (w, req) :: rest =>
      let r := handler w sessionState req in
      let run := serve rest (store r) in
      {| final := final run;
         calls := trace r ++ calls run;
         outcomes := outcome r :: outcomes run |}
  end.

(** *** Requests that overlap

    The handler awaits twice: the oracle (line 85) and, when it has sent the
    callback, the evaluation endpoint (line 104).  Nothing bounds either
    wait.  While a request waits, others arrive and go on; what a waiting
    request keeps is its local variables, and [state] is the object in the
    store, which it reads again when it goes on. *)
Record Waiting := {
  w_world : World;
  w_sessionId : string;
  w_metadata : Metadata.t;
  w_baseReply : string;
  w_reply : option Js.value    (* [reply], once line 86 has run *)
}.

Record Server := {
  sessions : gmap string Session.t;
  waiting : gmap nat Waiting;       (* by order of arrival *)
  arrived : nat;                    (* requests received so far *)
  log : list Event;                 (* outgoing calls so far, in order *)
  answers : gmap nat Outcome
}.

Inductive Action :=
| Arrive (w : World) (req : Request Envelope.t)
| Settle (ticket : nat).   (* what request [ticket] awaits settles *)

(** The process at its start. *)
Definition boot : Server :=
  {| sessions := ∅; waiting := ∅; arrived := 0; log := []; answers := ∅ |}.

Definition answer (ticket : nat) (o : Outcome) (sessionState : gmap string Session.t)
    (s : Server) : Server :=
  {| sessions := sessionState;
     waiting := delete ticket (waiting s);
     arrived := arrived s;
     log := log s;
     answers := <[ticket := o]> (answers s) |}.

Definition arrive (w : World) (req : Request Envelope.t) (s : Server) : Server :=
  let ticket := arrived s in
  let s := {| sessions := sessions s; waiting := waiting s; arrived := S ticket;
              log := log s; answers := answers s |} in
  match gateway req with
  | Turned_away r => answer ticket (Sent r) (sessions s) s
  | Throws => answer ticket Uncaught (sessions s) s
  | Let_in sessionId text metadata =>
      match receive (sessions s) sessionId text with
      | None => answer ticket Uncaught (sessions s) s
      | Some (sessionState, baseReply) =>
          {| sessions := sessionState;
             waiting := <[ticket := {| w_world := w; w_sessionId := sessionId;
                                       w_metadata := metadata;
                                       w_baseReply := baseReply;
                                       w_reply := None |}]> (waiting s);
             arrived := arrived s;
             log := log s ++ [GeminiRequest (geminiPrompt baseReply)];
             answers := answers s |}
      end
  end.

Definition settle (ticket : nat) (s : Server) : Server :=
  match waiting s !! ticket with
  | None => s
  | Some r =>
      match w_reply r with
      | Some reply => answer ticket (Sent (success reply)) (sessions s) s
      | None =>
          let geminiReply := generateGeminiReply (gemini (w_world r)) in
          let reply := Js.or geminiReply (Js.VStr (w_baseReply r)) in
          let '(sessionState, callback) :=
            finalize (guvi_resolves (w_world r)) (w_sessionId r) (w_metadata r)
              (sessions s) in
          match callback with
          | [] => answer ticket (Sent (success reply)) sessionState s
          | _ :: _ =>
              {| sessions := sessionState;
                 waiting := <[ticket := {| w_world := w_world r;
                                           w_sessionId := w_sessionId r;
                                           w_metadata := w_metadata r;
                                           w_baseReply := w_baseReply r;
                                           w_reply := Some reply |}]> (waiting s);
                 arrived := arrived s;
                 log := log s ++ callback;
                 answers := answers s |}
          end
      end
  end.

Definition step (s : Server) (a : Action) : Server :=
  match a with
  | Arrive w req => arrive w req s
  | Settle ticket => settle ticket s
  end.

Definition run (actions : list Action) (s : Server) : Server :=
  foldl step s actions.

(** The schedule in which every request is answered before the next
    arrives; [ticket] is the number of requests received before. *)
Fixpoint one_at_a_time (ticket : nat) (arrivals : list (World * Request Envelope.t))
  : list Action :=
  match arrivals with
  | [] => []
  | (w, req) :: rest =>
      Arrive w req :: Settle ticket :: Settle ticket :: one_at_a_time (S ticket) rest
  end.

(** The requests of a schedule, in order of arrival. *)
Definition arrivals_of (actions : list Action) : list (World * Request Envelope.t) :=
  omap (fun a => match a with
                 | Arrive w req => Some (w, req)
                 | Settle _ => None
                 end) actions.

(** What one step adds to the log. *)
Definition sent_by (a : Action) (s : Server) : list Event :=
  drop (length (log s)) (log (step s a)).

(** *** Vocabulary of the statements *)

(** The indicator extractor as a function of the text alone: the tags the
    extraction block adds to a session without tags, as
    (scam indicators, requested data). *)
Definition extract (text : string) : JsSet.t * JsSet.t :=
  let state := extraction text newSession in
  (Session.scamIndicators state, Session.requestedData state).

(** A request is processed when it carries the credential and an envelope
    with a non-empty session id and message text; [processed] gives what it
    is processed with. *)
Definition processed (req : Request Envelope.t)
  : option (string * string * Metadata.t) :=
  match x_api_key req, body req with
  | Some key, Some envelope =>
      match Envelope.sessionId envelope, Envelope.message envelope ≫= Message.text with
      | Some sessionId, Some text =>
          if bool_decide (key = "dev-key" ∧ sessionId ≠ EmptyString ∧ text ≠ EmptyString)
          then Some (sessionId, text, default Metadata.none (Envelope.metadata envelope))
          else None
      | _, _ => None
      end
  | _, _ => None
  end.

(** Under the id the store finds a built-in: it has no entry of its own
    for it, and the id is a name it inherits. *)
Definition builtin (sessionId : string) (sessionState : gmap string Session.t) : bool :=
  bool_decide (sessionState !! sessionId = None) && Js.inherited sessionId.

(** The texts of the processed requests of one session, in order. *)
Definition texts_for (sessionId : string)
    (arrivals : list (World * Request Envelope.t)) : list string :=
  omap (fun a : World * Request Envelope.t =>
          match processed (snd a) with
          | Some (sid, text, _) =>
              if bool_decide (sid = sessionId) then Some text else None
          | None => None
          end) arrivals.

(** The callbacks sent for one session. *)
Definition callbacks_for (sessionId : string) (events : list Event)
  : list Payload.t :=
  omap (fun e => match e with
                 | GuviCallback p =>
                     if bool_decide (Payload.sessionId p = sessionId)
                     then Some p else None
                 | GeminiRequest _ => None
                 end) events.

(** A request of the session awaits the oracle. *)
Definition busy (sessionId : string) (s : Server) : Prop :=
  exists ticket r,
    waiting s !! ticket = Some r /\ w_sessionId r = sessionId /\ w_reply r = None.

(** What holds of the server whatever has arrived and settled: a waiting
    request has arrived; a stored session has an id of its own, one callback
    in the log if it is finalized and none otherwise, is finalized only with
    four turns or more, and with four turns or more is finalized unless one
    of its requests still awaits the oracle; no callback was sent for an id
    that is not stored. *)
Definition consistent (s : Server) : Prop :=
  (forall ticket, is_Some (waiting s !! ticket) -> ticket < arrived s)
  /\ (forall sid state,
        sessions s !! sid = Some state ->
        Js.inherited sid = false
        /\ length (callbacks_for sid (log s)) = Nat.b2n (Session.finalized state)
        /\ (Session.finalized state = true -> 4 <= Session.turns state)
        /\ (4 <= Session.turns state -> Session.finalized state = false ->
            busy sid s))
  /\ (forall sid, sessions s !! sid = None -> callbacks_for sid (log s) = []).

(** The session a list of processed texts leads to: one turn per text, the
    tags of every text in order, finalized from the fourth text on. *)
Definition session_after (texts : list string) : Session.t :=
  let tagged := foldl (fun state text => extraction text state) newSession texts in
  {| Session.turns := length texts;
     Session.scamIndicators := Session.scamIndicators tagged;
     Session.requestedData := Session.requestedData tagged;
     Session.finalized := (4 <=? length texts)%nat |}.

Definition turns_of (sessionId : string) (sessionState : gmap string Session.t) : nat :=
  match sessionState !! sessionId with
  | Some state => Session.turns state
  | None => 0
  end.

(** One more processed text: the session as the handler leaves it. *)
Definition advance (text : string) (state : Session.t) : Session.t :=
  let state := Session.set_turns (Session.turns state + 1) state in
  let state := extraction text state in
  if (4 <=? Session.turns state)%nat && negb (Session.finalized state)
  then Session.set_finalized true state else state.

(** The session of a processed request before the guarded block: looked up
    or created, counted, tagged. *)
Definition counted (text : string) (o : option Session.t) : Session.t :=
  let state := default newSession o in
  extraction text (Session.set_turns (Session.turns state + 1) state).

(** The text lowercased contains one of the words. *)
Definition mentions (words : list string) (text : string) : Prop :=
  exists word before after,
    word ∈ words /\ JsString.toLowerCase text = before +:+ word +:+ after.

(** Where an answer of the oracle carries its text. *)
Definition text_path : list Js.accessor :=
  [Js.Field "candidates"; Js.Index 0; Js.Field "content";
   Js.Field "parts"; Js.Index 0; Js.Field "text"].

(** The oracle runs that give the engine nothing to say: the call fails (a
    network error, a timeout that rejects the [fetch]), the answer is not
    JSON, the JSON has no text at [text_path], or that text is [null] or
    empty. *)
Inductive fails : OracleRun -> Prop :=
| fails_fetch : fails FetchRejects
| fails_json : fails JsonRejects
| fails_no_text data :
    Js.optional_chain data text_path = Js.VUndefined -> fails (Parsed data)
| fails_null_text data :
    Js.optional_chain data text_path = Js.VNull -> fails (Parsed data)
| fails_empty_text data :
    Js.optional_chain data text_path = Js.VStr EmptyString -> fails (Parsed data).

Definition success_body (reply : Js.value) : Js.value :=
  Js.VObj [("status", Js.VStr "success"); ("reply", reply)].

(** The entry of the store after the given processed texts of a session:
    none before the first. *)
Definition session_of (texts : list string) : option Session.t :=
  match texts with
  | [] => None
  | _ :: _ => Some (session_after texts)
  end.

End Honeypot.

(** ** The stateless classifier endpoint (a second [handler]) *)
Module Classifier.
Import Http.

(** Its envelope is [{ text }]. *)
Record Body := { text : option string }.

Record Result := {
  asked : list string;      (* prompts sent to the oracle *)
  outcome : Outcome
}.

Definition dquote : string := String (ascii_of_nat 34) EmptyString.
Definition nl : string := String (ascii_of_nat 10) EmptyString.

Definition prompt (text : string) : string :=
  nl +:+ "You are an AI honeypot chat bot." +:+ nl
  +:+ nl
  +:+ "Decide if the message is a scam." +:+ nl
  +:+ "If scam, reply like a real person and keep the scammer talking." +:+ nl
  +:+ "Never share OTP, PIN, or personal info." +:+ nl
  +:+ "If not scam, reply politely." +:+ nl
  +:+ nl
  +:+ "Return ONLY valid JSON:" +:+ nl
  +:+ "{" +:+ nl
  +:+ "  " +:+ dquote +:+ "isScam" +:+ dquote +:+ ": true or false," +:+ nl
  +:+ "  " +:+ dquote +:+ "reply" +:+ dquote +:+ ": " +:+ dquote
        +:+ "message to send back" +:+ dquote +:+ "," +:+ nl
  +:+ "  " +:+ dquote +:+ "scamType" +:+ dquote +:+ ": " +:+ dquote
        +:+ "OTP / Bank / UPI / None" +:+ dquote +:+ nl
  +:+ "}" +:+ nl
  +:+ nl
  +:+ "Message:" +:+ nl
  +:+ dquote +:+ text +:+ dquote +:+ nl.

(** The result used when the oracle's text is not JSON. *)
Definition fallback : Js.value :=
  Js.VObj [("isScam", Js.VBool false);
           ("reply", Js.VStr "Okay, thanks for the message!");
           ("scamType", Js.VStr "None")].

Definition send (prompts : list string) (code : nat) (v : Js.value) : Result :=
  {| asked := prompts; outcome := Sent {| status := code; json := v |} |}.

Section Handler.

(** [JSON.parse]: [None] when it throws. *)
Variable JSON_parse : Js.value -> option Js.value.

Definition handler (run : OracleRun) (req : Request Body) : Result :=
  if String.eqb (method req) "GET" then
    send [] 200 (Js.VObj [("status", Js.VStr "ok")])
  else if negb (String.eqb (method req) "POST") then
    send [] 405 (Js.VObj [("error", Js.VStr "Method not allowed")])
  else if negb (JsString.strict_eq (x_api_key req) "dev-key") then
    send [] 401 (Js.VObj [("error", Js.VStr "Unauthorized")])
  else
    match body req with
    | None => {| asked := []; outcome := Uncaught |}
    | Some b =>
        if JsString.falsy (text b) then
          send [] 400 (Js.VObj [("error", Js.VStr "Text is required")])
        else
          let text := default EmptyString (text b) in
          match run with
          | FetchRejects | JsonRejects =>
              send [prompt text] 500 (Js.VObj [("error", Js.VStr "Gemini failed")])
          | Parsed data =>
              let aiText :=
                Js.or (Js.optional_chain data
                         [Js.Field "candidates"; Js.Index 0; Js.Field "content";
                          Js.Field "parts"; Js.Index 0; Js.Field "text"])
                      (Js.VStr EmptyString) in
              let result := default fallback (JSON_parse aiText) in
              send [prompt text] 200 result
          end
    end.

End Handler.

End Classifier.

(** ** Sample traffic, for the concrete instances below *)
Module Sample.
Import Http Honeypot.

(** A world in which the oracle is unreachable and the callback is lost. *)
Definition offline : World := {| gemini := FetchRejects; guvi_resolves := false |}.

(** A world in which the oracle answers with the given text. *)
Definition answering (text : string) : World :=
  {| gemini :=
       Parsed (Js.VObj
         [("candidates",
           Js.VArr [Js.VObj
             [("content",
               Js.VObj [("parts", Js.VArr [Js.VObj [("text", Js.VStr text)]])])]])]);
     guvi_resolves := true |}.

(** An authorized POST of one message. *)
Definition post (sessionId text : string) : Request Envelope.t :=
  {| method := "POST";
     x_api_key := Some "dev-key";
     body := Some {| Envelope.sessionId := Some sessionId;
                     Envelope.message :=
                       Some {| Message.sender := Some "scammer";
                               Message.text := Some text |};
                     Envelope.metadata := None |} |}.

(** An authorized POST whose envelope has no message. *)
Definition post_without_message (sessionId : string) : Request Envelope.t :=
  {| method := "POST";
     x_api_key := Some "dev-key";
     body := Some {| Envelope.sessionId := Some sessionId;
                     Envelope.message := None;
                     Envelope.metadata := None |} |}.

(** A GET probe without credential or body. *)
Definition probe {B : Type} : Request B :=
  {| method := "GET"; x_api_key := None; body := None |}.

(** A request to the classifier. *)
Definition classify (key : option string) (text : option string)
  : Request Classifier.Body :=
  {| method := "POST"; x_api_key := key;
     body := Some {| Classifier.text := text |} |}.

(** A parser that accepts nothing. *)
Definition no_json (v : Js.value) : option Js.value := None.

(** Three small-talk messages of session [s1], the oracle offline. *)
Definition three_greetings : list (World * Request Envelope.t) :=
  [(offline, post "s1" "hello"); (offline, post "s1" "how are you");
   (offline, post "s1" "are you there")].

Definition four_greetings : list (World * Request Envelope.t) :=
  three_greetings ++ [(offline, post "s1" "please answer")].

(** U+212A KELVIN SIGN as UTF-8, and a text that spells "link" with it. *)
Definition kelvin_sign : string :=
  String (ascii_of_nat 226) (String (ascii_of_nat 132) (String (ascii_of_nat 170) EmptyString)).

Definition link_with_kelvin_sign : string := "Open this LIN" +:+ kelvin_sign.

(** The three greetings are answered; then the fourth message and a fifth,
    which asks for the OTP, arrive before either is answered. *)
Definition fifth_overtakes : list Action :=
  one_at_a_time 0 three_greetings
  ++ [Arrive offline (post "s1" "please answer");
      Arrive offline (post "s1" "share the OTP now")].

(** The report sent when the fourth message then goes on. *)
Definition report_of_five : Payload.t :=
  {| Payload.sessionId := "s1";
     Payload.scamDetected := true;
     Payload.scamIndicators := [];
     Payload.requestedSensitiveData := ["OTP"];
     Payload.channel := "Unknown";
     Payload.language := "Unknown";
     Payload.locale := "Unknown";
     Payload.totalTurns := 5 |}.

(** A world in which the oracle answers with the given value as its
    text. *)
Definition answering_with (text : Js.value) : World :=
  {| gemini :=
       Parsed (Js.VObj
         [("candidates",
           Js.VArr [Js.VObj
             [("content",
               Js.VObj [("parts", Js.VArr [Js.VObj [("text", text)]])])]])]);
     guvi_resolves := true |}.

(** The report of [four_greetings]: no tag was ever extracted. *)
Definition report_s1 : Payload.t :=
  {| Payload.sessionId := "s1";
     Payload.scamDetected := true;
     Payload.scamIndicators := [];
     Payload.requestedSensitiveData := [];
     Payload.channel := "Unknown";
     Payload.language := "Unknown";
     Payload.locale := "Unknown";
     Payload.totalTurns := 4 |}.

End Sample.

(** ** Further vocabulary for the session endpoint *)
Module Watch.
Import Http Honeypot.

(** The prompts sent to the oracle, in order. *)
Definition prompts_of (events : list Event) : list string :=
  omap (fun e => match e with
                 | GeminiRequest prompt => Some prompt
                 | GuviCallback _ => None
                 end) events.

(** The entry of a session after one more processed text. *)
Definition step_entry (o : option Session.t) (text : string) : option Session.t :=
  Some (advance text (default newSession o)).



(** An authorized POST of one message with metadata. *)
Definition post_with (sessionId text : string) (metadata : Metadata.t)
  : Request Envelope.t :=
  {| method := "POST";
     x_api_key := Some "dev-key";
     body := Some {| Envelope.sessionId := Some sessionId;
                     Envelope.message :=
                       Some {| Message.sender := Some "scammer";
                               Message.text := Some text |};
                     Envelope.metadata := Some metadata |} |}.

(** An answer of the oracle with two candidates, the first with two parts,
    and fields besides the ones the handler reads. *)
Definition long_answer : Js.value :=
  Js.VObj
    [("usageMetadata", Js.VObj [("totalTokenCount", Js.VNum 42)]);
     ("candidates",
      Js.VArr
        [Js.VObj
           [("finishReason", Js.VStr "STOP");
            ("content",
             Js.VObj [("role", Js.VStr "model");
                      ("parts", Js.VArr [Js.VObj [("text", Js.VStr "Who is this?")];
                                         Js.VObj [("text", Js.VStr "Which bank?")]])])];
         Js.VObj
           [("content",
             Js.VObj [("parts", Js.VArr [Js.VObj [("text", Js.VStr "Why?")]])])]])].

End Watch.

(** ** What [res.json] puts on the wire *)
Module Json.

(** [JSON.stringify] drops the fields of an object whose value is
    [undefined] and writes [null] for an [undefined] element of an array;
    [wire v] is the value a client parses back. *)
Fixpoint wire (v : Js.value) : Js.value :=
  match v with
  | Js.VArr items =>
      Js.VArr (List.map (fun item => match item with
                                     | Js.VUndefined => Js.VNull
                                     | _ => wire item
                                     end) items)
  | Js.VObj fields =>
      Js.VObj
        ((fix keep (fields : list (string * Js.value)) : list (string * Js.value) :=
            match fields with
            | [] => []
            | (name, Js.VUndefined) :: rest => keep rest
            | (name, value) :: rest => (name, wire value) :: keep rest
            end) fields)
  | _ => v
  end.

End Json.

(** ** The keyword endpoint (a third [handler]): no credential, no oracle *)
Module Mock.
Import Http.

(** Its envelope is [{ text }]. *)
Record Body := { text : option string }.

(** [text?.toLowerCase().includes("otp")]: [undefined] without a text. *)
Definition isScam (text : option string) : Js.value :=
  match text with
  | None => Js.VUndefined
  | Some text => Js.VBool (JsString.includes "otp" (JsString.toLowerCase text))
  end.

Definition handler (req : Request Body) : Outcome :=
  if negb (String.eqb (method req) "POST") then
    Sent {| status := 405;
            json := Js.VObj [("error", Js.VStr "Method not allowed")] |}
  else
    match body req with
    | None => Uncaught
    | Some b =>
        let isScam := isScam (text b) in
        Sent {| status := 200;
                json := Js.VObj
                  [("scam", isScam);
                   ("message", Js.VStr (if Js.truthy isScam then "Scam detected"
                                        else "Safe message"))] |}
    end.

End Mock.

(** ** The tester endpoint (a fourth [handler]): credential, keyword flag
    and the oracle's raw answer *)
Module Tester.
Import Http.

(** Its envelope is [{ text }]; the handler tests the type of [text] itself,
    so the field is any JSON value, [undefined] when absent. *)
Record Body := { text : Js.value }.

Record Result := {
  asked : list string;      (* texts sent to the oracle *)
  outcome : Outcome
}.

Definition send (prompts : list string) (code : nat)
    (fields : list (string * Js.value)) : Result :=
  {| asked := prompts;
     outcome := Sent {| status := code; json := Js.VObj fields |} |}.

(** The answer without a usable text. *)
Definition tester_mode : Result :=
  send [] 200 [("status", Js.VStr "ok"); ("authenticated", Js.VBool true);
               ("honeypot", Js.VBool true)].

(** [/otp|upi|blocked/i.test(text)]: the flag [i] folds the ASCII letters. *)
Definition scam (text : string) : bool :=
  JsString.test ["otp"; "upi"; "blocked"] (JsString.fold_case text).

(** The text contains one of the words, the case of the letters [A-Z]
    aside. *)
Definition mentions (words : list string) (text : string) : Prop :=
  exists word before after,
    word ∈ words /\ JsString.fold_case text = before +:+ word +:+ after.

(** [data.candidates?.[0]?.content?.parts?.[0]?.text]: the first access is
    not optional and throws on [null]. *)
Definition aiResponse (data : Js.value) : option Js.value :=
  if Js.nullish data then None
  else Some (Js.optional_chain (Js.access (Js.Field "candidates") data)
               [Js.Index 0; Js.Field "content"; Js.Field "parts";
                Js.Index 0; Js.Field "text"]).

Definition handler (run : OracleRun) (req : Request Body) : Result :=
  let apiKey := x_api_key req in
  if JsString.falsy apiKey then
    send [] 401 [("error", Js.VStr "x-api-key missing")]
  else if negb (JsString.strict_eq apiKey "dev-key") then
    send [] 403 [("error", Js.VStr "Invalid API key")]
  else
    match body req with
    | None => tester_mode
    | Some b =>
        match text b with
        | Js.VStr text =>
            match run with
            | FetchRejects | JsonRejects => {| asked := [text]; outcome := Uncaught |}
            | Parsed data =>
                match aiResponse data with
                | None => {| asked := [text]; outcome := Uncaught |}
                | Some answer =>
                    send [text] 200 [("scam", Js.VBool (scam text));
                                     ("aiResponse", answer)]
                end
            end
        | _ => tester_mode
        end
    end.

End Tester.

(** ** [String.prototype.trim] and [Array.prototype.join] *)
Module JsText.

(** The white space and line terminators of the language, as UTF-8:
    U+0009 to U+000D, U+0020, U+00A0, U+1680, U+2000 to U+200A, U+2028,
    U+2029, U+202F, U+205F, U+3000 and U+FEFF. *)
Definition whitespace : list (list ascii) :=
  List.map (List.map ascii_of_nat)
    [[9]; [10]; [11]; [12]; [13]; [32];
     [194; 160]; [225; 154; 128];
     [226; 128; 128]; [226; 128; 129]; [226; 128; 130];
     [226; 128; 131]; [226; 128; 132]; [226; 128; 133];
     [226; 128; 134]; [226; 128; 135]; [226; 128; 136];
     [226; 128; 137]; [226; 128; 138];
     [226; 128; 168]; [226; 128; 169]; [226; 128; 175];
     [226; 129; 159]; [227; 128; 128]; [239; 187; 191]].

(** [strip w s]: [s] without its prefix [w], if it has it. *)
Fixpoint strip (w s : list ascii) : option (list ascii) :=
  match w, s with
  | [], _ => Some s
  | a :: w', b :: s' => if Ascii.eqb a b then strip w' s' else None
  | _ :: _, [] => None
  end.

Fixpoint strip_any (ws : list (list ascii)) (s : list ascii) : option (list ascii) :=
  match ws with
  | [] => None
  | w :: ws' =>
      match strip w s with
      | Some rest => Some rest
      | None => strip_any ws' s
      end
  end.

(** Strip as long as one of [ws] is in front; [fuel] bounds the rounds. *)
Fixpoint strip_all (fuel : nat) (ws : list (list ascii)) (s : list ascii)
  : list ascii :=
  match fuel with
  | 0 => s
  | S fuel' =>
      match strip_any ws s with
      | Some rest => strip_all fuel' ws rest
      | None => s
      end
  end.

Definition trimStart_chars (s : list ascii) : list ascii :=
  strip_all (length s) whitespace s.

Definition trimEnd_chars (s : list ascii) : list ascii :=
  rev (strip_all (length s) (List.map (@rev ascii) whitespace) (rev s)).

Definition trim (s : string) : string :=
  string_of_list_ascii (trimEnd_chars (trimStart_chars (list_ascii_of_string s))).

(** The string starts or ends with white space. *)
Definition padded (s : string) : bool :=
  let chars := list_ascii_of_string s in
  match strip_any whitespace chars,
        strip_any (List.map (@rev ascii) whitespace) (rev chars) with
  | None, None => false
  | _, _ => true
  end.

(** [items.join(separator)] for an array of strings. *)
Fixpoint join (separator : string) (items : list string) : string :=
  match items with
  | [] => EmptyString
  | [item] => item
  | item :: rest => item +:+ separator +:+ join separator rest
  end.

End JsText.

(** ** The conversational endpoint of [detect.js] (a fifth [handler]) *)
Module Detect.
Import Http.

(** The inbound envelope, as for the session endpoint, with the history. *)
Record Envelope := {
  sessionId : option string;
  message : option Honeypot.Message.t;
  conversationHistory : option (list Honeypot.Message.t);
  metadata : option Honeypot.Metadata.t
}.

(** [req.body || {}] *)
Definition no_envelope : Envelope :=
  {| sessionId := None; message := None; conversationHistory := None;
     metadata := None |}.

(** The server's configuration, the oracle's run, and the draw of
    [Math.random()], read modulo the number of fallback replies. *)
Record World := {
  GEMINI_API_KEY : option string;
  gemini : OracleRun;
  random : nat
}.

Record Result := {
  asked : list string;      (* prompts sent to the oracle *)
  outcome : Outcome
}.

Definition send (prompts : list string) (code : nat)
    (fields : list (string * Js.value)) : Result :=
  {| asked := prompts;
     outcome := Sent {| status := code; json := Js.VObj fields |} |}.

(** The [catch] block. *)
Definition caught (prompts : list string) : Result :=
  send prompts 500
    [("status", Js.VStr "error");
     ("reply", Js.VStr "Can you please explain what this is regarding?")].

Definition nl : string := String (ascii_of_nat 10) EmptyString.
Definition dquote : string := String (ascii_of_nat 34) EmptyString.

Definition prompt (historyText text : string) : string :=
  nl +:+ "You are a normal bank customer." +:+ nl
  +:+ "You are chatting with someone who contacted you first." +:+ nl
  +:+ nl
  +:+ "Rules:" +:+ nl
  +:+ "- Ask ONLY one short clarification question." +:+ nl
  +:+ "- Be polite and human." +:+ nl
  +:+ "- Do NOT share any personal, bank, OTP, or UPI details." +:+ nl
  +:+ "- Do NOT mention scams, fraud, security systems, or AI." +:+ nl
  +:+ "- Do NOT explain policies." +:+ nl
  +:+ "- Adapt naturally based on the conversation." +:+ nl
  +:+ "- If something feels unclear, ask for proof or explanation." +:+ nl
  +:+ nl
  +:+ "Conversation so far:" +:+ nl
  +:+ (if String.eqb historyText EmptyString then "None" else historyText) +:+ nl
  +:+ nl
  +:+ "Latest message from other person:" +:+ nl
  +:+ dquote +:+ text +:+ dquote +:+ nl
  +:+ nl
  +:+ "Reply as the customer:" +:+ nl.

Definition fallbackReplies : list string :=
  ["Why is this action required?";
   "Can you explain this in more detail?";
   "I haven’t received any official message about this.";
   "What is the reason for this request?"].

(** [fallbackReplies[Math.floor(Math.random() * fallbackReplies.length)]] *)
Definition fallback (random : nat) : Js.value :=
  match fallbackReplies !! (random mod length fallbackReplies) with
  | Some reply => Js.VStr reply
  | None => Js.VUndefined
  end.

Section Handler.

(** [String(v)] for a value that is a boolean, a number, an array or an
    object: what [join] writes for such an element. *)
Variable String_of : Js.value -> string.

(** [String.prototype.toUpperCase], which maps every cased letter of
    Unicode, some to several characters. *)
Variable toUpperCase : string -> string.

(** One line of the history; [None] when [m.sender.toUpperCase()] throws
    because the entry has no sender. *)
Definition historyLine (m : Honeypot.Message.t) : option string :=
  match Honeypot.Message.sender m with
  | None => None
  | Some sender =>
      Some (toUpperCase sender +:+ ": "
            +:+ default "undefined" (Honeypot.Message.text m))
  end.

Definition historyText (conversationHistory : list Honeypot.Message.t)
  : option string :=
  JsText.join nl <$> mapM historyLine conversationHistory.


(** What [join] writes for one element. *)
Definition joined (v : Js.value) : string :=
  match v with
  | Js.VUndefined | Js.VNull => EmptyString
  | Js.VStr s => s
  | _ => String_of v
  end.

(** [p => p.text]; [None] when [p] is [null] and the access throws. *)
Definition part_text (p : Js.value) : option Js.value :=
  if Js.nullish p then None else Some (Js.access (Js.Field "text") p).

(** [geminiData?.candidates?.[0]?.content?.parts?.map(p => p.text)
      ?.join(" ")?.trim() || null]; [None] when it throws: [parts] is
    neither missing nor an array, or one of the parts is [null]. *)
Definition geminiReply (geminiData : Js.value) : option Js.value :=
  let parts :=
    Js.optional_chain geminiData
      [Js.Field "candidates"; Js.Index 0; Js.Field "content"; Js.Field "parts"] in
  if Js.nullish parts then Some Js.VNull
  else
    match parts with
    | Js.VArr items =>
        texts ← mapM part_text items;
        Some (Js.or (Js.VStr (JsText.trim (JsText.join " " (joined <$> texts))))
                    Js.VNull)
    | _ => None
    end.

Definition handler (w : World) (req : Request Envelope) : Result :=
  if negb (String.eqb (method req) "POST") then
    send [] 405 [("error", Js.VStr "Method not allowed")]
  else
    let clientKey := x_api_key req in
    if JsString.falsy clientKey || negb (JsString.strict_eq clientKey "dev-key") then
      send [] 401 [("status", Js.VStr "error");
                   ("message", Js.VStr "Unauthorized: invalid x-api-key")]
    else if JsString.falsy (GEMINI_API_KEY w) then
      send [] 500 [("status", Js.VStr "error");
                   ("message", Js.VStr "Gemini API key not configured on server")]
    else
      let envelope := default no_envelope (body req) in
      match message envelope ≫= Honeypot.Message.text with
      | None => send [] 400 [("error", Js.VStr "Invalid request body")]
      | Some text =>
          if String.eqb text EmptyString then
            send [] 400 [("error", Js.VStr "Invalid request body")]
          else
            match historyText (default [] (conversationHistory envelope)) with
            | None => caught []
            | Some historyText =>
                let prompt := prompt historyText text in
                match gemini w with
                | FetchRejects | JsonRejects => caught [prompt]
                | Parsed geminiData =>
                    match geminiReply geminiData with
                    | None => caught [prompt]
                    | Some geminiReply =>
                        let reply := Js.or geminiReply (fallback (random w)) in
                        send [prompt] 200
                          [("status", Js.VStr "success"); ("reply", reply)]
                    end
                end
            end
      end.

End Handler.

(** The request has passed every check: method, credential, server key,
    non-empty message text. *)
Definition validated (w : World) (req : Request Envelope) (text : string) : Prop :=
  method req = "POST"
  /\ x_api_key req = Some "dev-key"
  /\ JsString.falsy (GEMINI_API_KEY w) = false
  /\ message (default no_envelope (body req)) ≫= Honeypot.Message.text = Some text
  /\ text ≠ EmptyString.

(** The history of a request, [[]] by default. *)
Definition history_of (req : Request Envelope) : list Honeypot.Message.t :=
  default [] (conversationHistory (default no_envelope (body req))).

End Detect.

(** ** The chat window of [App.tsx]: its logic, its simulated endpoint and
    its two buttons

    The services it calls (scam detection, agent reply, intelligence
    extraction, agent notes) and the evaluation endpoint are outside the
    sources: what each call returns is part of the world, and the calls made
    are returned in order. *)
Module App.

Inductive Sender := scammer | honeypot.

Record Message := { sender : Sender; text : string; timestamp : Z }.

Record ExtractedIntelligence := {
  bankAccounts : list string;
  upiIds : list string;
  phishingLinks : list string;
  phoneNumbers : list string;
  suspiciousKeywords : list string
}.

Definition createEmptyIntelligence : ExtractedIntelligence :=
  {| bankAccounts := []; upiIds := []; phishingLinks := []; phoneNumbers := [];
     suspiciousKeywords := [] |}.

Inductive Status := active | completed.

Module HoneypotSession.
Record t := {
  sessionId : string;
  conversationHistory : list Message;
  scamDetected : bool;
  totalMessagesExchanged : nat;
  extractedIntelligence : ExtractedIntelligence;
  agentNotes : string;
  scamType : option string;
  status : Status
}.
End HoneypotSession.

(** The state of a new session with the given id. *)
Definition fresh (sessionId : string) : HoneypotSession.t :=
  {| HoneypotSession.sessionId := sessionId;
     HoneypotSession.conversationHistory := [];
     HoneypotSession.scamDetected := false;
     HoneypotSession.totalMessagesExchanged := 0;
     HoneypotSession.extractedIntelligence := createEmptyIntelligence;
     HoneypotSession.agentNotes := EmptyString;
     HoneypotSession.scamType := None;
     HoneypotSession.status := active |}.

(** The result of [detectScamIntent]. *)
Module Detection.
Record t := { isScam : bool; scamType : option string; initialReply : string }.
End Detection.

(** [{ status, reply, scamDetected? }] *)
Module Response.
Inductive Status := success | error.
Record t := { status : Status; reply : string; scamDetected : option bool }.
End Response.

Module FinalResult.
Record t := {
  sessionId : string;
  scamDetected : bool;
  totalMessagesExchanged : nat;
  extractedIntelligence : ExtractedIntelligence;
  agentNotes : string
}.
End FinalResult.

(** An awaited promise: its value, or the message of the error it rejects
    with. *)
Inductive Settled (A : Type) :=
| Resolved (a : A)
| Rejected (message : string).
Arguments Resolved {A} _.
Arguments Rejected {A} _.

(** The calls that leave the window. *)
Inductive Call :=
| DetectScamIntent (text : string) (history : list Message)
| GenerateAgentResponse (history : list Message)
| ExtractIntelligence (history : list Message)
| GenerateAgentNotes (history : list Message)
| Submit (finalPayload : FinalResult.t).

(** What the services answer during one run of the logic, and the two
    readings of the clock. *)
Record LogicWorld := {
  now_received : Z;
  now_replied : Z;
  detection : Settled Detection.t;
  agentResponse : Settled string;
  intelligence : Settled ExtractedIntelligence
}.

(** The envelope the simulated endpoint parses. *)
Record Payload := { p_sessionId : option string; p_text : option string }.

(** The simulated request: its method, [headers.get(...)] and [json()]. *)
Record SimRequest := {
  sim_method : string;
  sim_apiKey : option string;
  sim_json : Settled Payload
}.

Record SimResponse := { sim_status : nat; sim_body : Response.t }.

(** The state of the component. *)
Record UI := {
  session : HoneypotSession.t;
  isLoading : bool;
  error : option string
}.

(** What the evaluation endpoint does with a submission. *)
Inductive Submission :=
| FetchFails (message : string)
| Accepted                                   (* response.ok *)
| Refused (statusText : string)              (* not ok; json() gives ... *)
          (errorData : Settled (option string)).  (* ... its [message] *)

Record EndWorld := {
  notes : Settled string;                    (* generateAgentNotes *)
  submission : Submission
}.

Section Logic.

Variable DEFAULT_NON_SCAM_REPLY : string.
Variable HONEYPOT_DEV_API_KEY : string.

Definition processHoneypotLogic (w : LogicWorld)
    (currentSession : HoneypotSession.t) (scammerMessageText : string)
  : list Call * Settled (Response.t * HoneypotSession.t) :=
  let updatedHistory :=
    HoneypotSession.conversationHistory currentSession
    ++ [{| sender := scammer; text := scammerMessageText;
           timestamp := now_received w |}] in
  let step1 : list Call * Settled (string * bool * option string) :=
    if negb (HoneypotSession.scamDetected currentSession) then
      ([DetectScamIntent scammerMessageText updatedHistory],
       match detection w with
       | Rejected m => Rejected m
       | Resolved detectionResult =>
           Resolved (if Detection.isScam detectionResult
                     then Detection.initialReply detectionResult
                     else DEFAULT_NON_SCAM_REPLY,
                     Detection.isScam detectionResult,
                     Detection.scamType detectionResult)
       end)
    else
      ([GenerateAgentResponse updatedHistory],
       match agentResponse w with
       | Rejected m => Rejected m
       | Resolved reply =>
           Resolved (reply, HoneypotSession.scamDetected currentSession,
                     HoneypotSession.scamType currentSession)
       end) in
  match step1 with
  | (calls, Rejected m) => (calls, Rejected m)
  | (calls, Resolved (agentReply, newScamDetected, newScamType)) =>
      let finalHistory :=
        updatedHistory
        ++ [{| sender := honeypot; text := agentReply;
               timestamp := now_replied w |}] in
      let finish (calls : list Call) (extractedData : ExtractedIntelligence) :=
        (calls,
         Resolved
           ({| Response.status := Response.success;
               Response.reply := agentReply;
               Response.scamDetected := Some newScamDetected |},
            {| HoneypotSession.sessionId := HoneypotSession.sessionId currentSession;
               HoneypotSession.conversationHistory := finalHistory;
               HoneypotSession.scamDetected := newScamDetected;
               HoneypotSession.totalMessagesExchanged :=
                 HoneypotSession.totalMessagesExchanged currentSession + 2;
               HoneypotSession.extractedIntelligence := extractedData;
               HoneypotSession.agentNotes := HoneypotSession.agentNotes currentSession;
               HoneypotSession.scamType := newScamType;
               HoneypotSession.status := HoneypotSession.status currentSession |})) in
      if newScamDetected then
        match intelligence w with
        | Rejected m => (calls ++ [ExtractIntelligence finalHistory], Rejected m)
        | Resolved extractedData =>
            finish (calls ++ [ExtractIntelligence finalHistory]) extractedData
        end
      else finish calls (HoneypotSession.extractedIntelligence currentSession)
  end.

Definition sim_error (code : nat) (reply : string) : SimResponse :=
  {| sim_status := code;
     sim_body := {| Response.status := Response.error; Response.reply := reply;
                    Response.scamDetected := None |} |}.

Definition simulateHoneypotApiEndpoint (w : LogicWorld) (request : SimRequest)
    (currentSession : HoneypotSession.t) : list Call * SimResponse :=
  if negb (String.eqb (sim_method request) "POST") then
    ([], sim_error 405 "Method Not Allowed")
  else if JsString.falsy (sim_apiKey request)
          || negb (JsString.strict_eq (sim_apiKey request) HONEYPOT_DEV_API_KEY) then
    ([], sim_error 401 "Unauthorized: Invalid or missing API key")
  else
    match sim_json request with
    | Rejected _ => ([], sim_error 400 "Bad Request: Invalid JSON payload")
    | Resolved payload =>
        if JsString.falsy (p_sessionId payload) || JsString.falsy (p_text payload) then
          ([], sim_error 400 "Bad Request: Invalid JSON payload")
        else
          match processHoneypotLogic w currentSession
                  (default EmptyString (p_text payload)) with
          | (calls, Rejected _) =>
              (calls, sim_error 500 "Internal Server Error during AI processing")
          | (calls, Resolved (apiResponse, _)) =>
              (calls, {| sim_status := 200; sim_body := apiResponse |})
          end
    end.

(** The two runs of the logic that one message causes take their own
    worlds.  The key is read back from the mock headers as it was put there
    (it is a plain token, which [Headers] stores unchanged). *)
Definition handleIncomingMessage (w1 w2 : LogicWorld) (ui : UI)
    (scammerMessageText : string) : list Call * UI :=
  let failed (calls : list Call) (errorMessage : string) :=
    (calls,
     {| session := session ui; isLoading := false;
        error := Some ("Failed to process message: " +:+ errorMessage) |}) in
  let mockRequest :=
    {| sim_method := "POST";
       sim_apiKey := Some HONEYPOT_DEV_API_KEY;
       sim_json := Resolved {| p_sessionId := Some (HoneypotSession.sessionId (session ui));
                               p_text := Some scammerMessageText |} |} in
  let '(calls1, apiResponse) := simulateHoneypotApiEndpoint w1 mockRequest (session ui) in
  match (sim_status apiResponse =? 200)%nat, Response.status (sim_body apiResponse) with
  | true, Response.success =>
      match processHoneypotLogic w2 (session ui) scammerMessageText with
      | (calls2, Resolved (_, updatedSessionState)) =>
          (calls1 ++ calls2,
           {| session := updatedSessionState; isLoading := false; error := None |})
      | (calls2, Rejected m) => failed (calls1 ++ calls2) m
      end
  | _, _ =>
      failed calls1
        ("API Error " +:+ pretty (sim_status apiResponse) +:+ ": "
         +:+ Response.reply (sim_body apiResponse))
  end.

Definition with_status (st : Status) (s : HoneypotSession.t) : HoneypotSession.t :=
  {| HoneypotSession.sessionId := HoneypotSession.sessionId s;
     HoneypotSession.conversationHistory := HoneypotSession.conversationHistory s;
     HoneypotSession.scamDetected := HoneypotSession.scamDetected s;
     HoneypotSession.totalMessagesExchanged := HoneypotSession.totalMessagesExchanged s;
     HoneypotSession.extractedIntelligence := HoneypotSession.extractedIntelligence s;
     HoneypotSession.agentNotes := HoneypotSession.agentNotes s;
     HoneypotSession.scamType := HoneypotSession.scamType s;
     HoneypotSession.status := st |}.

Definition with_notes (finalNotes : string) (s : HoneypotSession.t) : HoneypotSession.t :=
  {| HoneypotSession.sessionId := HoneypotSession.sessionId s;
     HoneypotSession.conversationHistory := HoneypotSession.conversationHistory s;
     HoneypotSession.scamDetected := HoneypotSession.scamDetected s;
     HoneypotSession.totalMessagesExchanged := HoneypotSession.totalMessagesExchanged s;
     HoneypotSession.extractedIntelligence := HoneypotSession.extractedIntelligence s;
     HoneypotSession.agentNotes := finalNotes;
     HoneypotSession.scamType := HoneypotSession.scamType s;
     HoneypotSession.status := completed |}.

Definition finalPayload (s : HoneypotSession.t) (finalNotes : string) : FinalResult.t :=
  {| FinalResult.sessionId := HoneypotSession.sessionId s;
     FinalResult.scamDetected := HoneypotSession.scamDetected s;
     FinalResult.totalMessagesExchanged := HoneypotSession.totalMessagesExchanged s;
     FinalResult.extractedIntelligence := HoneypotSession.extractedIntelligence s;
     FinalResult.agentNotes := finalNotes |}.

Definition handleEndEngagement (w : EndWorld) (ui : UI) : list Call * UI :=
  match HoneypotSession.status (session ui), isLoading ui with
  | active, false =>
      let asked := GenerateAgentNotes (HoneypotSession.conversationHistory (session ui)) in
      (* the [catch] block, on the session as the [try] block left it *)
      let failed (calls : list Call) (s : HoneypotSession.t) (errorMessage : string) :=
        (calls,
         {| session := with_status active s; isLoading := false;
            error := Some ("Failed to submit final results: " +:+ errorMessage) |}) in
      match notes w with
      | Rejected m => failed [asked] (session ui) m
      | Resolved finalNotes =>
          let sent := [asked; Submit (finalPayload (session ui) finalNotes)] in
          let noted := with_notes finalNotes (session ui) in
          match submission w with
          | FetchFails m => failed sent noted m
          | Accepted => (sent, {| session := noted; isLoading := false; error := None |})
          | Refused statusText errorData =>
              match errorData with
              | Rejected m => failed sent noted m
              | Resolved message =>
                  failed sent noted
                    ("Failed to submit evaluation results: "
                     +:+ JsString.or_else message statusText)
              end
          end
      end
  | _, _ => ([], ui)
  end.

End Logic.

(** Messages typed into the window one after the other, each with the
    worlds of its two runs of the logic. *)
Fixpoint typing (DEFAULT_NON_SCAM_REPLY HONEYPOT_DEV_API_KEY : string)
    (messages : list (LogicWorld * LogicWorld * string)) (ui : UI) : UI :=
  match messages with
  | [] => ui
  | (w1, w2, text) :: rest =>
      typing DEFAULT_NON_SCAM_REPLY HONEYPOT_DEV_API_KEY rest
        (handleIncomingMessage DEFAULT_NON_SCAM_REPLY HONEYPOT_DEV_API_KEY
           w1 w2 ui text).2
  end.

(** The senders of a conversation in which every message of the
    counterpart is followed by one reply. *)
Fixpoint exchanges (n : nat) : list Sender :=
  match n with
  | 0 => []
  | S n' => exchanges n' ++ [scammer; honeypot]
  end.

Definition is_detection (c : Call) : bool :=
  match c with
  | DetectScamIntent _ _ => true
  | _ => false
  end.

Definition is_submission (c : Call) : bool :=
  match c with
  | Submit _ => true
  | _ => false
  end.

End App.

(** ** Sample traffic for the other endpoints *)
Module Traffic.
Import Http.

(** A request to the tester endpoint with the credential. *)
Definition test_text (text : Js.value) : Request Tester.Body :=
  {| method := "POST"; x_api_key := Some "dev-key";
     body := Some {| Tester.text := text |} |}.

(** A server with its oracle key. *)
Definition configured (run : OracleRun) (random : nat) : Detect.World :=
  {| Detect.GEMINI_API_KEY := Some "server-key";
     Detect.gemini := run;
     Detect.random := random |}.

(** A request to the conversational endpoint with the credential, one
    message and a history of one line. *)
Definition chat (text : string) : Request Detect.Envelope :=
  {| method := "POST"; x_api_key := Some "dev-key";
     body := Some
       {| Detect.sessionId := Some "s1";
          Detect.message :=
            Some {| Honeypot.Message.sender := Some "scammer";
                    Honeypot.Message.text := Some text |};
          Detect.conversationHistory :=
            Some [{| Honeypot.Message.sender := Some "scammer";
                     Honeypot.Message.text := Some "Your account is blocked" |}];
          Detect.metadata := None |} |}.

(** A conversion of non-string parts, for the instances. *)
Definition object_Object (v : Js.value) : string := "[object Object]".

(** An upper-casing for the instances: JavaScript's on a text of ASCII
    letters, as the senders of the instances are. *)
Fixpoint upper (s : string) : string :=
  match s with
  | EmptyString => EmptyString
  | String c rest => String (JsString.upper_ascii c) (upper rest)
  end.

(** An answer of the oracle whose only part is blank. *)
Definition blank_answer : Js.value :=
  Js.VObj
    [("candidates",
      Js.VArr [Js.VObj
        [("content",
          Js.VObj [("parts", Js.VArr [Js.VObj [("text", Js.VStr "   ")]])])]])].

(** A detection that calls the message a lottery scam, and one that does
    not. *)
Definition lottery : App.Detection.t :=
  {| App.Detection.isScam := true;
     App.Detection.scamType := Some "Lottery";
     App.Detection.initialReply := "Oh, what did I win?" |}.

Definition harmless : App.Detection.t :=
  {| App.Detection.isScam := false;
     App.Detection.scamType := None;
     App.Detection.initialReply := EmptyString |}.

(** Services that all answer, with the given detection. *)
Definition services (d : App.Detection.t) : App.LogicWorld :=
  {| App.now_received := 1000;
     App.now_replied := 1001;
     App.detection := App.Resolved d;
     App.agentResponse := App.Resolved "Which bank are you calling from?";
     App.intelligence :=
       App.Resolved
         {| App.bankAccounts := []; App.upiIds := []; App.phishingLinks := [];
            App.phoneNumbers := []; App.suspiciousKeywords := ["prize"] |} |}.

(** Services whose detection fails. *)
Definition down : App.LogicWorld :=
  {| App.now_received := 2000;
     App.now_replied := 2001;
     App.detection := App.Rejected "quota exceeded";
     App.agentResponse := App.Rejected "quota exceeded";
     App.intelligence := App.Rejected "quota exceeded" |}.

(** The window on a new session. *)
Definition window (sessionId : string) : App.UI :=
  {| App.session := App.fresh sessionId; App.isLoading := false;
     App.error := None |}.

End Traffic.

Import Http Honeypot.

(** * Facts about the JavaScript primitives *)
Section StringFacts.
Import JsString.

#[local] Arguments String.append !_ _ / : simpl nomatch.

Lemma prefix_app (p s : string) :
  String.prefix p s = true <-> exists rest, s = p +:+ rest.
Proof.
  revert s; induction p as [|c p IH]; intros [|d s]; simpl.
  - split; [intros _; by exists EmptyString | done].
  - split; [intros _; by exists (String d s) | done].
  - split; [done | intros [rest H]; discriminate H].
  - destruct (ascii_dec c d) as [->|Hne].
    + rewrite IH. split; intros [rest H]; exists rest.
      * by rewrite H.
      * by injection H.
    + split; [done | intros [rest H]; injection H; congruence].
Qed.

Lemma includes_nil (p : string) :
  includes p EmptyString = String.prefix p EmptyString || false.
Proof. reflexivity. Qed.

Lemma includes_cons (p : string) (c : ascii) (s : string) :
  includes p (String c s) = String.prefix p (String c s) || includes p s.
Proof. reflexivity. Qed.

Lemma includes_app (p s : string) :
  includes p s = true <-> exists before after, s = before +:+ p +:+ after.
Proof.
  induction s as [|c s IH].
  - rewrite includes_nil, orb_false_r, prefix_app. split.
    + intros [rest H]. by exists EmptyString, rest.
    + intros [[|b before] [after H]]; [by exists after | discriminate H].
  - rewrite includes_cons, orb_true_iff, prefix_app, IH. split.
    + intros [[rest H] | (before & after & H)].
      * by exists EmptyString, rest.
      * exists (String c before), after. simpl. by rewrite H.
    + intros ([|b before] & after & H).
      * left. by exists after.
      * right. exists before, after. simpl in H. by injection H.
Qed.

Lemma test_includes (alternatives : list string) (s : string) :
  test alternatives s = true <-> exists pat, pat ∈ alternatives /\ includes pat s = true.
Proof.
  unfold test. rewrite existsb_exists. setoid_rewrite list_elem_of_In. naive_solver.
Qed.

Lemma lower_lower_ascii (c : ascii) : lower_ascii (lower_ascii c) = lower_ascii c.
Proof. destruct c as [[] [] [] [] [] [] [] []]; reflexivity. Qed.

(** Lowering a byte of the ASCII range neither makes nor unmakes one of the
    bytes of the two special characters. *)
Lemma lower_ascii_special (c : ascii) :
  Ascii.eqb (lower_ascii c) (ascii_of_nat 196) = Ascii.eqb c (ascii_of_nat 196)
  /\ Ascii.eqb (lower_ascii c) (ascii_of_nat 176) = Ascii.eqb c (ascii_of_nat 176)
  /\ Ascii.eqb (lower_ascii c) (ascii_of_nat 226) = Ascii.eqb c (ascii_of_nat 226)
  /\ Ascii.eqb (lower_ascii c) (ascii_of_nat 132) = Ascii.eqb c (ascii_of_nat 132)
  /\ Ascii.eqb (lower_ascii c) (ascii_of_nat 170) = Ascii.eqb c (ascii_of_nat 170).
Proof. destruct c as [[] [] [] [] [] [] [] []]; by split_and!. Qed.

(** The case of the letters [A-Z] does not matter to [toLowerCase]. *)
Lemma toLowerCase_fold_case (s : string) : toLowerCase (fold_case s) = toLowerCase s.
Proof.
  assert (forall n s, String.length s <= n -> toLowerCase (fold_case s) = toLowerCase s)
    as H; [|by apply (H (String.length s))].
  clear s. induction n as [|n IH]; intros s Hlen.
  - destruct s; [done | simpl in Hlen; lia].
  - destruct s as [|c [|c2 rest2]]; [done | simpl; by rewrite lower_lower_ascii |].
    destruct (lower_ascii_special c) as (H196 & _ & H226 & _ & _).
    destruct (lower_ascii_special c2) as (_ & H176 & _ & H132 & _).
    simpl in Hlen.
    cbn [fold_case].
    change (toLowerCase (String (lower_ascii c) (String (lower_ascii c2) (fold_case rest2))))
      with (if Ascii.eqb (lower_ascii c) (ascii_of_nat 196)
               && Ascii.eqb (lower_ascii c2) (ascii_of_nat 176)
            then String "i"%char (dot_above +:+ toLowerCase (fold_case rest2))
            else
              match fold_case rest2 with
              | EmptyString =>
                  String (lower_ascii (lower_ascii c))
                    (toLowerCase (String (lower_ascii c2) (fold_case rest2)))
              | String c3 rest3 =>
                  if Ascii.eqb (lower_ascii c) (ascii_of_nat 226)
                     && Ascii.eqb (lower_ascii c2) (ascii_of_nat 132)
                     && Ascii.eqb c3 (ascii_of_nat 170)
                  then String "k"%char (toLowerCase rest3)
                  else String (lower_ascii (lower_ascii c))
                         (toLowerCase (String (lower_ascii c2) (fold_case rest2)))
              end).
    change (toLowerCase (String c (String c2 rest2)))
      with (if Ascii.eqb c (ascii_of_nat 196) && Ascii.eqb c2 (ascii_of_nat 176)
            then String "i"%char (dot_above +:+ toLowerCase rest2)
            else
              match rest2 with
              | EmptyString => String (lower_ascii c) (toLowerCase (String c2 rest2))
              | String c3 rest3 =>
                  if Ascii.eqb c (ascii_of_nat 226) && Ascii.eqb c2 (ascii_of_nat 132)
                     && Ascii.eqb c3 (ascii_of_nat 170)
                  then String "k"%char (toLowerCase rest3)
                  else String (lower_ascii c) (toLowerCase (String c2 rest2))
              end).
    rewrite H196, H176, H226, H132, lower_lower_ascii.
    assert (toLowerCase (String (lower_ascii c2) (fold_case rest2))
            = toLowerCase (String c2 rest2)) as Htail
      by (apply (IH (String c2 rest2)); simpl; lia).
    rewrite Htail.
    destruct (Ascii.eqb c (ascii_of_nat 196) && Ascii.eqb c2 (ascii_of_nat 176)).
    + f_equal. f_equal. apply IH. lia.
    + destruct rest2 as [|c3 rest3]; [done |].
      cbn [fold_case].
      destruct (lower_ascii_special c3) as (_ & _ & _ & _ & H170). rewrite H170.
      destruct (_ && _ && _); [|done].
      f_equal. apply IH. simpl in Hlen. lia.
Qed.

(** Texts that differ in the case of letters [A-Z] only have the same
    lower case. *)
Lemma toLowerCase_same_fold (s s' : string) :
  fold_case s = fold_case s' -> toLowerCase s = toLowerCase s'.
Proof. intros H. by rewrite <- (toLowerCase_fold_case s), H, toLowerCase_fold_case. Qed.

End StringFacts.

Section SetFacts.
Import JsSet.

Lemma has_elem_of (x : string) (s : JsSet.t) : has x s = true <-> x ∈ s.
Proof.
  unfold has. rewrite existsb_exists. setoid_rewrite list_elem_of_In.
  split.
  - intros (y & Hy & Heq). apply String.eqb_eq in Heq. by subst.
  - intros Hx. exists x. split; [done | apply String.eqb_refl].
Qed.

Lemma elem_of_add (x y : string) (s : JsSet.t) : y ∈ add x s <-> y = x \/ y ∈ s.
Proof.
  unfold add. destruct (has x s) eqn:Hhas.
  - apply has_elem_of in Hhas. split; [by right | by intros [-> | ?]].
  - rewrite elem_of_app, list_elem_of_singleton. tauto.
Qed.

Lemma add_subseteq (x : string) (s : JsSet.t) : s ⊆ add x s.
Proof. intros y Hy. apply elem_of_add. by right. Qed.


(** [add] keeps the values already present at their positions. *)
Lemma add_prefix (x : string) (s : JsSet.t) : s `prefix_of` add x s.
Proof.
  unfold add. destruct (has x s); [done | by apply prefix_app_r].
Qed.

End SetFacts.

(** * The extraction block *)
Section ExtractionFacts.
Lemma extraction_turns (text : string) (state : Session.t) :
  Session.turns (extraction text state) = Session.turns state.
Proof. unfold extraction. by repeat case_match. Qed.

Lemma extraction_finalized (text : string) (state : Session.t) :
  Session.finalized (extraction text state) = Session.finalized state.
Proof. unfold extraction. by repeat case_match. Qed.

(** The two sets evolve independently of the other fields. *)
Lemma extraction_sets (text : string) (state state' : Session.t) :
  Session.scamIndicators state = Session.scamIndicators state' ->
  Session.requestedData state = Session.requestedData state' ->
  Session.scamIndicators (extraction text state)
    = Session.scamIndicators (extraction text state')
  /\ Session.requestedData (extraction text state)
    = Session.requestedData (extraction text state').
Proof.
  intros Hi Hd. unfold extraction.
  repeat case_match; simpl; rewrite ?Hi, ?Hd; done.
Qed.

Lemma extraction_scamIndicators (text : string) (state : Session.t) (tag : string) :
  tag ∈ Session.scamIndicators (extraction text state)
  <-> tag ∈ Session.scamIndicators state \/ tag ∈ (extract text).1.
Proof.
  unfold extract, extraction.
  repeat case_match; simpl; unfold JsSet.empty;
    rewrite ?elem_of_add, ?elem_of_nil; tauto.
Qed.

Lemma extraction_requestedData (text : string) (state : Session.t) (tag : string) :
  tag ∈ Session.requestedData (extraction text state)
  <-> tag ∈ Session.requestedData state \/ tag ∈ (extract text).2.
Proof.
  unfold extract, extraction.
  repeat case_match; simpl; unfold JsSet.empty;
    rewrite ?elem_of_add, ?elem_of_nil; tauto.
Qed.


Lemma test_mentions (words : list string) (text : string) :
  JsString.test words (JsString.toLowerCase text) = true <-> mentions words text.
Proof.
  rewrite test_includes. unfold mentions. split.
  - intros (word & Hin & Hinc). apply includes_app in Hinc as (before & after & H).
    by exists word, before, after.
  - intros (word & before & after & Hin & H). exists word. split; [done |].
    apply includes_app. by exists before, after.
Qed.

End ExtractionFacts.

(** * One request *)
Section HandlerFacts.
Implicit Types (w : World) (req : Request Envelope.t).
Implicit Types (sessionState : gmap string Session.t) (state : Session.t).
Implicit Types (sid text : string) (md : Metadata.t).

#[local] Arguments Nat.leb : simpl never.

Lemma eqb_empty_false (s : string) : s ≠ EmptyString -> String.eqb s EmptyString = false.
Proof. intros H. by apply String.eqb_neq. Qed.

(** The processed requests are the ones the gateway lets in. *)
Lemma gateway_processed req sid text md :
  processed req = Some (sid, text, md) <-> gateway req = Let_in sid text md.
Proof.
  unfold processed, gateway.
  destruct (x_api_key req) as [key|]; simpl; [|done].
  destruct (body req) as [envelope|];
    [|by destruct (String.eqb key EmptyString), (String.eqb key "dev-key")].
  destruct (Envelope.sessionId envelope) as [sid'|];
    [|by destruct (String.eqb key EmptyString), (String.eqb key "dev-key")].
  destruct (Envelope.message envelope ≫= Message.text) as [text'|];
    [|by destruct (String.eqb key EmptyString), (String.eqb key "dev-key")].
  case_bool_decide as Hok.
  - destruct Hok as (-> & Hsid & Htext). simpl.
    rewrite (eqb_empty_false _ Hsid), (eqb_empty_false _ Htext). simpl.
    split; by intros [= -> -> ->].
  - split; [done |].
    destruct (String.eqb_spec key EmptyString) as [-> | Hkey]; [done |].
    destruct (String.eqb_spec key "dev-key") as [-> | Hdev]; [|done]. simpl.
    destruct (String.eqb_spec sid' EmptyString) as [-> | Hsid]; [done |].
    destruct (String.eqb_spec text' EmptyString) as [-> | Htext]; [done |].
    by destruct Hok.
Qed.

Lemma gateway_not_processed req :
  processed req = None ->
  gateway req = Throws \/ exists r, gateway req = Turned_away r.
Proof.
  intros Hp. destruct (gateway req) as [r | | sid text md] eqn:Hg; [eauto.. |].
  apply gateway_processed in Hg. congruence.
Qed.

(** A processed request runs the engine. *)
Lemma handler_processed w sessionState req sid text md :
  processed req = Some (sid, text, md) ->
  handler w sessionState req = converse w sessionState sid text md.
Proof. intros Hp. apply gateway_processed in Hp. unfold handler. by rewrite Hp. Qed.

(** Any other request leaves the store alone and calls nobody. *)
Lemma handler_not_processed w sessionState req :
  processed req = None ->
  store (handler w sessionState req) = sessionState
  /\ trace (handler w sessionState req) = [].
Proof.
  intros Hp. unfold handler.
  by destruct (gateway_not_processed req Hp) as [-> | [r ->]].
Qed.

Lemma builtin_false sid sessionState :
  builtin sid sessionState = false
  <-> is_Some (sessionState !! sid) \/ Js.inherited sid = false.
Proof.
  unfold builtin. rewrite andb_false_iff, bool_decide_eq_false.
  rewrite <- not_eq_None_Some. done.
Qed.

Lemma builtin_stored sid sessionState state :
  sessionState !! sid = Some state -> builtin sid sessionState = false.
Proof. intros H. apply builtin_false. left. by eexists. Qed.

Lemma builtin_own_name sid sessionState :
  Js.inherited sid = false -> builtin sid sessionState = false.
Proof. intros H. apply builtin_false. by right. Qed.

Lemma builtin_true sid sessionState :
  builtin sid sessionState = true
  <-> sessionState !! sid = None /\ Js.inherited sid = true.
Proof.
  unfold builtin. rewrite andb_true_iff, bool_decide_eq_true. done.
Qed.

Lemma finalization_advance (resolves : bool) sid md state :
  (finalization resolves sid md state).1
  = if (4 <=? Session.turns state)%nat && negb (Session.finalized state)
    then Session.set_finalized true state else state.
Proof. unfold finalization. by case_match. Qed.

Lemma finalization_callback (resolves : bool) sid md state :
  (finalization resolves sid md state).2
  = if (4 <=? Session.turns state)%nat && negb (Session.finalized state)
    then [GuviCallback (intelligencePayload sid md (Session.set_finalized true state))]
    else [].
Proof. unfold finalization. case_match; [by destruct resolves | done]. Qed.

(** The first part of a processed request, on a session of the store or a
    new one. *)
Lemma receive_session sessionState sid text :
  builtin sid sessionState = false ->
  receive sessionState sid text
  = Some (<[sid := counted text (sessionState !! sid)]> sessionState,
          baseReply (Session.turns (counted text (sessionState !! sid)))).
Proof.
  intros Hb. unfold receive, init, counted.
  destruct (sessionState !! sid) as [state|] eqn:Hst.
  - by rewrite Hst.
  - apply builtin_false in Hb as [[? ?] | Hin]; [congruence |].
    rewrite Hin, lookup_insert_eq. simpl. by rewrite insert_insert_eq.
Qed.

(** The first part of a processed request whose id names a built-in. *)
Lemma receive_builtin sessionState sid text :
  builtin sid sessionState = true ->
  receive sessionState sid text
  = if adds_a_tag text then None else Some (sessionState, baseReply_NaN).
Proof.
  intros [Hst Hin]%builtin_true. unfold receive, init. by rewrite Hst, Hin, Hst.
Qed.

Lemma finalize_session (resolves : bool) sessionState sid md state :
  sessionState !! sid = Some state ->
  finalize resolves sid md sessionState
  = (<[sid := (finalization resolves sid md state).1]> sessionState,
     (finalization resolves sid md state).2).
Proof.
  intros Hst. unfold finalize. rewrite Hst.
  by destruct (finalization resolves sid md state).
Qed.

Lemma finalize_nothing (resolves : bool) sessionState sid md :
  sessionState !! sid = None ->
  finalize resolves sid md sessionState = (sessionState, []).
Proof. intros Hst. unfold finalize. by rewrite Hst. Qed.

Lemma converse_unfold w sessionState sid text md :
  builtin sid sessionState = false ->
  let state := counted text (sessionState !! sid) in
  converse w sessionState sid text md
  = respond (<[sid := advance text (default newSession (sessionState !! sid))]> sessionState)
      (GeminiRequest (geminiPrompt (baseReply (Session.turns state)))
         :: (finalization (guvi_resolves w) sid md state).2)
      200
      [("status", Js.VStr "success");
       ("reply", Js.or (generateGeminiReply (gemini w))
                       (Js.VStr (baseReply (Session.turns state))))].
Proof.
  intros Hb state. unfold converse. rewrite (receive_session _ _ _ Hb). fold state.
  rewrite (finalize_session _ _ _ _ state) by apply lookup_insert_eq.
  rewrite insert_insert_eq, finalization_advance. done.
Qed.

(** A processed request whose id names a built-in: it throws when a rule
    matches its text, and else is answered from the last baseline, without
    a trace in the store. *)
Lemma converse_builtin w sessionState sid text md :
  builtin sid sessionState = true ->
  converse w sessionState sid text md
  = if adds_a_tag text
    then {| store := sessionState; trace := []; outcome := Uncaught |}
    else respond sessionState [GeminiRequest (geminiPrompt baseReply_NaN)] 200
           [("status", Js.VStr "success");
            ("reply", Js.or (generateGeminiReply (gemini w)) (Js.VStr baseReply_NaN))].
Proof.
  intros Hb. unfold converse. rewrite (receive_builtin _ _ _ Hb).
  destruct (adds_a_tag text); [done |].
  apply builtin_true in Hb as [Hst _]. by rewrite (finalize_nothing _ _ _ _ Hst).
Qed.

Lemma converse_store w sessionState sid text md :
  store (converse w sessionState sid text md)
  = if builtin sid sessionState then sessionState
    else <[sid := advance text (default newSession (sessionState !! sid))]> sessionState.
Proof.
  destruct (builtin sid sessionState) eqn:Hb.
  - rewrite (converse_builtin _ _ _ _ _ Hb). by destruct (adds_a_tag text).
  - by rewrite (converse_unfold _ _ _ _ _ Hb).
Qed.

Lemma advance_turns text state :
  Session.turns (advance text state) = Session.turns state + 1.
Proof.
  unfold advance. case_match; simpl; by rewrite extraction_turns.
Qed.

Lemma advance_finalized text state :
  Session.finalized (advance text state)
  = (4 <=? Session.turns state + 1)%nat || Session.finalized state.
Proof.
  unfold advance. rewrite extraction_turns, extraction_finalized. simpl.
  destruct (4 <=? Session.turns state + 1)%nat;
    destruct (Session.finalized state) eqn:Hf;
    simpl; rewrite ?extraction_finalized; simpl; by rewrite ?Hf.
Qed.

Lemma advance_scamIndicators text state :
  Session.scamIndicators (advance text state)
  = Session.scamIndicators (extraction text state).
Proof.
  unfold advance.
  destruct (extraction_sets text (Session.set_turns (Session.turns state + 1) state) state)
    as [Hi _]; [done.. |].
  case_match; simpl; exact Hi.
Qed.

Lemma advance_requestedData text state :
  Session.requestedData (advance text state)
  = Session.requestedData (extraction text state).
Proof.
  unfold advance.
  destruct (extraction_sets text (Session.set_turns (Session.turns state + 1) state) state)
    as [_ Hd]; [done.. |].
  case_match; simpl; exact Hd.
Qed.

(** A rule matches exactly when the extractor finds a tag. *)
Lemma adds_a_tag_extract text :
  adds_a_tag text = false <-> extract text = ([], []).
Proof.
  unfold adds_a_tag, extract, extraction.
  repeat match goal with
         | |- context [JsString.test ?words ?lower] =>
             destruct (JsString.test words lower)
         end; by cbn.
Qed.

End HandlerFacts.

(** * Requests in sequence *)
Section ServeFacts.
Implicit Types (w : World) (req : Request Envelope.t).
Implicit Types (arrivals : list (World * Request Envelope.t)).
Implicit Types (sessionState : gmap string Session.t) (state : Session.t).
Implicit Types (sid text : string) (md : Metadata.t) (texts : list string).

#[local] Arguments Nat.leb : simpl never.

Lemma session_eq state state' :
  Session.turns state = Session.turns state' ->
  Session.scamIndicators state = Session.scamIndicators state' ->
  Session.requestedData state = Session.requestedData state' ->
  Session.finalized state = Session.finalized state' ->
  state = state'.
Proof. destruct state, state'; simpl; congruence. Qed.

(** What one request does to the entry of any id. *)
Lemma handler_lookup_any w sessionState req sid :
  store (handler w sessionState req) !! sid
  = match processed req with
    | Some (sid', text, _) =>
        if bool_decide (sid' = sid) && negb (builtin sid sessionState)
        then Some (advance text (default newSession (sessionState !! sid)))
        else sessionState !! sid
    | None => sessionState !! sid
    end.
Proof.
  destruct (processed req) as [[[sid' text] md]|] eqn:Hp.
  - rewrite (handler_processed _ _ _ _ _ _ Hp), converse_store.
    case_bool_decide as Hsid; simpl.
    + subst. destruct (builtin sid sessionState); [done | apply lookup_insert_eq].
    + destruct (builtin sid' sessionState); [done | by apply lookup_insert_ne].
  - by destruct (handler_not_processed w sessionState req Hp) as [-> _].
Qed.

Lemma handler_lookup w sessionState req sid :
  builtin sid sessionState = false ->
  store (handler w sessionState req) !! sid
  = match processed req with
    | Some (sid', text, _) =>
        if bool_decide (sid' = sid)
        then Some (advance text (default newSession (sessionState !! sid)))
        else sessionState !! sid
    | None => sessionState !! sid
    end.
Proof.
  intros Hb. rewrite handler_lookup_any, Hb.
  destruct (processed req) as [[[sid' text] md]|]; [|done]. by rewrite andb_true_r.
Qed.

(** An id that names a built-in never gets an entry. *)
Lemma handler_lookup_builtin w sessionState req sid :
  builtin sid sessionState = true ->
  store (handler w sessionState req) !! sid = None.
Proof.
  intros Hb. rewrite handler_lookup_any, Hb.
  apply builtin_true in Hb as [Hst _].
  destruct (processed req) as [[[sid' text] md]|]; [|done]. by rewrite andb_false_r.
Qed.

Lemma handler_builtin w sessionState req sid :
  builtin sid (store (handler w sessionState req)) = builtin sid sessionState.
Proof.
  destruct (builtin sid sessionState) eqn:Hb.
  - apply builtin_true. split; [by apply handler_lookup_builtin |].
    by apply builtin_true in Hb as [_ ?].
  - apply builtin_false. apply builtin_false in Hb as [[state Hst] | Hin]; [|by right].
    left. rewrite handler_lookup by by eapply builtin_stored. rewrite Hst.
    destruct (processed req) as [[[sid' text] md]|]; [case_bool_decide|]; by eexists.
Qed.

Lemma serve_builtin arrivals : forall sessionState sid,
  builtin sid (final (serve arrivals sessionState)) = builtin sid sessionState.
Proof.
  induction arrivals as [|[w req] arrivals IH]; intros sessionState sid; [done |].
  simpl. by rewrite IH, handler_builtin.
Qed.

(** The callbacks one request sends for any id. *)
Lemma handler_callbacks_any w sessionState req sid :
  callbacks_for sid (trace (handler w sessionState req))
  = match processed req with
    | Some (sid', text, md) =>
        let state := counted text (sessionState !! sid) in
        if bool_decide (sid' = sid) && negb (builtin sid sessionState)
           && ((4 <=? Session.turns state)%nat && negb (Session.finalized state))
        then [intelligencePayload sid md (Session.set_finalized true state)]
        else []
    | None => []
    end.
Proof.
  destruct (processed req) as [[[sid' text] md]|] eqn:Hp.
  - rewrite (handler_processed _ _ _ _ _ _ Hp).
    destruct (builtin sid' sessionState) eqn:Hb.
    + rewrite (converse_builtin _ _ _ _ _ Hb). simpl.
      case_bool_decide as Hsid; [subst; rewrite Hb|]; simpl; by destruct (adds_a_tag text).
    + rewrite (converse_unfold _ _ _ _ _ Hb).
      unfold respond, callbacks_for; simpl. rewrite finalization_callback.
      case_bool_decide as Hsid.
      * subst sid'. rewrite Hb. simpl.
        case_match; simpl; [by rewrite bool_decide_true | done].
      * simpl. case_match; simpl; [by rewrite bool_decide_false | done].
  - by destruct (handler_not_processed w sessionState req Hp) as [_ ->].
Qed.

Lemma handler_callbacks w sessionState req sid :
  builtin sid sessionState = false ->
  callbacks_for sid (trace (handler w sessionState req))
  = match processed req with
    | Some (sid', text, md) =>
        let state := counted text (sessionState !! sid) in
        if bool_decide (sid' = sid)
           && ((4 <=? Session.turns state)%nat && negb (Session.finalized state))
        then [intelligencePayload sid md (Session.set_finalized true state)]
        else []
    | None => []
    end.
Proof.
  intros Hb. rewrite handler_callbacks_any, Hb.
  destruct (processed req) as [[[sid' text] md]|]; [|done]. simpl.
  by rewrite andb_true_r.
Qed.

Lemma handler_callbacks_builtin w sessionState req sid :
  builtin sid sessionState = true ->
  callbacks_for sid (trace (handler w sessionState req)) = [].
Proof.
  intros Hb. rewrite handler_callbacks_any, Hb.
  destruct (processed req) as [[[sid' text] md]|]; [|done]. simpl.
  by rewrite andb_false_r.
Qed.

Lemma callbacks_for_app sid (events events' : list Event) :
  callbacks_for sid (events ++ events')
  = callbacks_for sid events ++ callbacks_for sid events'.
Proof. apply omap_app. Qed.

Lemma texts_for_cons sid w req arrivals :
  texts_for sid ((w, req) :: arrivals)
  = match processed req with
    | Some (sid', text, _) =>
        if bool_decide (sid' = sid) then text :: texts_for sid arrivals
        else texts_for sid arrivals
    | None => texts_for sid arrivals
    end.
Proof.
  unfold texts_for; simpl.
  destruct (processed req) as [[[sid' text] md]|]; [|done]. by case_bool_decide.
Qed.

Lemma texts_for_app sid arrivals arrivals' :
  texts_for sid (arrivals ++ arrivals')
  = texts_for sid arrivals ++ texts_for sid arrivals'.
Proof. apply omap_app. Qed.

Lemma leb_succ_absorb (k n : nat) :
  (k <=? n + 1)%nat || (k <=? n)%nat = (k <=? n + 1)%nat.
Proof.
  destruct (k <=? n + 1)%nat eqn:H1; [done |]. simpl.
  apply Nat.leb_gt in H1. apply Nat.leb_gt. lia.
Qed.

Lemma session_after_snoc texts text :
  advance text (default newSession (session_of texts)) = session_after (texts ++ [text]).
Proof.
  apply session_eq.
  - rewrite advance_turns. unfold session_after; simpl. rewrite length_app; simpl.
    by destruct texts.
  - rewrite advance_scamIndicators. unfold session_after; simpl. rewrite foldl_snoc.
    apply extraction_sets; by destruct texts.
  - rewrite advance_requestedData. unfold session_after; simpl. rewrite foldl_snoc.
    apply extraction_sets; by destruct texts.
  - rewrite advance_finalized. unfold session_after; simpl. rewrite length_app; simpl.
    replace (Session.finalized (default newSession (session_of texts)))
      with (4 <=? length texts)%nat by by destruct texts.
    replace (Session.turns (default newSession (session_of texts)))
      with (length texts) by by destruct texts.
    apply leb_succ_absorb.
Qed.

Lemma session_of_snoc texts text :
  Some (session_after (texts ++ [text])) = session_of (texts ++ [text]).
Proof. by destruct texts. Qed.

(** The store entry of a session is determined by its processed texts. *)
Lemma final_serve_from sid arrivals : forall sessionState texts,
  Js.inherited sid = false ->
  sessionState !! sid = session_of texts ->
  final (serve arrivals sessionState) !! sid
  = session_of (texts ++ texts_for sid arrivals).
Proof.
  induction arrivals as [|[w req] arrivals IH]; intros sessionState texts Hown Hst.
  - simpl. by rewrite app_nil_r.
  - rewrite texts_for_cons. simpl.
    pose proof (handler_lookup w sessionState req sid (builtin_own_name _ _ Hown)) as Hl.
    destruct (processed req) as [[[sid' text] md]|]; [case_bool_decide|].
    + rewrite Hst, session_after_snoc, session_of_snoc in Hl.
      rewrite (IH _ _ Hown Hl). by rewrite <- app_assoc.
    + rewrite Hst in Hl. by apply IH.
    + rewrite Hst in Hl. by apply IH.
Qed.


Lemma final_serve sid arrivals :
  Js.inherited sid = false ->
  final (serve arrivals ∅) !! sid = session_of (texts_for sid arrivals).
Proof. intros Hown. by apply (final_serve_from sid arrivals ∅ []). Qed.

(** From the empty store no inherited name is ever an entry. *)
Lemma final_serve_inherited sid arrivals :
  Js.inherited sid = true -> final (serve arrivals ∅) !! sid = None.
Proof.
  intros Hin.
  assert (builtin sid (final (serve arrivals ∅)) = true) as Hb.
  { rewrite serve_builtin. by apply builtin_true. }
  by apply builtin_true in Hb as [? _].
Qed.

Lemma counted_turns text texts :
  Session.turns (counted text (session_of texts)) = length texts + 1.
Proof.
  unfold counted. rewrite extraction_turns. simpl. by destruct texts.
Qed.

Lemma counted_finalized text texts :
  Session.finalized (counted text (session_of texts)) = (4 <=? length texts)%nat.
Proof.
  unfold counted. rewrite extraction_finalized. simpl. by destruct texts.
Qed.

(** The callback goes out with the fourth processed text, and only then. *)
Lemma handler_callbacks_after w req sid texts sessionState :
  Js.inherited sid = false ->
  sessionState !! sid = session_of texts ->
  callbacks_for sid (trace (handler w sessionState req))
  = match processed req with
    | Some (sid', text, md) =>
        if bool_decide (sid' = sid) && (length texts =? 3)%nat
        then [intelligencePayload sid md (session_after (texts ++ [text]))]
        else []
    | None => []
    end.
Proof.
  intros Hown Hst. rewrite handler_callbacks by by apply builtin_own_name.
  destruct (processed req) as [[[sid' text] md]|]; [|done]. simpl.
  rewrite Hst, counted_turns, counted_finalized.
  case_bool_decide as Hsid; [|done]. simpl.
  destruct (length texts =? 3)%nat eqn:H3.
  - apply Nat.eqb_eq in H3. rewrite H3. simpl.
    do 2 f_equal. rewrite <- session_after_snoc. unfold advance.
    fold (counted text (session_of texts)).
    by rewrite counted_turns, counted_finalized, H3.
  - apply Nat.eqb_neq in H3.
    destruct (4 <=? length texts + 1)%nat eqn:H4; [|done].
    destruct (4 <=? length texts)%nat eqn:H4'; [done |].
    apply Nat.leb_le in H4. apply Nat.leb_gt in H4'. lia.
Qed.

Lemma threshold_count (n m : nat) :
  (if (n =? 3)%nat then 1 else 0)
  + (Nat.b2n (4 <=? n + 1 + m)%nat - Nat.b2n (4 <=? n + 1)%nat)
  = Nat.b2n (4 <=? n + S m)%nat - Nat.b2n (4 <=? n)%nat.
Proof.
  destruct (Nat.eqb_spec n 3);
    repeat match goal with
           | |- context [(?a <=? ?b)%nat] => destruct (Nat.leb_spec a b)
           end; simpl; lia.
Qed.

Lemma callbacks_serve_from sid arrivals : forall sessionState texts,
  Js.inherited sid = false ->
  sessionState !! sid = session_of texts ->
  length (callbacks_for sid (calls (serve arrivals sessionState)))
  = Nat.b2n (4 <=? length texts + length (texts_for sid arrivals))%nat
    - Nat.b2n (4 <=? length texts)%nat.
Proof.
  induction arrivals as [|[w req] arrivals IH]; intros sessionState texts Hown Hst.
  - simpl. rewrite Nat.add_0_r. lia.
  - rewrite texts_for_cons. simpl. rewrite callbacks_for_app, length_app.
    rewrite (handler_callbacks_after _ _ _ _ _ Hown Hst).
    pose proof (handler_lookup w sessionState req sid (builtin_own_name _ _ Hown)) as Hl.
    destruct (processed req) as [[[sid' text] md]|]; [case_bool_decide|].
    + rewrite Hst, session_after_snoc, session_of_snoc in Hl.
      rewrite (IH _ _ Hown Hl), length_app. simpl.
      rewrite <- threshold_count. f_equal. by case_match.
    + rewrite Hst in Hl. simpl. by apply IH.
    + rewrite Hst in Hl. simpl. by apply IH.
Qed.

(** While an id names a built-in no callback is sent for it. *)
Lemma callbacks_serve_builtin sid arrivals : forall sessionState,
  builtin sid sessionState = true ->
  callbacks_for sid (calls (serve arrivals sessionState)) = [].
Proof.
  induction arrivals as [|[w req] arrivals IH]; intros sessionState Hb; [done |].
  simpl. rewrite callbacks_for_app, (handler_callbacks_builtin _ _ _ _ Hb). simpl.
  apply IH. by rewrite handler_builtin.
Qed.

End ServeFacts.

(** * Requests that overlap *)
Section Overlap.
Implicit Types (w : World) (req : Request Envelope.t) (s : Server) (a : Action).
Implicit Types (actions : list Action) (r : Waiting) (ticket : nat).
Implicit Types (arrivals : list (World * Request Envelope.t)).
Implicit Types (sessionState : gmap string Session.t) (state : Session.t).
Implicit Types (sid text : string) (md : Metadata.t) (p : Payload.t).

#[local] Arguments Nat.leb : simpl never.

Lemma callbacks_for_snoc_prompt sid (events : list Event) prompt :
  callbacks_for sid (events ++ [GeminiRequest prompt]) = callbacks_for sid events.
Proof. rewrite callbacks_for_app. simpl. by rewrite app_nil_r. Qed.

Lemma callbacks_for_snoc_own sid (events : list Event) p :
  Payload.sessionId p = sid ->
  callbacks_for sid (events ++ [GuviCallback p]) = callbacks_for sid events ++ [p].
Proof.
  intros Hp. rewrite callbacks_for_app. unfold callbacks_for at 3. simpl.
  by rewrite bool_decide_true.
Qed.

Lemma callbacks_for_snoc_other sid (events : list Event) p :
  Payload.sessionId p ≠ sid ->
  callbacks_for sid (events ++ [GuviCallback p]) = callbacks_for sid events.
Proof.
  intros Hp. rewrite callbacks_for_app. unfold callbacks_for at 3. simpl.
  rewrite bool_decide_false by done. by rewrite app_nil_r.
Qed.

(** The guarded block, by cases. *)
Lemma finalize_cases (resolves : bool) sessionState sid md :
  (exists state,
     sessionState !! sid = Some state
     /\ 4 <= Session.turns state /\ Session.finalized state = false
     /\ finalize resolves sid md sessionState
        = (<[sid := Session.set_finalized true state]> sessionState,
           [GuviCallback (intelligencePayload sid md (Session.set_finalized true state))]))
  \/ ((forall state, sessionState !! sid = Some state ->
         Session.turns state < 4 \/ Session.finalized state = true)
      /\ finalize resolves sid md sessionState = (sessionState, [])).
Proof.
  destruct (sessionState !! sid) as [state|] eqn:Hst.
  - rewrite (finalize_session _ _ _ _ _ Hst), finalization_advance, finalization_callback.
    destruct (Nat.leb_spec 4 (Session.turns state)) as [H4 | H4]; simpl.
    + destruct (Session.finalized state) eqn:Hfin; simpl.
      * right. split; [intros ? [= <-]; by right |]. by rewrite insert_id.
      * left. by exists state.
    + right. split; [intros ? [= <-]; by left |]. by rewrite insert_id.
  - right. split; [done |]. by apply finalize_nothing.
Qed.

(** What a step adds to the log. *)
Lemma step_log s a : log (step s a) = log s ++ sent_by a s.
Proof.
  unfold sent_by.
  assert (exists more, log (step s a) = log s ++ more) as [more ->];
    [|by rewrite drop_app_length].
  destruct a as [w req | ticket]; simpl.
  - unfold arrive. destruct (gateway req) as [resp | | sid text md]; simpl;
      try (exists []; by rewrite app_nil_r).
    destruct (receive (sessions s) sid text) as [[sessionState base]|]; simpl;
      [by eexists | exists []; by rewrite app_nil_r].
  - unfold settle. destruct (waiting s !! ticket) as [r|]; [|exists []; by rewrite app_nil_r].
    destruct (w_reply r); simpl; [exists []; by rewrite app_nil_r |].
    destruct (finalize _ _ _ _) as [sessionState [|e callback]]; simpl;
      [exists []; by rewrite app_nil_r | by eexists].
Qed.

Lemma run_snoc actions a s : run (actions ++ [a]) s = step (run actions s) a.
Proof. unfold run. by rewrite foldl_snoc. Qed.

Lemma run_app actions actions' s : run (actions ++ actions') s = run actions' (run actions s).
Proof. unfold run. by rewrite foldl_app. Qed.

Lemma consistent_boot : consistent boot.
Proof.
  split_and!.
  - intros ticket [r Hr]. by destruct (lookup_empty_Some (M:=gmap nat) ticket r).
  - intros sid state Hst. by destruct (lookup_empty_Some (M:=gmap string) sid state).
  - done.
Qed.

Lemma busy_kept sid s s' :
  (forall ticket r, waiting s !! ticket = Some r -> w_sessionId r = sid ->
                    w_reply r = None -> waiting s' !! ticket = Some r) ->
  busy sid s -> busy sid s'.
Proof. intros Hkeep (ticket & r & Hr & Hsid & Hreply). exists ticket, r. eauto. Qed.

(** An answer given to a request that no stored session is busy with. *)
Lemma consistent_answer ticket (o : Outcome) s n :
  consistent s -> arrived s <= n ->
  (forall r sid state, waiting s !! ticket = Some r -> w_reply r = None ->
                       w_sessionId r = sid -> sessions s !! sid = Some state ->
                       Session.turns state < 4 \/ Session.finalized state = true) ->
  consistent {| sessions := sessions s; waiting := delete ticket (waiting s);
                arrived := n; log := log s; answers := <[ticket := o]> (answers s) |}.
Proof.
  intros (Hw & Hs & Hn) Hle Hfree. split_and!; simpl.
  - intros k [r Hr]. apply lookup_delete_Some in Hr as [_ Hr].
    specialize (Hw k (ltac:(by eexists))). lia.
  - intros sid state Hst. destruct (Hs sid state Hst) as (Hown & Hlen & Hfin & Hbusy).
    split_and!; [done.. |]. intros H4 Hnot.
    destruct (Hbusy H4 Hnot) as (k & r & Hr & Hsid & Hreply).
    exists k, r. split_and!; [|done..]. simpl.
    apply lookup_delete_Some. split; [|done]. intros <-.
    destruct (Hfree r sid state Hr Hreply Hsid Hst) as [Hlt | Hf]; [lia | congruence].
  - done.
Qed.

Lemma consistent_arrive w req s : consistent s -> consistent (arrive w req s).
Proof.
  intros Hc. pose proof Hc as (Hw & Hs & Hn).
  assert (waiting s !! arrived s = None) as Hfresh.
  { destruct (waiting s !! arrived s) as [r|] eqn:Hr; [|done].
    specialize (Hw (arrived s) (ltac:(by eexists))). lia. }
  assert (forall o, consistent (answer (arrived s) o (sessions s)
                      {| sessions := sessions s; waiting := waiting s;
                         arrived := S (arrived s); log := log s;
                         answers := answers s |})) as Hanswer.
  { intros o. apply (consistent_answer (arrived s) o s (S (arrived s)) Hc); [lia |].
    intros r sid state Hr. congruence. }
  unfold arrive. destruct (gateway req) as [resp | | sid text md]; [done.. |].
  destruct (builtin sid (sessions s)) eqn:Hb.
  - rewrite (receive_builtin _ _ _ Hb). destruct (adds_a_tag text); [done |].
    split_and!; simpl.
    + intros k [r Hr]. destruct (decide (k = arrived s)) as [-> | Hne]; [lia |].
      rewrite lookup_insert_ne in Hr by done.
      specialize (Hw k (ltac:(by eexists))). lia.
    + intros sid' state Hst. destruct (Hs sid' state Hst) as (Hown & Hlen & Hfin & Hbusy).
      rewrite callbacks_for_snoc_prompt. split_and!; [done.. |]. intros H4 Hnot.
      apply (busy_kept sid' s); [|by apply Hbusy]. simpl.
      intros k r Hr _ _. rewrite lookup_insert_ne; [done |]. congruence.
    + intros sid' Hst. rewrite callbacks_for_snoc_prompt. by apply Hn.
  - rewrite (receive_session _ _ _ Hb). split_and!; simpl.
    + intros k [r Hr]. destruct (decide (k = arrived s)) as [-> | Hne]; [lia |].
      rewrite lookup_insert_ne in Hr by done.
      specialize (Hw k (ltac:(by eexists))). lia.
    + intros sid' state. rewrite callbacks_for_snoc_prompt.
      destruct (decide (sid' = sid)) as [-> | Hne].
      * rewrite lookup_insert_eq. intros [= <-].
        unfold counted. rewrite extraction_finalized, extraction_turns. simpl.
        destruct (sessions s !! sid) as [old|] eqn:Hold; simpl.
        -- destruct (Hs sid old Hold) as (Hown & Hlen & Hfin & _).
           split_and!; [done | done | intros Hf; specialize (Hfin Hf); lia |].
           intros _ _. exists (arrived s). eexists.
           split; [simpl; apply lookup_insert_eq | done].
        -- apply builtin_false in Hb as [[? ?] | Hown]; [congruence |].
           rewrite (Hn sid Hold). split_and!; [done | done | done |].
           intros _ _. exists (arrived s). eexists.
           split; [simpl; apply lookup_insert_eq | done].
      * rewrite lookup_insert_ne by done. intros Hst.
        destruct (Hs sid' state Hst) as (Hown & Hlen & Hfin & Hbusy).
        split_and!; [done.. |]. intros H4 Hnot.
        apply (busy_kept sid' s); [|by apply Hbusy]. simpl.
        intros k r Hr _ _. rewrite lookup_insert_ne; [done |]. congruence.
    + intros sid' Hst. rewrite callbacks_for_snoc_prompt.
      destruct (decide (sid' = sid)) as [-> | Hne];
        [by rewrite lookup_insert_eq in Hst |].
      rewrite lookup_insert_ne in Hst by done. by apply Hn.
Qed.

Lemma consistent_settle ticket s : consistent s -> consistent (settle ticket s).
Proof.
  intros Hc. pose proof Hc as (Hw & Hs & Hn).
  unfold settle. destruct (waiting s !! ticket) as [r|] eqn:Hr; [|done].
  destruct (w_reply r) as [reply|] eqn:Hreply.
  { apply (consistent_answer ticket _ s (arrived s) Hc); [lia |].
    intros r' sid state Hr'. congruence. }
  destruct (finalize_cases (guvi_resolves (w_world r)) (sessions s)
              (w_sessionId r) (w_metadata r))
    as [(state & Hst & H4 & Hnot & ->) | [Hdone ->]].
  - destruct (Hs _ _ Hst) as (Hown & Hlen & _ & _). rewrite Hnot in Hlen.
    split_and!; simpl.
    + intros k [r' Hr']. destruct (decide (k = ticket)) as [-> | Hne].
      * apply Hw. by eexists.
      * rewrite lookup_insert_ne in Hr' by done. apply Hw. by eexists.
    + intros sid' state'. destruct (decide (sid' = w_sessionId r)) as [-> | Hne].
      * rewrite lookup_insert_eq. intros [= <-]. simpl.
        rewrite callbacks_for_snoc_own by done. rewrite length_app, Hlen. simpl.
        split_and!; [done.. |]. congruence.
      * rewrite lookup_insert_ne by done. intros Hst'.
        destruct (Hs sid' state' Hst') as (Hown' & Hlen' & Hfin' & Hbusy').
        rewrite callbacks_for_snoc_other by (simpl; congruence).
        split_and!; [done.. |]. intros H4' Hnot'.
        apply (busy_kept sid' s); [|by apply Hbusy']. simpl.
        intros k r' Hr' Hsid _. rewrite lookup_insert_ne; [done |]. congruence.
    + intros sid' Hst'. destruct (decide (sid' = w_sessionId r)) as [-> | Hne];
        [by rewrite lookup_insert_eq in Hst' |].
      rewrite lookup_insert_ne in Hst' by done.
      rewrite callbacks_for_snoc_other by (simpl; congruence). by apply Hn.
  - apply (consistent_answer ticket _ s (arrived s) Hc); [lia |].
    intros r' sid state Hr' _ <- Hst. apply (Hdone state). congruence.
Qed.

Lemma consistent_step s a : consistent s -> consistent (step s a).
Proof. destruct a; [apply consistent_arrive | apply consistent_settle]. Qed.

Lemma consistent_run actions : forall s, consistent s -> consistent (run actions s).
Proof.
  induction actions as [|a actions IH]; intros s Hc; [done |].
  apply IH. by apply consistent_step.
Qed.

End Overlap.

Section Schedules.
Implicit Types (w : World) (req : Request Envelope.t) (s : Server) (a : Action).
Implicit Types (actions : list Action) (r : Waiting) (ticket : nat).
Implicit Types (arrivals : list (World * Request Envelope.t)).
Implicit Types (sessionState : gmap string Session.t) (state : Session.t).
Implicit Types (sid text : string) (md : Metadata.t) (p : Payload.t).

#[local] Arguments Nat.leb : simpl never.

(** One request that arrives at a server on which nothing waits, and is
    left to go on until its response, does what [handler] does. *)
Lemma run_alone w req s :
  waiting s = ∅ ->
  run [Arrive w req; Settle (arrived s); Settle (arrived s)] s
  = {| sessions := store (handler w (sessions s) req);
       waiting := ∅;
       arrived := S (arrived s);
       log := log s ++ trace (handler w (sessions s) req);
       answers := <[arrived s := outcome (handler w (sessions s) req)]> (answers s) |}.
Proof.
  intros Hw. unfold run. simpl. unfold arrive, handler.
  destruct (gateway req) as [resp | | sid text md].
  - unfold settle, answer. simpl. rewrite Hw, delete_empty, lookup_empty.
    by rewrite app_nil_r.
  - unfold settle, answer. simpl. rewrite Hw, delete_empty, lookup_empty.
    by rewrite app_nil_r.
  - unfold converse. simpl.
    destruct (receive (sessions s) sid text) as [[sessionState base]|].
    + unfold settle at 2. simpl. rewrite lookup_insert_eq. simpl.
      destruct (finalize (guvi_resolves w) sid md sessionState) as [sessionState' [|e callback]].
      * unfold settle, answer. simpl.
        rewrite Hw, delete_insert_eq, delete_empty, lookup_empty. done.
      * unfold settle, answer. simpl. rewrite lookup_insert_eq. simpl.
        rewrite Hw, insert_insert_eq, delete_insert_eq, delete_empty.
        by rewrite <- app_assoc.
    + unfold settle, answer. simpl. rewrite Hw, delete_empty, lookup_empty.
      by rewrite app_nil_r.
Qed.

(** Requests that do not overlap: the server goes through the stores and
    the calls of [serve]. *)
Lemma run_one_at_a_time arrivals : forall s,
  waiting s = ∅ ->
  let s' := run (one_at_a_time (arrived s) arrivals) s in
  sessions s' = final (serve arrivals (sessions s))
  /\ log s' = log s ++ calls (serve arrivals (sessions s))
  /\ waiting s' = ∅
  /\ arrived s' = arrived s + length arrivals.
Proof.
  induction arrivals as [|[w req] arrivals IH]; intros s Hw.
  - simpl. rewrite app_nil_r. split_and!; [done.. | lia].
  - cbn [one_at_a_time].
    change (Arrive w req :: Settle (arrived s) :: Settle (arrived s)
              :: one_at_a_time (S (arrived s)) arrivals)
      with ([Arrive w req; Settle (arrived s); Settle (arrived s)]
              ++ one_at_a_time (S (arrived s)) arrivals).
    cbv zeta. rewrite run_app, (run_alone _ _ _ Hw).
    set (s1 := {| sessions := _ |}).
    destruct (IH s1 eq_refl) as (Hsessions & Hlog & Hwaiting & Harrived).
    simpl in *. rewrite Hsessions, Hlog, Hwaiting, Harrived.
    split_and!; [done | by rewrite <- app_assoc | done | lia].
Qed.

(** What a request that arrives does to the entry of any id: the session is
    counted and tagged at once. *)
Lemma arrive_lookup w req s sid :
  sessions (arrive w req s) !! sid
  = match processed req with
    | Some (sid', text, _) =>
        if bool_decide (sid' = sid) && negb (builtin sid (sessions s))
        then Some (counted text (sessions s !! sid))
        else sessions s !! sid
    | None => sessions s !! sid
    end.
Proof.
  unfold arrive.
  destruct (processed req) as [[[sid' text] md]|] eqn:Hp.
  - apply gateway_processed in Hp. rewrite Hp. simpl.
    destruct (builtin sid' (sessions s)) eqn:Hb.
    + rewrite (receive_builtin _ _ _ Hb).
      case_bool_decide as Hsid; [subst; rewrite Hb|]; simpl; by destruct (adds_a_tag text).
    + rewrite (receive_session _ _ _ Hb). simpl.
      case_bool_decide as Hsid; simpl.
      * subst. rewrite Hb. simpl. apply lookup_insert_eq.
      * by apply lookup_insert_ne.
  - by destruct (gateway_not_processed req Hp) as [-> | [resp ->]].
Qed.

(** What goes on at a settlement touches the flag only. *)
Lemma settle_lookup ticket s sid :
  sessions (settle ticket s) !! sid = sessions s !! sid
  \/ exists state,
       sessions s !! sid = Some state
       /\ 4 <= Session.turns state /\ Session.finalized state = false
       /\ sessions (settle ticket s) !! sid = Some (Session.set_finalized true state).
Proof.
  unfold settle. destruct (waiting s !! ticket) as [r|]; [|by left].
  destruct (w_reply r); [by left |].
  destruct (finalize_cases (guvi_resolves (w_world r)) (sessions s)
              (w_sessionId r) (w_metadata r))
    as [(state & Hst & H4 & Hnot & ->) | [_ ->]]; [|by left].
  simpl. destruct (decide (sid = w_sessionId r)) as [-> | Hne].
  - right. exists state. by rewrite lookup_insert_eq.
  - left. by apply lookup_insert_ne.
Qed.

Lemma step_builtin s a sid :
  builtin sid (sessions (step s a)) = builtin sid (sessions s).
Proof.
  assert (is_Some (sessions s !! sid) -> is_Some (sessions (step s a) !! sid)) as Hkeep.
  { intros [state Hst]. destruct a as [w req | ticket]; simpl.
    - rewrite arrive_lookup, Hst.
      destruct (processed req) as [[[sid' text] md]|]; [case_match|]; by eexists.
    - destruct (settle_lookup ticket s sid) as [-> | (st & _ & _ & _ & ->)]; by eexists. }
  destruct (builtin sid (sessions s)) eqn:Hb.
  - apply builtin_true. pose proof Hb as [Hst Hin]%builtin_true. split; [|done].
    destruct a as [w req | ticket]; simpl.
    + rewrite arrive_lookup, Hb, Hst.
      destruct (processed req) as [[[sid' text] md]|]; [|done]. by rewrite andb_false_r.
    + destruct (settle_lookup ticket s sid) as [-> | (st & ? & _)]; [done | congruence].
  - apply builtin_false. apply builtin_false in Hb as [Hsome | Hown]; [left | by right].
    by apply Hkeep.
Qed.

(** The counter of a session counts the processed messages that have
    arrived, whether or not they were answered. *)
Lemma step_turns s a sid :
  builtin sid (sessions s) = false ->
  turns_of sid (sessions (step s a))
  = turns_of sid (sessions s) + length (texts_for sid (arrivals_of [a])).
Proof.
  intros Hb. unfold turns_of. destruct a as [w req | ticket].
  - change (arrivals_of [Arrive w req]) with [(w, req)].
    change (step s (Arrive w req)) with (arrive w req s).
    rewrite arrive_lookup, Hb, texts_for_cons.
    destruct (processed req) as [[[sid' text] md]|]; [|simpl; lia].
    rewrite andb_true_r. case_bool_decide; [|simpl; lia]. simpl.
    unfold counted. rewrite extraction_turns. simpl.
    by destruct (sessions s !! sid).
  - change (step s (Settle ticket)) with (settle ticket s).
    change (texts_for sid (arrivals_of [Settle ticket])) with (@nil string).
    destruct (settle_lookup ticket s sid) as [-> | (state & -> & _ & _ & ->)];
      simpl; lia.
Qed.

Lemma arrivals_of_app actions actions' :
  arrivals_of (actions ++ actions') = arrivals_of actions ++ arrivals_of actions'.
Proof. apply omap_app. Qed.

Lemma run_turns actions : forall s sid,
  builtin sid (sessions s) = false ->
  turns_of sid (sessions (run actions s))
  = turns_of sid (sessions s) + length (texts_for sid (arrivals_of actions)).
Proof.
  induction actions as [|a actions IH]; intros s sid Hb; [simpl; lia |].
  change (a :: actions) with ([a] ++ actions).
  rewrite run_app, arrivals_of_app, texts_for_app, length_app.
  change (run [a] s) with (step s a).
  rewrite IH by by rewrite step_builtin.
  rewrite (step_turns _ _ _ Hb). lia.
Qed.

(** A request that arrives sends no callback. *)
Lemma arrive_sends_no_callback w req s p :
  GuviCallback p ∉ sent_by (Arrive w req) s.
Proof.
  unfold sent_by. simpl. unfold arrive.
  destruct (gateway req) as [resp | | sid text md]; simpl;
    rewrite ?drop_all; try apply not_elem_of_nil.
  destruct (receive (sessions s) sid text) as [[sessionState base]|]; simpl;
    rewrite ?drop_all, ?drop_app_length; [|apply not_elem_of_nil].
  by intros [=]%list_elem_of_singleton.
Qed.

(** The callback is sent when a request goes on after the oracle and finds
    the counter at 4 or more and the flag unset; the report is read off the
    session as it is at that moment. *)
Lemma settle_sends ticket s p :
  GuviCallback p ∈ sent_by (Settle ticket) s ->
  exists r state,
    waiting s !! ticket = Some r /\ w_reply r = None
    /\ sessions s !! w_sessionId r = Some state
    /\ 4 <= Session.turns state /\ Session.finalized state = false
    /\ p = intelligencePayload (w_sessionId r) (w_metadata r)
             (Session.set_finalized true state)
    /\ sessions (settle ticket s) !! w_sessionId r
       = Some (Session.set_finalized true state).
Proof.
  unfold sent_by. simpl. unfold settle.
  destruct (waiting s !! ticket) as [r|]; [|rewrite drop_all; by intros ?%elem_of_nil].
  destruct (w_reply r) eqn:Hreply; simpl;
    [rewrite drop_all; by intros ?%elem_of_nil |].
  destruct (finalize_cases (guvi_resolves (w_world r)) (sessions s)
              (w_sessionId r) (w_metadata r))
    as [(state & Hst & H4 & Hnot & ->) | [_ ->]]; simpl.
  - rewrite drop_app_length. intros [= ->]%list_elem_of_singleton.
    exists r, state. split_and!; try done. apply lookup_insert_eq.
  - rewrite drop_all. by intros ?%elem_of_nil.
Qed.

(** On a finalized session a request that goes on sends nothing, changes
    nothing and is answered. *)
Lemma settle_finalized ticket s r state :
  waiting s !! ticket = Some r -> w_reply r = None ->
  sessions s !! w_sessionId r = Some state ->
  Session.finalized state = true ->
  settle ticket s
  = answer ticket
      (Sent (success (Js.or (generateGeminiReply (gemini (w_world r)))
                            (Js.VStr (w_baseReply r)))))
      (sessions s) s.
Proof.
  intros Hr Hreply Hst Hfin. unfold settle. rewrite Hr, Hreply.
  destruct (finalize_cases (guvi_resolves (w_world r)) (sessions s)
              (w_sessionId r) (w_metadata r))
    as [(state' & Hst' & _ & Hnot & _) | [_ ->]]; [congruence | done].
Qed.

(** While the oracle has not settled for a request, the request waits and
    has no answer, whatever else arrives and settles. *)
Lemma waits_for_the_oracle actions : forall s ticket r,
  waiting s !! ticket = Some r -> w_reply r = None ->
  ticket < arrived s -> answers s !! ticket = None ->
  Settle ticket ∉ actions ->
  waiting (run actions s) !! ticket = Some r
  /\ answers (run actions s) !! ticket = None.
Proof.
  induction actions as [|a actions IH]; intros s ticket r Hr Hreply Hlt Hnone Hnot;
    [done |].
  apply not_elem_of_cons in Hnot as [Hne Hnot].
  simpl. apply IH; try done.
  - destruct a as [w req | k]; simpl.
    + unfold arrive, answer.
      destruct (gateway req) as [resp | | sid text md]; simpl;
        rewrite ?lookup_delete_ne by lia; try done.
      destruct (receive (sessions s) sid text) as [[sessionState base]|]; simpl;
        [rewrite lookup_insert_ne by lia | rewrite lookup_delete_ne by lia]; done.
    + assert (k ≠ ticket) as Hk by congruence.
      unfold settle, answer. destruct (waiting s !! k) as [r'|]; [|done].
      destruct (w_reply r'); simpl; [by rewrite lookup_delete_ne |].
      destruct (finalize _ _ _ _) as [sessionState [|e callback]]; simpl;
        [by rewrite lookup_delete_ne | by rewrite lookup_insert_ne].
  - destruct a as [w req | k]; simpl; [|].
    + unfold arrive, answer.
      destruct (gateway req) as [resp | | sid text md]; simpl; try lia.
      destruct (receive (sessions s) sid text) as [[sessionState base]|]; simpl; lia.
    + unfold settle, answer. destruct (waiting s !! k) as [r'|]; [|done].
      destruct (w_reply r'); simpl; [done |].
      by destruct (finalize _ _ _ _) as [sessionState [|e callback]].
  - destruct a as [w req | k]; simpl.
    + unfold arrive, answer.
      destruct (gateway req) as [resp | | sid text md]; simpl;
        rewrite ?lookup_insert_ne by lia; try done.
      destruct (receive (sessions s) sid text) as [[sessionState base]|]; simpl;
        rewrite ?lookup_insert_ne by lia; done.
    + assert (k ≠ ticket) as Hk by congruence.
      unfold settle, answer. destruct (waiting s !! k) as [r'|]; [|done].
      destruct (w_reply r'); simpl; [by rewrite lookup_insert_ne |].
      destruct (finalize _ _ _ _) as [sessionState [|e callback]]; simpl;
        [by rewrite lookup_insert_ne | done].
Qed.

End Schedules.

(** * Turn counting and monotone indicator sets *)
Section Counting.
Implicit Types (w : World) (req : Request Envelope.t).
Implicit Types (arrivals : list (World * Request Envelope.t)) (actions : list Action).
Implicit Types (sessionState : gmap string Session.t) (state : Session.t).
Implicit Types (sid text tag : string) (texts : list string).

#[local] Arguments Nat.leb : simpl never.

Lemma turns_of_handler w sessionState req sid :
  builtin sid sessionState = false ->
  turns_of sid (store (handler w sessionState req))
  = turns_of sid sessionState + length (texts_for sid [(w, req)]).
Proof.
  intros Hb. unfold turns_of. rewrite handler_lookup, texts_for_cons by done.
  destruct (processed req) as [[[sid' text] md]|]; [case_bool_decide|]; simpl.
  - rewrite advance_turns. by destruct (sessionState !! sid).
  - lia.
  - lia.
Qed.

Lemma run_builtin actions : forall s sid,
  builtin sid (sessions (run actions s)) = builtin sid (sessions s).
Proof.
  induction actions as [|a actions IH]; intros s sid; [done |].
  simpl. by rewrite IH, step_builtin.
Qed.

(** C3. The turn counter of a session whose id is a name of the session's
    own counts its processed messages: a created session starts at 0, every
    request adds exactly 1 when it is a processed message of the session and
    nothing otherwise, so that the counter equals the number of processed
    messages, also when requests overlap.  For an id that the store
    inherits from [Object.prototype] there is no counter: no session is ever
    stored under it, as the first message to [toString] shows, which is
    answered from the last row of the baselines. *)
Theorem turn_counter_is_lost_for_inherited_ids arrivals actions sid :
  Session.turns newSession = 0
  /\ (forall w sessionState req,
        builtin sid sessionState = false ->
        turns_of sid (store (handler w sessionState req))
        = turns_of sid sessionState + length (texts_for sid [(w, req)])
        /\ length (texts_for sid [(w, req)]) <= 1)
  /\ (Js.inherited sid = false ->
      turns_of sid (final (serve arrivals ∅)) = length (texts_for sid arrivals)
      /\ turns_of sid (sessions (run actions boot))
         = length (texts_for sid (arrivals_of actions)))
  /\ (Js.inherited sid = true ->
      final (serve arrivals ∅) !! sid = None
      /\ sessions (run actions boot) !! sid = None)
  /\ texts_for "toString" [(Sample.offline, Sample.post "toString" "hello")] = ["hello"]
  /\ handler Sample.offline ∅ (Sample.post "toString" "hello")
     = {| store := ∅;
          trace := [GeminiRequest
                      (geminiPrompt "Can you share official confirmation for this request?")];
          outcome := Sent (success
                             (Js.VStr "Can you share official confirmation for this request?")) |}.
Proof.
  split_and!.
  - reflexivity.
  - intros w sessionState req Hb. split; [by apply turns_of_handler |].
    rewrite texts_for_cons. repeat case_match; simpl; lia.
  - intros Hown. split.
    + unfold turns_of. rewrite final_serve by done.
      by destruct (texts_for sid arrivals).
    + by rewrite run_turns by by apply builtin_own_name.
  - intros Hin. split; [by apply final_serve_inherited |].
    assert (builtin sid (sessions (run actions boot)) = true) as Hb.
    { rewrite run_builtin. by apply builtin_true. }
    by apply builtin_true in Hb as [? _].
  - reflexivity.
  - reflexivity.
Qed.

Lemma final_serve_some sid arrivals : forall sessionState state,
  sessionState !! sid = Some state ->
  final (serve arrivals sessionState) !! sid
  = Some (foldl (fun state text => advance text state) state (texts_for sid arrivals)).
Proof.
  induction arrivals as [|[w req] arrivals IH]; intros sessionState state Hst.
  - done.
  - rewrite texts_for_cons. simpl.
    pose proof (handler_lookup w sessionState req sid (builtin_stored _ _ _ Hst)) as Hl.
    rewrite Hst in Hl.
    destruct (processed req) as [[[sid' text] md]|]; [case_bool_decide|];
      by rewrite (IH _ _ Hl).
Qed.

Lemma foldl_advance_scamIndicators texts : forall state tag,
  tag ∈ Session.scamIndicators (foldl (fun state text => advance text state) state texts)
  <-> tag ∈ Session.scamIndicators state
      \/ exists text, text ∈ texts /\ tag ∈ (extract text).1.
Proof.
  induction texts as [|text texts IH]; intros state tag; simpl.
  - split; [by left | intros [H | (text & H & _)]; [done | by apply elem_of_nil in H]].
  - rewrite IH, advance_scamIndicators, extraction_scamIndicators.
    setoid_rewrite elem_of_cons. split.
    + intros [[H | H] | (t & Ht & H)];
        [by left | right; exists text; auto | right; exists t; auto].
    + intros [H | (t & [-> | Ht] & H)];
        [by left; left | by left; right | right; by exists t].
Qed.

Lemma foldl_advance_requestedData texts : forall state tag,
  tag ∈ Session.requestedData (foldl (fun state text => advance text state) state texts)
  <-> tag ∈ Session.requestedData state
      \/ exists text, text ∈ texts /\ tag ∈ (extract text).2.
Proof.
  induction texts as [|text texts IH]; intros state tag; simpl.
  - split; [by left | intros [H | (text & H & _)]; [done | by apply elem_of_nil in H]].
  - rewrite IH, advance_requestedData, extraction_requestedData.
    setoid_rewrite elem_of_cons. split.
    + intros [[H | H] | (t & Ht & H)];
        [by left | right; exists text; auto | right; exists t; auto].
    + intros [H | (t & [-> | Ht] & H)];
        [by left; left | by left; right | right; by exists t].
Qed.

(** C4. Across the handling of successive inbound messages the two
    indicator sets of a session never lose a tag: after any further requests
    the session is still in the store, each set contains the set it had
    before, and what it holds is exactly the union of the old set with the
    tags extracted from the session's processed texts. *)
Theorem indicator_sets_only_grow arrivals sessionState sid state :
  sessionState !! sid = Some state ->
  exists state',
    final (serve arrivals sessionState) !! sid = Some state'
    /\ Session.scamIndicators state ⊆ Session.scamIndicators state'
    /\ Session.requestedData state ⊆ Session.requestedData state'
    /\ (forall tag,
          tag ∈ Session.scamIndicators state'
          <-> tag ∈ Session.scamIndicators state
              \/ exists text, text ∈ texts_for sid arrivals /\ tag ∈ (extract text).1)
    /\ (forall tag,
          tag ∈ Session.requestedData state'
          <-> tag ∈ Session.requestedData state
              \/ exists text, text ∈ texts_for sid arrivals /\ tag ∈ (extract text).2).
Proof.
  intros Hst. eexists. split; [by apply final_serve_some |].
  split_and!.
  - intros tag Htag. apply foldl_advance_scamIndicators. by left.
  - intros tag Htag. apply foldl_advance_requestedData. by left.
  - apply foldl_advance_scamIndicators.
  - apply foldl_advance_requestedData.
Qed.

End Counting.

(** A concrete instance: after one message that asks for the OTP, a second
    message with a link keeps the OTP tag. *)
Lemma indicator_sets_only_grow_witness :
  exists state',
    final (serve [(Sample.offline, Sample.post "s1" "click this link")]
             (store (handler Sample.offline ∅
                                (Sample.post "s1" "send the OTP")))) !! "s1"
    = Some state'
    /\ ["OTP"] ⊆ Session.requestedData state'.
Proof.
  destruct (indicator_sets_only_grow
              [(Sample.offline, Sample.post "s1" "click this link")]
              (store (handler Sample.offline ∅
                                 (Sample.post "s1" "send the OTP")))
              "s1"
              {| Session.turns := 1;
                 Session.scamIndicators := [];
                 Session.requestedData := ["OTP"];
                 Session.finalized := false |})
    as (state' & Hfinal & _ & Hdata & _).
  - vm_compute. reflexivity.
  - exists state'. split; [exact Hfinal | exact Hdata].
Defined.

(** * Finalization *)
Section Finalization.
Implicit Types (w : World) (req : Request Envelope.t) (s : Server) (a : Action).
Implicit Types (arrivals : list (World * Request Envelope.t)) (actions : list Action).
Implicit Types (sessionState : gmap string Session.t) (state : Session.t).
Implicit Types (sid text tag : string) (texts : list string) (p : Payload.t).

#[local] Arguments Nat.leb : simpl never.

Lemma elem_of_callbacks_for p sid (events : list Event) :
  p ∈ callbacks_for sid events <-> GuviCallback p ∈ events /\ Payload.sessionId p = sid.
Proof.
  unfold callbacks_for. rewrite list_elem_of_omap. split.
  - intros ([prompt | q] & Hin & Heq); [done |].
    case_bool_decide; [|done]. by injection Heq as ->.
  - intros [Hin Hsid]. exists (GuviCallback p). split; [done |].
    by rewrite bool_decide_true.
Qed.

(** A processed request of a session of the store, or of a new one, is
    answered with 200 and the success body. *)
Lemma handler_outcome w sessionState req sid text md :
  processed req = Some (sid, text, md) ->
  builtin sid sessionState = false ->
  outcome (handler w sessionState req)
  = Sent {| status := 200;
            json := success_body
                      (Js.or (generateGeminiReply (gemini w))
                         (Js.VStr (baseReply
                            (turns_of sid (store (handler w sessionState req)))))) |}.
Proof.
  intros Hp Hb. unfold turns_of. rewrite handler_lookup, Hp, bool_decide_true by done.
  rewrite advance_turns, (handler_processed _ _ _ _ _ _ Hp), converse_unfold by done.
  simpl. unfold counted. by rewrite extraction_turns.
Qed.

(** A finalized session sends no callback, whatever arrives. *)
Lemma finalized_no_callback w sessionState req sid state :
  sessionState !! sid = Some state -> Session.finalized state = true ->
  callbacks_for sid (trace (handler w sessionState req)) = [].
Proof.
  intros Hst Hfin. rewrite handler_callbacks by by eapply builtin_stored.
  destruct (processed req) as [[[sid' text] md]|]; [|done]. simpl.
  rewrite Hst. unfold counted. rewrite extraction_finalized. simpl.
  rewrite Hfin. by rewrite !andb_false_r.
Qed.

Lemma finalized_stays w sessionState req sid state :
  sessionState !! sid = Some state -> Session.finalized state = true ->
  exists state', store (handler w sessionState req) !! sid = Some state'
                 /\ Session.finalized state' = true.
Proof.
  intros Hst Hfin. rewrite handler_lookup, Hst by by eapply builtin_stored.
  destruct (processed req) as [[[sid' text] md]|]; [case_bool_decide|]; eauto.
  eexists. split; [done |]. rewrite advance_finalized. simpl.
  rewrite Hfin. apply orb_true_r.
Qed.

(** Whatever has arrived and settled: a session has at most one callback,
    and it has one exactly when it has four turns or more, unless one of its
    requests still awaits the oracle. *)
Lemma callbacks_of_consistent s sid :
  consistent s ->
  length (callbacks_for sid (log s)) <= 1
  /\ (~ busy sid s ->
      (length (callbacks_for sid (log s)) = 1 <-> 4 <= turns_of sid (sessions s))).
Proof.
  intros (_ & Hs & Hn). unfold turns_of.
  destruct (sessions s !! sid) as [state|] eqn:Hst.
  - destruct (Hs sid state Hst) as (_ & Hlen & Hfin & Hbusy). rewrite Hlen.
    destruct (Session.finalized state) eqn:Hf; simpl.
    + split; [lia |]. intros _. split; [by intros _; apply Hfin | done].
    + split; [lia |]. intros Hquiet. split; [done |]. intros H4.
      destruct Hquiet. by apply Hbusy.
  - rewrite (Hn sid Hst). simpl. split; [lia |]. intros _. split; [done | lia].
Qed.

(** The request that sends the callback in a run from the empty store is
    the one that takes the counter to 4. *)
Lemma sender_takes_counter_to_four arrivals sid w req :
  callbacks_for sid (trace (handler w (final (serve arrivals ∅)) req)) ≠ []
  <-> length (texts_for sid [(w, req)]) = 1
      /\ turns_of sid (store (handler w (final (serve arrivals ∅)) req)) = 4.
Proof.
  destruct (Js.inherited sid) eqn:Hin.
  - assert (builtin sid (final (serve arrivals ∅)) = true) as Hb
      by (rewrite serve_builtin; by apply builtin_true).
    rewrite (handler_callbacks_builtin _ _ _ _ Hb).
    unfold turns_of. rewrite (handler_lookup_builtin _ _ _ _ Hb).
    split; [done | by intros [_ ?]].
  - rewrite (handler_callbacks_after w req sid _ _ Hin (final_serve sid arrivals Hin)).
    rewrite turns_of_handler, texts_for_cons by by apply builtin_own_name.
    unfold turns_of. rewrite final_serve by done.
    replace (match session_of (texts_for sid arrivals) with
             | Some state => Session.turns state
             | None => 0
             end) with (length (texts_for sid arrivals))
      by by destruct (texts_for sid arrivals).
    destruct (processed req) as [[[sid' text] md]|]; [case_bool_decide|]; simpl.
    + destruct (Nat.eqb_spec (length (texts_for sid arrivals)) 3); simpl.
      * split; [lia | done].
      * split; [done | lia].
    + split; [done | lia].
    + split; [done | lia].
Qed.

(** C1. Each session gets at most one finalization callback, however its
    requests arrive and overlap.  The callback is sent by a request that goes
    on after the oracle and finds the counter at 4 or more and the flag
    unset, and it sets the flag; once no request of the session awaits the
    oracle, the session has its one callback exactly when its counter has
    reached 4.  When requests are handled one after the other the sender is
    the request that takes the counter to 4.  On a session that is already
    finalized a further request sends no callback, leaves the flag set and
    is still answered with 200 and the success body: the guarded block
    changes nothing and sends nothing. *)
Theorem finalization_report_sent_once actions sid :
  length (callbacks_for sid (log (run actions boot))) <= 1
  /\ (~ busy sid (run actions boot) ->
      (length (callbacks_for sid (log (run actions boot))) = 1
       <-> 4 <= turns_of sid (sessions (run actions boot))))
  /\ (forall a p,
        GuviCallback p ∈ sent_by a (run actions boot) ->
        Payload.sessionId p = sid ->
        exists state,
          sessions (run actions boot) !! sid = Some state
          /\ 4 <= Session.turns state /\ Session.finalized state = false
          /\ sessions (step (run actions boot) a) !! sid
             = Some (Session.set_finalized true state))
  /\ (forall ticket r state,
        waiting (run actions boot) !! ticket = Some r ->
        w_sessionId r = sid -> w_reply r = None ->
        sessions (run actions boot) !! sid = Some state ->
        Session.finalized state = true ->
        sent_by (Settle ticket) (run actions boot) = []
        /\ sessions (settle ticket (run actions boot)) = sessions (run actions boot)
        /\ exists reply,
             answers (settle ticket (run actions boot)) !! ticket
             = Some (Sent (success reply)))
  /\ (forall arrivals,
        (length (callbacks_for sid (calls (serve arrivals ∅))) = 1
         <-> 4 <= turns_of sid (final (serve arrivals ∅)))
        /\ (forall w req,
              callbacks_for sid (trace (handler w (final (serve arrivals ∅)) req)) ≠ []
              <-> length (texts_for sid [(w, req)]) = 1
                  /\ turns_of sid (store (handler w (final (serve arrivals ∅)) req)) = 4))
  /\ (forall w sessionState req state,
        sessionState !! sid = Some state -> Session.finalized state = true ->
        callbacks_for sid (trace (handler w sessionState req)) = []
        /\ (exists state', store (handler w sessionState req) !! sid = Some state'
                           /\ Session.finalized state' = true)
        /\ (forall text md, processed req = Some (sid, text, md) ->
              exists reply,
                outcome (handler w sessionState req)
                = Sent {| status := 200; json := success_body reply |}))
  /\ (forall resolves md state,
        Session.finalized state = true ->
        finalization resolves sid md state = (state, [])).
Proof.
  pose proof (consistent_run actions boot consistent_boot) as Hc.
  destruct (callbacks_of_consistent _ sid Hc) as [Hle Hone].
  split_and!; [done | done | | | | |].
  - intros [w req | ticket] p Hin Hsid.
    + by apply arrive_sends_no_callback in Hin.
    + apply settle_sends in Hin
        as (r & state & Hr & Hreply & Hst & H4 & Hnot & -> & Hafter).
      simpl in Hsid. subst sid. by exists state.
  - intros ticket r state Hr Hsid Hreply Hst Hfin. subst sid.
    rewrite (settle_finalized _ _ _ _ Hr Hreply Hst Hfin).
    split_and!; [| done |].
    + unfold sent_by. simpl. rewrite (settle_finalized _ _ _ _ Hr Hreply Hst Hfin).
      simpl. apply drop_all.
    + eexists. simpl. apply lookup_insert_eq.
  - intros arrivals. split; [|intros w req; apply sender_takes_counter_to_four].
    destruct (run_one_at_a_time arrivals boot eq_refl) as (Hsessions & Hlog & Hwaiting & _).
    simpl in Hsessions, Hlog.
    pose proof (consistent_run (one_at_a_time 0 arrivals) boot consistent_boot) as Hc'.
    destruct (callbacks_of_consistent _ sid Hc') as [_ Hone'].
    simpl in Hone'. rewrite Hsessions, Hlog in Hone'. apply Hone'.
    intros (ticket & r & Hr & _). simpl in Hwaiting. rewrite Hwaiting in Hr.
    by destruct (lookup_empty_Some (M:=gmap nat) ticket r).
  - intros w sessionState req state Hst Hfin. split_and!.
    + by eapply finalized_no_callback.
    + by eapply finalized_stays.
    + intros text md Hp. eexists.
      exact (handler_outcome _ _ _ _ _ _ Hp (builtin_stored _ _ _ Hst)).
  - intros resolves md state Hfin. unfold finalization.
    by rewrite Hfin, andb_false_r.
Qed.

(** When the callback goes out in a run from the empty store in which no
    requests overlap, the counter is 4 and the report is read off the session
    of the four processed texts. *)
Lemma report_in_sequence arrivals w req p :
  GuviCallback p ∈ trace (handler w (final (serve arrivals ∅)) req) ->
  exists state,
    store (handler w (final (serve arrivals ∅)) req) !! Payload.sessionId p = Some state
    /\ Payload.totalTurns p = 4
    /\ Session.turns state = 4
    /\ Payload.scamIndicators p = JsSet.Array_from (Session.scamIndicators state)
    /\ Payload.requestedSensitiveData p = JsSet.Array_from (Session.requestedData state)
    /\ state = session_after (texts_for (Payload.sessionId p) (arrivals ++ [(w, req)])).
Proof.
  intros Hin. set (sid := Payload.sessionId p).
  assert (p ∈ callbacks_for sid (trace (handler w (final (serve arrivals ∅)) req)))
    as Hp by by apply elem_of_callbacks_for.
  destruct (Js.inherited sid) eqn:Hown.
  { rewrite handler_callbacks_builtin in Hp; [by apply elem_of_nil in Hp |].
    rewrite serve_builtin. by apply builtin_true. }
  rewrite (handler_callbacks_after w req sid _ _ Hown (final_serve sid arrivals Hown)) in Hp.
  pose proof (handler_lookup w (final (serve arrivals ∅)) req sid
                (builtin_own_name _ _ Hown)) as Hl.
  rewrite texts_for_app, texts_for_cons.
  destruct (processed req) as [[[sid' text] md]|]; [|by apply elem_of_nil in Hp].
  case_bool_decide as Hsid; [|by apply elem_of_nil in Hp]. simpl in Hp.
  destruct (Nat.eqb_spec (length (texts_for sid arrivals)) 3) as [H3|];
    [|by apply elem_of_nil in Hp].
  apply list_elem_of_singleton in Hp.
  rewrite final_serve, session_after_snoc in Hl by done.
  exists (session_after (texts_for sid arrivals ++ [text])).
  assert (length (texts_for sid arrivals ++ [text]) = 4) as H4
    by (rewrite length_app; simpl; lia).
  split_and!; [done | by rewrite Hp | done | by rewrite Hp.. | done].
Qed.

(** C8, as the handler has it.  The report is read off the session at the
    moment the callback is sent: its [totalTurns] is the counter at that
    moment, which is at least 4 and counts every processed message of the
    session that has arrived, answered or not, and its two lists are the
    session's sets at that moment.  When the requests are handled one after
    the other the counter is then 4 and the sets hold the tags of the four
    processed texts. *)
Theorem report_is_read_at_finalization :
  (forall actions a p,
     GuviCallback p ∈ sent_by a (run actions boot) ->
     exists state,
       sessions (step (run actions boot) a) !! Payload.sessionId p = Some state
       /\ Session.finalized state = true
       /\ Payload.totalTurns p = Session.turns state
       /\ 4 <= Payload.totalTurns p
       /\ Payload.totalTurns p
          = length (texts_for (Payload.sessionId p) (arrivals_of actions))
       /\ Payload.scamIndicators p = JsSet.Array_from (Session.scamIndicators state)
       /\ Payload.requestedSensitiveData p
          = JsSet.Array_from (Session.requestedData state))
  /\ (forall arrivals w req p,
        GuviCallback p ∈ trace (handler w (final (serve arrivals ∅)) req) ->
        exists state,
          store (handler w (final (serve arrivals ∅)) req) !! Payload.sessionId p
          = Some state
          /\ Payload.totalTurns p = 4
          /\ Session.turns state = 4
          /\ Payload.scamIndicators p = JsSet.Array_from (Session.scamIndicators state)
          /\ Payload.requestedSensitiveData p
             = JsSet.Array_from (Session.requestedData state)
          /\ state = session_after
                       (texts_for (Payload.sessionId p) (arrivals ++ [(w, req)]))).
Proof.
  split; [|apply report_in_sequence].
  intros actions [w req | ticket] p Hin.
  - by apply arrive_sends_no_callback in Hin.
  - apply settle_sends in Hin
      as (r & state & Hr & Hreply & Hst & H4 & Hnot & -> & Hafter).
    exists (Session.set_finalized true state). simpl.
    split_and!; [done.. | | done | done].
    pose proof (consistent_run actions boot consistent_boot) as (_ & Hs & _).
    destruct (Hs _ _ Hst) as (Hown & _).
    pose proof (run_turns actions boot (w_sessionId r) (builtin_own_name _ _ Hown)) as Ht.
    unfold turns_of in Ht. rewrite Hst in Ht. simpl in Ht. done.
Qed.

Lemma callback_scamDetected w sessionState req p :
  GuviCallback p ∈ trace (handler w sessionState req) -> Payload.scamDetected p = true.
Proof.
  intros Hin.
  assert (p ∈ callbacks_for (Payload.sessionId p) (trace (handler w sessionState req)))
    as Hp by by apply elem_of_callbacks_for.
  rewrite handler_callbacks_any in Hp.
  destruct (processed req) as [[[sid' text] md]|]; [|by apply elem_of_nil in Hp].
  simpl in Hp. case_match; [|by apply elem_of_nil in Hp].
  by apply list_elem_of_singleton in Hp as ->.
Qed.

(** C10. Every finalization callback reports [scamDetected = true]: whatever
    the store, the requests and the oracle, and whatever tags the session
    holds (none at all included), a callback that is sent carries the
    constant [true]. *)
Theorem report_always_claims_scam arrivals sessionState p :
  GuviCallback p ∈ calls (serve arrivals sessionState) ->
  Payload.scamDetected p = true.
Proof.
  revert sessionState.
  induction arrivals as [|[w req] arrivals IH]; intros sessionState Hin; simpl in Hin.
  - by apply elem_of_nil in Hin.
  - apply elem_of_app in Hin as [Hin | Hin].
    + by eapply callback_scamDetected.
    + by eapply IH.
Qed.

End Finalization.

(** Concrete instances on the sample traffic. *)
Lemma finalization_report_sent_once_witness :
  length (callbacks_for "s1"
            (log (run (one_at_a_time 0 Sample.four_greetings) boot))) = 1
  /\ callbacks_for "s1"
       (trace (handler Sample.offline (final (serve Sample.four_greetings ∅))
                 (Sample.post "s1" "one more"))) = [].
Proof.
  destruct (finalization_report_sent_once (one_at_a_time 0 Sample.four_greetings) "s1")
    as (_ & Hone & _ & _ & _ & Hlater & _).
  split.
  - apply Hone.
    + intros (ticket & r & Hr & _). vm_compute in Hr. discriminate Hr.
    + vm_compute. lia.
  - eapply (Hlater Sample.offline (final (serve Sample.four_greetings ∅))
              (Sample.post "s1" "one more")).
    + vm_compute. reflexivity.
    + reflexivity.
Defined.

(** C8 fails as stated.  The fourth message of session [s1] takes the
    counter to 4; a fifth, which asks for the OTP, arrives while the fourth
    awaits the oracle; the report that the fourth then sends has
    [totalTurns] 5 and lists the tag of the fifth message. *)
Lemma report_counts_a_fifth_message :
  turns_of "s1"
    (sessions (run (one_at_a_time 0 Sample.three_greetings
                      ++ [Arrive Sample.offline (Sample.post "s1" "please answer")])
                 boot)) = 4
  /\ sent_by (Settle 3) (run Sample.fifth_overtakes boot)
     = [GuviCallback Sample.report_of_five]
  /\ Payload.totalTurns Sample.report_of_five = 5
  /\ Payload.requestedSensitiveData Sample.report_of_five = ["OTP"].
Proof. split_and!; vm_compute; reflexivity. Qed.

Lemma report_is_read_at_finalization_witness :
  exists state,
    sessions (step (run Sample.fifth_overtakes boot) (Settle 3)) !! "s1" = Some state
    /\ Session.turns state = 5
    /\ Session.requestedData state = ["OTP"].
Proof.
  destruct report_is_read_at_finalization as [Hread _].
  destruct (Hread Sample.fifth_overtakes (Settle 3) Sample.report_of_five)
    as (state & Hstate & _ & Hturns & _ & _ & _ & Hdata).
  - apply list_elem_of_In. vm_compute. left. reflexivity.
  - exists state. split_and!; [exact Hstate | exact (eq_sym Hturns) | exact (eq_sym Hdata)].
Defined.

Lemma report_always_claims_scam_witness :
  Payload.scamDetected Sample.report_s1 = true
  /\ Payload.scamIndicators Sample.report_s1 = []
  /\ Payload.requestedSensitiveData Sample.report_s1 = [].
Proof.
  split_and!; [| reflexivity..].
  apply (report_always_claims_scam Sample.four_greetings ∅).
  apply list_elem_of_In. vm_compute. do 4 right. left. reflexivity.
Defined.

(** * After finalization *)
Section AfterFinalization.

Implicit Types (w : World) (req : Request Envelope.t).
Implicit Types (sessionState : gmap string Session.t) (state : Session.t).
Implicit Types (sid text : string) (md : Metadata.t).

#[local] Arguments Nat.leb : simpl never.

(** [advance] on a finalized session only counts and tags. *)
Lemma advance_finalized_session text state :
  Session.finalized state = true ->
  advance text state = counted text (Some state).
Proof.
  intros Hfin. unfold advance, counted.
  rewrite extraction_finalized. simpl. by rewrite Hfin, andb_false_r.
Qed.

(** C2, as the handler has it.  Once a session is finalized its flag stays
    set and no further callback is sent, but the handler has no "session
    closed" answer: a later processed message of the session is handled like
    any other, it is counted, its tags are added to the two sets, and it is
    answered with 200 and the success body; any other request leaves the
    session as it is. *)
Theorem finalized_session_keeps_flag_and_keeps_talking w sessionState req sid state :
  sessionState !! sid = Some state ->
  Session.finalized state = true ->
  exists state',
    store (handler w sessionState req) !! sid = Some state'
    /\ Session.finalized state' = true
    /\ callbacks_for sid (trace (handler w sessionState req)) = []
    /\ state' = match texts_for sid [(w, req)] with
                | text :: _ =>
                    extraction text (Session.set_turns (Session.turns state + 1) state)
                | [] => state
                end
    /\ (forall text md, processed req = Some (sid, text, md) ->
          exists reply,
            outcome (handler w sessionState req)
            = Sent {| status := 200; json := success_body reply |}).
Proof.
  intros Hst Hfin.
  destruct (finalized_stays w sessionState req sid state Hst Hfin) as (state' & Hl & Hf).
  exists state'. split_and!; [done.. | by eapply finalized_no_callback | |].
  - rewrite handler_lookup, Hst in Hl by by eapply builtin_stored.
    rewrite texts_for_cons.
    destruct (processed req) as [[[sid' text] md]|]; [case_bool_decide|]; simpl in *.
    + rewrite advance_finalized_session in Hl by done. by injection Hl.
    + by injection Hl.
    + by injection Hl.
  - intros text md Hp. eexists.
    exact (handler_outcome _ _ _ _ _ _ Hp (builtin_stored _ _ _ Hst)).
Qed.

End AfterFinalization.

(** C2 fails as stated: session [s1] is finalized by its fourth message,
    yet a fifth message that asks for the OTP is answered with 200 and the
    success body, and the tag [OTP] enters the requested-data set. *)
Lemma finalized_session_is_not_closed :
  (exists state,
     final (serve Sample.four_greetings ∅) !! "s1" = Some state
     /\ Session.finalized state = true
     /\ Session.requestedData state = [])
  /\ (exists state',
        store (handler Sample.offline (final (serve Sample.four_greetings ∅))
                 (Sample.post "s1" "share the OTP now")) !! "s1" = Some state'
        /\ Session.turns state' = 5
        /\ Session.requestedData state' = ["OTP"])
  /\ outcome (handler Sample.offline (final (serve Sample.four_greetings ∅))
                (Sample.post "s1" "share the OTP now"))
     = Sent {| status := 200;
               json := success_body
                 (Js.VStr "Can you share official confirmation for this request?") |}.
Proof.
  split_and!.
  - eexists. split_and!; [vm_compute; reflexivity | reflexivity..].
  - eexists. split_and!; [vm_compute; reflexivity | reflexivity..].
  - vm_compute. reflexivity.
Qed.

Lemma finalized_session_keeps_flag_and_keeps_talking_witness :
  exists state',
    store (handler Sample.offline (final (serve Sample.four_greetings ∅))
             (Sample.post "s1" "share the OTP now")) !! "s1" = Some state'
    /\ Session.finalized state' = true.
Proof.
  destruct (finalized_session_keeps_flag_and_keeps_talking
              Sample.offline (final (serve Sample.four_greetings ∅))
              (Sample.post "s1" "share the OTP now") "s1"
              {| Session.turns := 4; Session.scamIndicators := [];
                 Session.requestedData := []; Session.finalized := true |})
    as (state' & Hstore & Hflag & _).
  - vm_compute. reflexivity.
  - reflexivity.
  - exists state'. split; [exact Hstore | exact Hflag].
Defined.

(** * The text oracle *)
Section Oracle.
Import Watch.

Implicit Types (w : World) (req : Request Envelope.t) (run : OracleRun).
Implicit Types (sessionState : gmap string Session.t) (state : Session.t).
Implicit Types (sid text : string) (md : Metadata.t).

Lemma fails_no_reply run : fails run -> Js.truthy (generateGeminiReply run) = false.
Proof.
  intros [| | data H | data H | data H]; unfold generateGeminiReply; try done;
    unfold text_path in H; by rewrite H.
Qed.

Lemma baseReply_nonempty (turns : nat) : baseReply turns ≠ EmptyString.
Proof. unfold baseReply, baseReply_when. by repeat case_match. Qed.

(** Answers of the oracle that carry no text: [null], an empty object, an
    error object, no candidate, a candidate without parts, an empty text. *)
Example fails_shapes :
  fails (Parsed Js.VNull)
  /\ fails (Parsed (Js.VObj []))
  /\ fails (Parsed (Js.VObj [("error", Js.VObj [("code", Js.VNum 429)])]))
  /\ fails (Parsed (Js.VObj [("candidates", Js.VArr [])]))
  /\ fails (Parsed (Js.VObj [("candidates",
                              Js.VArr [Js.VObj [("finishReason", Js.VStr "SAFETY")]])]))
  /\ fails (gemini (Sample.answering EmptyString)).
Proof.
  split_and!; [by apply fails_no_text.. | by apply fails_empty_text].
Qed.

(** A processed request either throws before it asks anything, or asks the
    oracle to rephrase one baseline, sends no other prompt, and is answered
    with 200, the success body, and the oracle's text or else that
    baseline. *)
Lemma handler_answer w sessionState req sid text md :
  processed req = Some (sid, text, md) ->
  (handler w sessionState req
   = {| store := sessionState; trace := []; outcome := Uncaught |}
   /\ builtin sid sessionState = true /\ adds_a_tag text = true)
  \/ exists base,
       prompts_of (trace (handler w sessionState req)) = [geminiPrompt base]
       /\ outcome (handler w sessionState req)
          = Sent (success (Js.or (generateGeminiReply (gemini w)) (Js.VStr base)))
       /\ base ≠ EmptyString
       /\ (builtin sid sessionState = false ->
           base = baseReply (turns_of sid (store (handler w sessionState req))))
       /\ (builtin sid sessionState = true -> base = baseReply_NaN).
Proof.
  intros Hp. rewrite (handler_processed _ _ _ _ _ _ Hp).
  destruct (builtin sid sessionState) eqn:Hb.
  - rewrite (converse_builtin _ _ _ _ _ Hb).
    destruct (adds_a_tag text); [by left |]. right.
    exists baseReply_NaN. by split_and!.
  - right. rewrite (converse_unfold _ _ _ _ _ Hb).
    exists (baseReply (Session.turns (counted text (sessionState !! sid)))).
    unfold respond, prompts_of. simpl. rewrite finalization_callback.
    split_and!; [by case_match | done | apply baseReply_nonempty | | done].
    intros _. unfold turns_of, counted. rewrite lookup_insert_eq, advance_turns.
    by rewrite extraction_turns.
Qed.

(** C5, as the handler has it.  When the handler asks the oracle to
    rephrase a baseline and the oracle fails (the call rejects, the answer is
    not JSON, or it carries no text or an empty one), the request is answered
    with 200 and the success body, and the reply is that baseline unmodified,
    which is never empty; it is the baseline for the session's turn count
    after this message.  Nothing bounds the wait for the oracle. *)
Theorem oracle_failure_yields_baseline w sessionState req sid text md :
  processed req = Some (sid, text, md) ->
  fails (gemini w) ->
  prompts_of (trace (handler w sessionState req)) ≠ [] ->
  exists base,
    prompts_of (trace (handler w sessionState req)) = [geminiPrompt base]
    /\ outcome (handler w sessionState req)
       = Sent {| status := 200; json := success_body (Js.VStr base) |}
    /\ base ≠ EmptyString
    /\ (builtin sid sessionState = false ->
        base = baseReply (turns_of sid (store (handler w sessionState req)))).
Proof.
  intros Hp Hfails Hasked.
  destruct (handler_answer w sessionState req sid text md Hp)
    as [(Hthrown & _) | (base & Hprompt & Hout & Hne & Hturn & _)].
  - by rewrite Hthrown in Hasked.
  - exists base. split_and!; [done | | done | done].
    rewrite Hout. unfold Js.or. by rewrite (fails_no_reply _ Hfails).
Qed.

(** C9, as the handler has it.  A processed message that is handled
    without an exception is answered with 200 and a body of exactly two
    fields, [status = "success"] and [reply]; the reply is the oracle's text
    when that is truthy and else the baseline the oracle was asked to
    rephrase, so it is never empty, and it is a string unless the oracle's
    text is a truthy value that is not a string.  The body has no
    [scamDetected] field. *)
Theorem success_response_has_status_and_reply w sessionState req sid text md r :
  processed req = Some (sid, text, md) ->
  outcome (handler w sessionState req) = Sent r ->
  exists base reply,
    r = {| status := 200;
           json := Js.VObj [("status", Js.VStr "success"); ("reply", reply)] |}
    /\ prompts_of (trace (handler w sessionState req)) = [geminiPrompt base]
    /\ reply = Js.or (generateGeminiReply (gemini w)) (Js.VStr base)
    /\ Js.truthy reply = true
    /\ (Js.is_string reply = true
        <-> Js.truthy (generateGeminiReply (gemini w)) = false
            \/ Js.is_string (generateGeminiReply (gemini w)) = true)
    /\ Js.access (Js.Field "scamDetected") (json r) = Js.VUndefined.
Proof.
  intros Hp Hsent.
  destruct (handler_answer w sessionState req sid text md Hp)
    as [(Hthrown & _) | (base & Hprompt & Hout & Hne & _)].
  - by rewrite Hthrown in Hsent.
  - rewrite Hout in Hsent. injection Hsent as <-.
    exists base, (Js.or (generateGeminiReply (gemini w)) (Js.VStr base)).
    split_and!; [done.. | | | done].
    + unfold Js.or. destruct (Js.truthy (generateGeminiReply (gemini w))) eqn:Ht; [done |].
      simpl. by rewrite eqb_empty_false.
    + unfold Js.or. destruct (Js.truthy (generateGeminiReply (gemini w))) eqn:Ht.
      * split; [by right | by intros [? | ?]].
      * split; [by left | done].
Qed.

End Oracle.

Lemma oracle_failure_yields_baseline_witness :
  outcome (handler {| gemini := JsonRejects; guvi_resolves := true |} ∅
             (Sample.post "s1" "hello"))
  = Sent {| status := 200;
            json := success_body (Js.VStr "Why is my account being suspended?") |}.
Proof.
  destruct (oracle_failure_yields_baseline
              {| gemini := JsonRejects; guvi_resolves := true |} ∅
              (Sample.post "s1" "hello") "s1" "hello" Metadata.none)
    as (base & _ & Hout & _ & Hturn).
  - reflexivity.
  - apply fails_json.
  - discriminate.
  - rewrite Hout, (Hturn eq_refl). reflexivity.
Defined.

(** C5 fails as stated for an oracle that does not answer in time: the
    handler sets no timeout, so a request whose oracle call has not settled
    stays unanswered whatever else arrives and settles meanwhile; no baseline
    is sent in its place. *)
Lemma silent_oracle_leaves_request_unanswered :
  ~ exists actions,
      (Settle 0 ∉ actions)
      /\ is_Some
           (answers (run (Arrive Sample.offline (Sample.post "s1" "hello") :: actions)
                       boot) !! 0).
Proof.
  intros (actions & Hnot & Hanswered). apply (is_Some_None (A:=Outcome)).
  change (run (Arrive Sample.offline (Sample.post "s1" "hello") :: actions) boot)
    with (run actions (arrive Sample.offline (Sample.post "s1" "hello") boot))
    in Hanswered.
  assert (answers (run actions (arrive Sample.offline (Sample.post "s1" "hello") boot))
            !! 0 = None) as <-; [|exact Hanswered].
  eapply (waits_for_the_oracle actions); [ | | | | exact Hnot].
  - vm_compute. reflexivity.
  - reflexivity.
  - vm_compute. lia.
  - reflexivity.
Qed.

(** C9 fails as stated: the body of a successful answer has the fields
    [status] and [reply] only, asking it for [scamDetected] gives
    [undefined]; and the reply is not always a string, an oracle whose text
    is the number 42 is quoted as it is. *)
Lemma success_response_lacks_scamDetected :
  outcome (handler Sample.offline ∅ (Sample.post "s1" "hello"))
  = Sent {| status := 200;
            json := Js.VObj [("status", Js.VStr "success");
                             ("reply", Js.VStr "Why is my account being suspended?")] |}
  /\ Js.access (Js.Field "scamDetected")
       (Js.VObj [("status", Js.VStr "success");
                 ("reply", Js.VStr "Why is my account being suspended?")])
     = Js.VUndefined
  /\ outcome (handler (Sample.answering_with (Js.VNum 42)) ∅ (Sample.post "s1" "hello"))
     = Sent {| status := 200;
               json := Js.VObj [("status", Js.VStr "success"); ("reply", Js.VNum 42)] |}
  /\ Js.is_string (Js.VNum 42) = false.
Proof. split_and!; vm_compute; reflexivity. Qed.

Lemma success_response_has_status_and_reply_witness :
  exists reply,
    outcome (handler (Sample.answering "Which account do you mean?") ∅
               (Sample.post "s1" "hello"))
    = Sent {| status := 200;
              json := Js.VObj [("status", Js.VStr "success"); ("reply", reply)] |}
    /\ Js.is_string reply = true.
Proof.
  destruct (success_response_has_status_and_reply
              (Sample.answering "Which account do you mean?") ∅
              (Sample.post "s1" "hello") "s1" "hello" Metadata.none
              {| status := 200;
                 json := Js.VObj [("status", Js.VStr "success");
                                  ("reply", Js.VStr "Which account do you mean?")] |})
    as (base & reply & Hr & _ & _ & _ & Hstr & _).
  - reflexivity.
  - reflexivity.
  - exists reply. injection Hr as Hreply. split; [by rewrite <- Hreply |].
    apply Hstr. right. reflexivity.
Defined.

(** * The gateways *)
Section Gateway.

Implicit Types (w : World) (run : OracleRun).
Implicit Types (sessionState : gmap string Session.t).

Lemma session_gateway_missing_key w sessionState (req : Request Envelope.t) :
  JsString.falsy (x_api_key req) = true ->
  handler w sessionState req
  = respond sessionState [] 401 [("error", Js.VStr "x-api-key missing")].
Proof. unfold handler, gateway. by intros ->. Qed.

Lemma session_gateway_invalid_key w sessionState (req : Request Envelope.t) key :
  x_api_key req = Some key -> key ≠ EmptyString -> key ≠ "dev-key" ->
  handler w sessionState req
  = respond sessionState [] 403 [("error", Js.VStr "Invalid API key")].
Proof.
  unfold handler, gateway. intros -> Hne Hdev. simpl.
  rewrite (eqb_empty_false _ Hne).
  by apply String.eqb_neq in Hdev as ->.
Qed.

Lemma session_gateway_incomplete w sessionState (req : Request Envelope.t) envelope :
  x_api_key req = Some "dev-key" -> body req = Some envelope ->
  JsString.falsy (Envelope.sessionId envelope) = true
  \/ JsString.falsy (Envelope.message envelope ≫= Message.text) = true ->
  handler w sessionState req
  = respond sessionState [] 200
      [("status", Js.VStr "success");
       ("reply", Js.VStr "Can you explain this message?")].
Proof.
  unfold handler, gateway. intros -> -> Hfalsy. simpl.
  destruct (Envelope.sessionId envelope) as [sid|];
    destruct (Envelope.message envelope ≫= Message.text) as [text|];
    simpl in *; try done.
  destruct Hfalsy as [-> | ->]; [done | by rewrite orb_true_r].
Qed.

(** C6, as the handlers have it.  The session endpoint checks no method: it
    answers 401 when the credential header is missing or empty, 403 when it
    holds anything but the key, and 200 with the fixed reply "Can you
    explain this message?" (never 400) when the envelope lacks a non-empty
    session id or message text.  The classifier endpoint answers any GET
    with 200, any method other than GET and POST with 405, a POST whose
    credential is missing or wrong with 401 (never 403), and an authorized
    POST without a non-empty [text] with 400. *)
Theorem gateway_status_codes :
  (forall w sessionState (req : Request Envelope.t),
     JsString.falsy (x_api_key req) = true ->
     outcome (handler w sessionState req)
     = Sent {| status := 401;
               json := Js.VObj [("error", Js.VStr "x-api-key missing")] |})
  /\ (forall w sessionState (req : Request Envelope.t) key,
        x_api_key req = Some key -> key ≠ EmptyString -> key ≠ "dev-key" ->
        outcome (handler w sessionState req)
        = Sent {| status := 403;
                  json := Js.VObj [("error", Js.VStr "Invalid API key")] |})
  /\ (forall w sessionState (req : Request Envelope.t) envelope,
        x_api_key req = Some "dev-key" -> body req = Some envelope ->
        JsString.falsy (Envelope.sessionId envelope) = true
        \/ JsString.falsy (Envelope.message envelope ≫= Message.text) = true ->
        outcome (handler w sessionState req)
        = Sent {| status := 200;
                  json := success_body (Js.VStr "Can you explain this message?") |}
        /\ store (handler w sessionState req) = sessionState
        /\ trace (handler w sessionState req) = [])
  /\ (forall JSON_parse run (req : Request Classifier.Body),
        method req = "GET" ->
        Classifier.outcome (Classifier.handler JSON_parse run req)
        = Sent {| status := 200; json := Js.VObj [("status", Js.VStr "ok")] |})
  /\ (forall JSON_parse run (req : Request Classifier.Body),
        method req ≠ "GET" -> method req ≠ "POST" ->
        Classifier.outcome (Classifier.handler JSON_parse run req)
        = Sent {| status := 405;
                  json := Js.VObj [("error", Js.VStr "Method not allowed")] |})
  /\ (forall JSON_parse run (req : Request Classifier.Body),
        method req = "POST" -> x_api_key req ≠ Some "dev-key" ->
        Classifier.outcome (Classifier.handler JSON_parse run req)
        = Sent {| status := 401; json := Js.VObj [("error", Js.VStr "Unauthorized")] |})
  /\ (forall JSON_parse run (req : Request Classifier.Body) b,
        method req = "POST" -> x_api_key req = Some "dev-key" ->
        body req = Some b -> JsString.falsy (Classifier.text b) = true ->
        Classifier.outcome (Classifier.handler JSON_parse run req)
        = Sent {| status := 400;
                  json := Js.VObj [("error", Js.VStr "Text is required")] |}).
Proof.
  split_and!.
  - intros w sessionState req H. by rewrite session_gateway_missing_key.
  - intros w sessionState req key H Hne Hdev.
    by rewrite (session_gateway_invalid_key _ _ _ _ H Hne Hdev).
  - intros w sessionState req envelope Hkey Hbody Hfalsy.
    by rewrite (session_gateway_incomplete _ _ _ _ Hkey Hbody Hfalsy).
  - intros JSON_parse run req Hm. unfold Classifier.handler. by rewrite Hm.
  - intros JSON_parse run req Hget Hpost. unfold Classifier.handler.
    apply String.eqb_neq in Hget, Hpost. by rewrite Hget, Hpost.
  - intros JSON_parse run req Hm Hkey. unfold Classifier.handler. rewrite Hm. simpl.
    destruct (x_api_key req) as [key|]; [|done]. simpl.
    destruct (String.eqb_spec key "dev-key") as [-> | _]; done.
  - intros JSON_parse run req b Hm Hkey Hbody Hfalsy.
    unfold Classifier.handler. by rewrite Hm, Hkey, Hbody, Hfalsy.
Qed.

End Gateway.

(** C6 fails as stated.  On the session endpoint an authorized POST without
    [message.text] is answered 200, and a GET probe without credential 401;
    on the classifier endpoint a wrong credential is answered 401. *)
Lemma gateway_codes_differ :
  outcome (handler Sample.offline ∅ (Sample.post_without_message "s1"))
  = Sent {| status := 200;
            json := success_body (Js.VStr "Can you explain this message?") |}
  /\ outcome (handler Sample.offline ∅ Sample.probe)
     = Sent {| status := 401;
               json := Js.VObj [("error", Js.VStr "x-api-key missing")] |}
  /\ Classifier.outcome
       (Classifier.handler Sample.no_json FetchRejects
          (Sample.classify (Some "wrong-key") (Some "hello")))
     = Sent {| status := 401; json := Js.VObj [("error", Js.VStr "Unauthorized")] |}.
Proof. split_and!; reflexivity. Qed.

Lemma gateway_status_codes_witness :
  outcome (handler Sample.offline ∅
             {| method := "POST"; x_api_key := Some "guess"; body := None |})
  = Sent {| status := 403; json := Js.VObj [("error", Js.VStr "Invalid API key")] |}
  /\ Classifier.outcome
       (Classifier.handler Sample.no_json FetchRejects
          (Sample.classify (Some "dev-key") None))
     = Sent {| status := 400; json := Js.VObj [("error", Js.VStr "Text is required")] |}.
Proof.
  destruct gateway_status_codes as (_ & Hinvalid & _ & _ & _ & _ & Hno_text).
  split.
  - apply (Hinvalid Sample.offline ∅
             {| method := "POST"; x_api_key := Some "guess"; body := None |} "guess");
      [reflexivity | discriminate | discriminate].
  - apply (Hno_text Sample.no_json FetchRejects
             (Sample.classify (Some "dev-key") None) {| Classifier.text := None |});
      reflexivity.
Defined.

(** * The indicator extractor *)
Section Extractor.

Implicit Types (text tag : string) (state : Session.t).

Lemma test_not_mentions (words : list string) text :
  JsString.test words (JsString.toLowerCase text) = false <-> ~ mentions words text.
Proof. rewrite <- test_mentions. by destruct (JsString.test _ _). Qed.

Lemma extract_lower text text' :
  JsString.toLowerCase text = JsString.toLowerCase text' -> extract text = extract text'.
Proof. unfold extract, extraction. by intros ->. Qed.

Ltac rule_cases :=
  unfold extract, extraction;
  repeat match goal with
         | |- context [JsString.test ?words (JsString.toLowerCase ?text)] =>
             let H := fresh "Hrule" in
             destruct (JsString.test words (JsString.toLowerCase text)) eqn:H;
             [apply test_mentions in H | apply test_not_mentions in H]
         end;
  cbn;
  rewrite ?elem_of_cons, ?elem_of_nil;
  intuition (subst; first [done | congruence | tauto]).

Lemma extract_requestedData text tag :
  tag ∈ (extract text).2
  <-> (tag = "OTP" /\ mentions ["otp"; "one time password"] text)
      \/ (tag = "Bank Details" /\ mentions ["upi"; "account number"; "bank"] text).
Proof. rule_cases. Qed.

Lemma extract_scamIndicators text tag :
  tag ∈ (extract text).1
  <-> (tag = "Phishing Link" /\ mentions ["link"; "click"] text)
      \/ (tag = "Threat / Urgency"
          /\ mentions ["blocked"; "suspended"; "urgent"; "hours"] text)
      \/ (tag = "Lottery Scam" /\ mentions ["won"; "prize"; "reward"] text).
Proof. rule_cases. Qed.

(** C7. The extractor is a function of the text alone: what the extraction
    block adds to a session's sets is [extract text], whatever the session,
    and it touches nothing else.  It is case-insensitive: texts with the same
    lower case, and so texts that differ only in the case of their letters
    [A-Z], give the same tags.  It follows the rule table: a tag is found
    exactly when the lower-cased text contains one of the words of its rule.
    On the two sample texts it yields the stated tags, and a text that spells
    "link" with U+212A KELVIN SIGN is a phishing link as well. *)
Theorem extractor_follows_rule_table :
  (forall text state tag,
     (tag ∈ Session.scamIndicators (extraction text state)
      <-> tag ∈ Session.scamIndicators state \/ tag ∈ (extract text).1)
     /\ (tag ∈ Session.requestedData (extraction text state)
         <-> tag ∈ Session.requestedData state \/ tag ∈ (extract text).2)
     /\ Session.turns (extraction text state) = Session.turns state
     /\ Session.finalized (extraction text state) = Session.finalized state)
  /\ (forall text text',
        JsString.toLowerCase text = JsString.toLowerCase text' ->
        extract text = extract text')
  /\ (forall text text',
        JsString.fold_case text = JsString.fold_case text' ->
        extract text = extract text')
  /\ (forall text tag,
        tag ∈ (extract text).2
        <-> (tag = "OTP" /\ mentions ["otp"; "one time password"] text)
            \/ (tag = "Bank Details"
                /\ mentions ["upi"; "account number"; "bank"] text))
  /\ (forall text tag,
        tag ∈ (extract text).1
        <-> (tag = "Phishing Link" /\ mentions ["link"; "click"] text)
            \/ (tag = "Threat / Urgency"
                /\ mentions ["blocked"; "suspended"; "urgent"; "hours"] text)
            \/ (tag = "Lottery Scam" /\ mentions ["won"; "prize"; "reward"] text))
  /\ extract "Your account will be blocked in 24 hours, share OTP now"
     = (["Threat / Urgency"], ["OTP"])
  /\ extract "Congrats you won a prize, click this link"
     = (["Phishing Link"; "Lottery Scam"], [])
  /\ (extract "Congrats you won a prize, click this link").1
     ≡ₚ ["Lottery Scam"; "Phishing Link"]
  /\ extract Sample.link_with_kelvin_sign = (["Phishing Link"], []).
Proof.
  split_and!.
  - intros text state tag. split_and!.
    + apply extraction_scamIndicators.
    + apply extraction_requestedData.
    + apply extraction_turns.
    + apply extraction_finalized.
  - apply extract_lower.
  - intros text text' Hfold. by apply extract_lower, toLowerCase_same_fold.
  - apply extract_requestedData.
  - apply extract_scamIndicators.
  - vm_compute. reflexivity.
  - vm_compute. reflexivity.
  - change ((extract "Congrats you won a prize, click this link").1)
      with ["Phishing Link"; "Lottery Scam"].
    apply Permutation_swap.
  - vm_compute. reflexivity.
Qed.

End Extractor.

(** * Further properties of the session endpoint *)
Section SessionEndpoint.
Import Watch.

Implicit Types (w : World) (req : Request Envelope.t).
Implicit Types (arrivals : list (World * Request Envelope.t)).
Implicit Types (sessionState : gmap string Session.t) (state : Session.t).
Implicit Types (sid text tag : string) (texts : list string) (md : Metadata.t).
Implicit Types (p : Payload.t).

#[local] Arguments Nat.leb : simpl never.

Lemma handler_step_entry w sessionState req sid :
  builtin sid sessionState = false ->
  store (handler w sessionState req) !! sid
  = foldl step_entry (sessionState !! sid) (texts_for sid [(w, req)]).
Proof.
  intros Hb. rewrite handler_lookup, texts_for_cons by done.
  destruct (processed req) as [[[sid' text] md]|]; [case_bool_decide|]; done.
Qed.

Lemma final_serve_fold sid arrivals : forall sessionState,
  builtin sid sessionState = false ->
  final (serve arrivals sessionState) !! sid
  = foldl step_entry (sessionState !! sid) (texts_for sid arrivals).
Proof.
  induction arrivals as [|[w req] arrivals IH]; intros sessionState Hb; [done |].
  change ((w, req) :: arrivals) with ([(w, req)] ++ arrivals).
  rewrite texts_for_app, foldl_app, <- handler_step_entry by done. simpl.
  apply IH. by rewrite handler_builtin.
Qed.

(** An id that names a built-in has no entry, before or after. *)
Lemma final_serve_builtin sid arrivals sessionState :
  builtin sid sessionState = true ->
  final (serve arrivals sessionState) !! sid = None.
Proof.
  intros Hb.
  assert (builtin sid (final (serve arrivals sessionState)) = true) as Hb'
    by by rewrite serve_builtin.
  by apply builtin_true in Hb' as [? _].
Qed.

(** X1. The entry of a session in the store is determined by the entry it
    started from and the texts of its own processed messages, in order:
    two runs that agree on those leave the same entry, whatever the oracle
    answered, whatever other sessions received and whatever was rejected in
    between. *)
Theorem session_entry_depends_on_own_texts arrivals arrivals' sessionState sid :
  texts_for sid arrivals = texts_for sid arrivals' ->
  final (serve arrivals sessionState) !! sid
  = final (serve arrivals' sessionState) !! sid.
Proof.
  intros H. destruct (builtin sid sessionState) eqn:Hb.
  - by rewrite !final_serve_builtin.
  - by rewrite !final_serve_fold, H.
Qed.

Lemma handler_prompts w sessionState req :
  prompts_of (trace (handler w sessionState req))
  = match processed req with
    | Some (sid, text, _) =>
        if builtin sid sessionState
        then (if adds_a_tag text then [] else [geminiPrompt baseReply_NaN])
        else [geminiPrompt (baseReply (turns_of sid sessionState + 1))]
    | None => []
    end.
Proof.
  destruct (processed req) as [[[sid text] md]|] eqn:Hp.
  - rewrite (handler_processed _ _ _ _ _ _ Hp).
    destruct (builtin sid sessionState) eqn:Hb.
    + rewrite (converse_builtin _ _ _ _ _ Hb). by destruct (adds_a_tag text).
    + rewrite (converse_unfold _ _ _ _ _ Hb).
      unfold respond, prompts_of; simpl. rewrite finalization_callback.
      unfold counted, turns_of. rewrite extraction_turns. simpl.
      assert (Session.turns (default newSession (sessionState !! sid))
              = match sessionState !! sid with
                | Some state => Session.turns state
                | None => 0
                end) as -> by by destruct (sessionState !! sid).
      f_equal. by destruct (_ && _).
  - by destruct (handler_not_processed w sessionState req Hp) as [_ ->].
Qed.

Lemma baseReply_rows (turns : nat) :
  exists k, 1 <= k <= 4 /\ baseReply turns = baseReply k.
Proof.
  destruct turns as [|[|[|[|n]]]];
    [exists 4 | exists 1 | exists 2 | exists 3 | exists 4]; (split; [lia | done]).
Qed.

(** X2. The oracle is asked at most once for a request: once for a
    processed message, except that it is not asked at all when the message's
    id names a built-in of the store and a rule matches its text, the handler
    having thrown by then; never for any other request.  What it is sent is
    one of four fixed prompts: for a session of the store or a new one, the
    one quoting the baseline of the session's new turn count, and for an id
    that names a built-in, the one quoting the last baseline.  The text of
    the inbound message never reaches the oracle. *)
Theorem oracle_asked_once_with_a_fixed_prompt arrivals sessionState :
  (forall w req,
     prompts_of (trace (handler w sessionState req))
     = match processed req with
       | Some (sid, text, _) =>
           if builtin sid sessionState
           then (if adds_a_tag text then [] else [geminiPrompt baseReply_NaN])
           else [geminiPrompt (baseReply (turns_of sid sessionState + 1))]
       | None => []
       end)
  /\ (forall prompt,
        prompt ∈ prompts_of (calls (serve arrivals sessionState)) ->
        exists k, 1 <= k <= 4 /\ prompt = geminiPrompt (baseReply k)).
Proof.
  split; [intros; apply handler_prompts |].
  revert sessionState.
  induction arrivals as [|[w req] arrivals IH]; intros sessionState prompt Hin; simpl in Hin.
  - by apply elem_of_nil in Hin.
  - unfold prompts_of in Hin. rewrite omap_app in Hin.
    apply elem_of_app in Hin as [Hin | Hin].
    + fold (prompts_of (trace (handler w sessionState req))) in Hin.
      rewrite handler_prompts in Hin.
      destruct (processed req) as [[[sid text] md]|]; [|by apply elem_of_nil in Hin].
      destruct (builtin sid sessionState).
      * destruct (adds_a_tag text); [by apply elem_of_nil in Hin |].
        apply list_elem_of_singleton in Hin as ->. exists 4. split; [lia | done].
      * apply list_elem_of_singleton in Hin as ->.
        destruct (baseReply_rows (turns_of sid sessionState + 1)) as (k & Hk & ->).
        by exists k.
    + by eapply IH.
Qed.

(** X3. A request that is not processed has no effect: the store is the
    one it found, and neither the oracle nor the evaluation endpoint is
    called. *)
Theorem rejected_request_has_no_effect w sessionState req :
  processed req = None ->
  store (handler w sessionState req) = sessionState
  /\ trace (handler w sessionState req) = []
  /\ forall sid, texts_for sid [(w, req)] = [].
Proof.
  intros Hp. destruct (handler_not_processed w sessionState req Hp) as [Hs Ht].
  split_and!; [done.. |]. intros sid. by rewrite texts_for_cons, Hp.
Qed.

Lemma gateway_throws req :
  gateway req = Throws <-> x_api_key req = Some "dev-key" /\ body req = None.
Proof.
  unfold gateway. destruct (x_api_key req) as [key|]; simpl; [|by split; [|intros []]].
  destruct (String.eqb_spec key EmptyString) as [-> | Hne]; [by split; [|intros []] |].
  destruct (String.eqb_spec key "dev-key") as [-> | Hdev]; simpl.
  - destruct (body req) as [envelope|]; [|done].
    split; [|by intros []]. by repeat case_match.
  - split; [done | intros [[=] _]; done].
Qed.

(** X4. For a request whose body, if it has one, is an envelope of the
    documented types, the handler throws in two cases only: the credential
    is right and the request has no body; or the message is processed, its
    session id names a built-in of the store, and a rule matches its text.
    Every other request is answered. *)
Theorem handler_throws_in_two_cases w sessionState req :
  outcome (handler w sessionState req) = Uncaught
  <-> (x_api_key req = Some "dev-key" /\ body req = None)
      \/ exists sid text md,
           processed req = Some (sid, text, md)
           /\ builtin sid sessionState = true /\ adds_a_tag text = true.
Proof.
  destruct (processed req) as [[[sid text] md]|] eqn:Hp.
  - pose proof Hp as Hg%gateway_processed.
    rewrite (handler_processed _ _ _ _ _ _ Hp). split.
    + intros Hthrown. right. exists sid, text, md. split; [done |].
      destruct (builtin sid sessionState) eqn:Hb.
      * rewrite (converse_builtin _ _ _ _ _ Hb) in Hthrown.
        by destruct (adds_a_tag text).
      * by rewrite (converse_unfold _ _ _ _ _ Hb) in Hthrown.
    + intros [Hno | (sid' & text' & md' & [= <- <- <-] & Hb & Htag)].
      * apply gateway_throws in Hno. congruence.
      * by rewrite (converse_builtin _ _ _ _ _ Hb), Htag.
  - unfold handler. rewrite <- gateway_throws.
    destruct (gateway_not_processed req Hp) as [-> | [r ->]]; simpl.
    + split; [by left | done].
    + split; [done | intros [[=] | (? & ? & ? & [=] & _)]].
Qed.

Lemma handler_rejected_any_world w w' sessionState req :
  processed req = None ->
  handler w sessionState req = handler w' sessionState req.
Proof.
  intros Hp. unfold handler.
  by destruct (gateway_not_processed req Hp) as [-> | [r ->]].
Qed.

(** X5. The world decides the reply and nothing else: under two different
    worlds the same request on the same store leaves the same store and
    makes the same outgoing calls, the callback with the same report
    included; a lost callback is not noticed. *)
Theorem world_only_shapes_reply w w' sessionState req :
  store (handler w sessionState req) = store (handler w' sessionState req)
  /\ trace (handler w sessionState req) = trace (handler w' sessionState req)
  /\ (gemini w = gemini w' ->
      handler w sessionState req = handler w' sessionState req).
Proof.
  destruct (processed req) as [[[sid text] md]|] eqn:Hp.
  - rewrite !(handler_processed _ _ _ _ _ _ Hp).
    destruct (builtin sid sessionState) eqn:Hb.
    + rewrite !(converse_builtin _ _ _ _ _ Hb).
      destruct (adds_a_tag text); [done |].
      split_and!; [done.. |]. intros Hsame. by rewrite Hsame.
    + rewrite !(converse_unfold _ _ _ _ _ Hb).
      unfold respond; simpl. rewrite !finalization_callback.
      split_and!; [done.. |]. intros Hsame. by rewrite Hsame.
  - destruct (handler_not_processed w sessionState req Hp) as [-> ->].
    destruct (handler_not_processed w' sessionState req Hp) as [-> ->].
    split_and!; [done.. |]. intros _. by apply handler_rejected_any_world.
Qed.

End SessionEndpoint.

Section StoredSessions.
Import Watch.

Implicit Types (w : World) (req : Request Envelope.t).
Implicit Types (arrivals : list (World * Request Envelope.t)).
Implicit Types (sessionState : gmap string Session.t) (state : Session.t).
Implicit Types (sid text tag : string) (texts : list string) (md : Metadata.t).
Implicit Types (p : Payload.t).

#[local] Arguments Nat.leb : simpl never.





Lemma extraction_prefix text state :
  Session.scamIndicators state `prefix_of` Session.scamIndicators (extraction text state)
  /\ Session.requestedData state `prefix_of` Session.requestedData (extraction text state).
Proof.
  unfold extraction.
  repeat case_match; simpl; split;
    repeat first [reflexivity | etrans; [|apply add_prefix]].
Qed.

Lemma foldl_advance_prefix texts : forall state,
  Session.scamIndicators state
    `prefix_of` Session.scamIndicators (foldl (fun state text => advance text state) state texts)
  /\ Session.requestedData state
    `prefix_of` Session.requestedData (foldl (fun state text => advance text state) state texts).
Proof.
  induction texts as [|text texts IH]; intros state; simpl; [done |].
  destruct (IH (advance text state)) as [Hi Hd].
  rewrite advance_scamIndicators in Hi. rewrite advance_requestedData in Hd.
  destruct (extraction_prefix text state) as [Hi' Hd'].
  split; by etrans.
Qed.

(** X7. The two lists of a session are append-only: after any further
    requests each list starts with the list it was, so a tag keeps the
    position it had in the report order. *)
Theorem session_lists_are_append_only arrivals sessionState sid state :
  sessionState !! sid = Some state ->
  exists state',
    final (serve arrivals sessionState) !! sid = Some state'
    /\ Session.scamIndicators state `prefix_of` Session.scamIndicators state'
    /\ Session.requestedData state `prefix_of` Session.requestedData state'.
Proof.
  intros Hst. eexists. split; [by apply final_serve_some |].
  apply foldl_advance_prefix.
Qed.

Lemma or_else_nonempty (s : option string) (fallback : string) :
  fallback ≠ EmptyString -> JsString.or_else s fallback ≠ EmptyString.
Proof.
  intros Hf. unfold JsString.or_else. destruct s as [s|]; [|done].
  by destruct (String.eqb_spec s EmptyString).
Qed.

(** X8. A report names the session of the request that sent it and
    carries that request's metadata, each of channel, language and locale
    replaced by "Unknown" when missing or empty; none of the three is ever
    empty. *)
Theorem report_carries_request_metadata w sessionState req p :
  GuviCallback p ∈ trace (handler w sessionState req) ->
  exists text md,
    processed req = Some (Payload.sessionId p, text, md)
    /\ Payload.channel p = JsString.or_else (Metadata.channel md) "Unknown"
    /\ Payload.language p = JsString.or_else (Metadata.language md) "Unknown"
    /\ Payload.locale p = JsString.or_else (Metadata.locale md) "Unknown"
    /\ Payload.channel p ≠ EmptyString
    /\ Payload.language p ≠ EmptyString
    /\ Payload.locale p ≠ EmptyString.
Proof.
  intros Hin.
  assert (p ∈ callbacks_for (Payload.sessionId p) (trace (handler w sessionState req)))
    as Hp by by apply elem_of_callbacks_for.
  rewrite handler_callbacks_any in Hp.
  destruct (processed req) as [[[sid' text] md]|]; [|by apply elem_of_nil in Hp].
  simpl in Hp. case_bool_decide as Hsid; [|by apply elem_of_nil in Hp]. subst sid'.
  simpl in Hp. case_match; [|by apply elem_of_nil in Hp].
  apply list_elem_of_singleton in Hp. exists text, md.
  pose proof (f_equal Payload.channel Hp) as Hc.
  pose proof (f_equal Payload.language Hp) as Hl.
  pose proof (f_equal Payload.locale Hp) as Ho.
  simpl in Hc, Hl, Ho. rewrite Hc, Hl, Ho.
  split_and!; try done; by apply or_else_nonempty.
Qed.

(** X9. When the oracle is asked and answers in its documented shape, the
    reply is the text of the first part of the first candidate, word for
    word, whatever other fields, parts and candidates the answer has. *)
Theorem first_part_of_first_candidate_is_the_reply
    w sessionState req sid text md fields cfields cs content pfields ps t :
  processed req = Some (sid, text, md) ->
  prompts_of (trace (handler w sessionState req)) ≠ [] ->
  gemini w = Parsed (Js.VObj fields) ->
  Js.own "candidates" fields = Js.VArr (Js.VObj cfields :: cs) ->
  Js.own "content" cfields = Js.VObj content ->
  Js.own "parts" content = Js.VArr (Js.VObj pfields :: ps) ->
  Js.own "text" pfields = Js.VStr t ->
  t ≠ EmptyString ->
  outcome (handler w sessionState req)
  = Sent {| status := 200; json := success_body (Js.VStr t) |}.
Proof.
  intros Hp Hasked Hw Hc Hcontent Hparts Htext Hne.
  destruct (handler_answer w sessionState req sid text md Hp)
    as [(Hthrown & _) | (base & _ & Hout & _)].
  - by rewrite Hthrown in Hasked.
  - rewrite Hout, Hw. unfold generateGeminiReply.
    simpl. rewrite Hc. simpl. rewrite Hcontent. simpl. rewrite Hparts. simpl.
    rewrite Htext. unfold Js.or. simpl. by rewrite eqb_empty_false.
Qed.

Lemma final_serve_is_Some sid arrivals sessionState :
  is_Some (sessionState !! sid) -> is_Some (final (serve arrivals sessionState) !! sid).
Proof.
  intros [state Hst]. by rewrite (final_serve_some _ _ _ _ Hst).
Qed.

(** X10. A session is created by its first processed message, unless its
    id is a name the store inherits, and is never removed: from the empty
    store a session is stored exactly when its id is a name of its own and
    one of its messages was processed, and whatever the store, every session
    in it is still there after any further requests. *)
Theorem session_created_once_and_kept arrivals sid :
  (is_Some (final (serve arrivals ∅) !! sid)
   <-> Js.inherited sid = false /\ texts_for sid arrivals ≠ [])
  /\ (forall sessionState,
        is_Some (sessionState !! sid) ->
        is_Some (final (serve arrivals sessionState) !! sid))
  /\ (forall sessionState, dom sessionState ⊆ dom (final (serve arrivals sessionState))).
Proof.
  split_and!.
  - destruct (Js.inherited sid) eqn:Hin.
    + rewrite (final_serve_inherited _ _ Hin). split; [by intros [] | by intros []].
    + rewrite final_serve by done. destruct (texts_for sid arrivals); simpl.
      * split; [by intros [] | by intros []].
      * split; [done | by eexists].
  - intros sessionState. apply final_serve_is_Some.
  - intros sessionState sid'. rewrite !elem_of_dom. apply final_serve_is_Some.
Qed.

End StoredSessions.

(** Concrete instances for the session endpoint. *)
Lemma session_entry_depends_on_own_texts_witness :
  final (serve [(Sample.offline, Sample.post "s1" "hello")] ∅) !! "s1"
  = final (serve [(Sample.answering "Hi", Sample.post "s2" "click the link");
                  (Sample.offline, Sample.probe);
                  (Sample.answering "Which account?", Sample.post "s1" "hello")] ∅)
    !! "s1".
Proof.
  apply (session_entry_depends_on_own_texts
           [(Sample.offline, Sample.post "s1" "hello")]
           [(Sample.answering "Hi", Sample.post "s2" "click the link");
            (Sample.offline, Sample.probe);
            (Sample.answering "Which account?", Sample.post "s1" "hello")]
           ∅ "s1").
  reflexivity.
Defined.

Lemma rejected_request_has_no_effect_witness :
  store (handler Sample.offline (final (serve Sample.three_greetings ∅))
           (Sample.post_without_message "s1"))
  = final (serve Sample.three_greetings ∅).
Proof.
  destruct (rejected_request_has_no_effect Sample.offline
              (final (serve Sample.three_greetings ∅))
              (Sample.post_without_message "s1")) as [Hstore _].
  - reflexivity.
  - exact Hstore.
Defined.


Lemma session_lists_are_append_only_witness :
  exists state',
    final (serve [(Sample.offline, Sample.post "s1" "you won a prize, click here")]
             (store (handler Sample.offline ∅ (Sample.post "s1" "act now, urgent"))))
      !! "s1" = Some state'
    /\ ["Threat / Urgency"] `prefix_of` Session.scamIndicators state'.
Proof.
  destruct (session_lists_are_append_only
              [(Sample.offline, Sample.post "s1" "you won a prize, click here")]
              (store (handler Sample.offline ∅ (Sample.post "s1" "act now, urgent")))
              "s1"
              {| Session.turns := 1; Session.scamIndicators := ["Threat / Urgency"];
                 Session.requestedData := []; Session.finalized := false |})
    as (state' & Hfinal & Hprefix & _).
  - vm_compute. reflexivity.
  - exists state'. split; [exact Hfinal | exact Hprefix].
Defined.

Lemma report_carries_request_metadata_witness :
  exists text md,
    processed (Watch.post_with "s1" "please answer"
                 {| Metadata.channel := Some "SMS"; Metadata.language := None;
                    Metadata.locale := Some EmptyString |})
    = Some ("s1", text, md)
    /\ JsString.or_else (Metadata.channel md) "Unknown" = "SMS"
    /\ JsString.or_else (Metadata.locale md) "Unknown" = "Unknown".
Proof.
  destruct (report_carries_request_metadata Sample.offline
              (final (serve Sample.three_greetings ∅))
              (Watch.post_with "s1" "please answer"
                 {| Metadata.channel := Some "SMS"; Metadata.language := None;
                    Metadata.locale := Some EmptyString |})
              {| Payload.sessionId := "s1"; Payload.scamDetected := true;
                 Payload.scamIndicators := []; Payload.requestedSensitiveData := [];
                 Payload.channel := "SMS"; Payload.language := "Unknown";
                 Payload.locale := "Unknown"; Payload.totalTurns := 4 |})
    as (text & md & Hp & Hc & _ & Hl & _).
  - apply list_elem_of_In. vm_compute. right. left. reflexivity.
  - exists text, md. split_and!; [exact Hp | by rewrite <- Hc | by rewrite <- Hl].
Defined.

Lemma first_part_of_first_candidate_is_the_reply_witness :
  outcome (handler {| gemini := Parsed Watch.long_answer; guvi_resolves := true |} ∅
             (Sample.post "s1" "hello"))
  = Sent {| status := 200; json := success_body (Js.VStr "Who is this?") |}.
Proof.
  eapply (first_part_of_first_candidate_is_the_reply
            {| gemini := Parsed Watch.long_answer; guvi_resolves := true |} ∅
            (Sample.post "s1" "hello") "s1" "hello" Metadata.none);
    [reflexivity | discriminate | reflexivity | reflexivity | reflexivity
     | reflexivity | reflexivity | discriminate].
Defined.

(** * The stateless endpoints *)
Section StatelessEndpoints.

Implicit Types (run : OracleRun) (JSON_parse : Js.value -> option Js.value).

#[local] Arguments Js.optional_chain : simpl never.

Lemma strict_eq_Some (key : option string) (k : string) :
  JsString.strict_eq key k = true <-> key = Some k.
Proof.
  destruct key as [s|]; simpl; [|done].
  destruct (String.eqb_spec s k); split; congruence.
Qed.

Lemma falsy_Some_nonempty (s : option string) :
  JsString.falsy s = false <-> exists t, s = Some t /\ t ≠ EmptyString.
Proof.
  destruct s as [t|]; simpl.
  - destruct (String.eqb_spec t EmptyString) as [-> | Hne].
    + split; [done | intros (t & [= <-] & H); done].
    + split; [by exists t | done].
  - split; [done | by intros (t & H & _)].
Qed.

(** A pattern of words with the flag [i]. *)
Lemma test_folded (words : list string) (text : string) :
  JsString.test words (JsString.fold_case text) = true <-> Tester.mentions words text.
Proof.
  rewrite test_includes. unfold Tester.mentions. split.
  - intros (word & Hin & Hinc). apply includes_app in Hinc as (before & after & H).
    by exists word, before, after.
  - intros (word & before & after & Hin & H). exists word. split; [done |].
    apply includes_app. by exists before, after.
Qed.

(** X11. Once a request has passed its checks the classifier asks the
    oracle once, with the prompt that quotes the request text.  A call that
    fails (rejected fetch, answer that is not JSON) is answered 500 "Gemini
    failed"; an answer is answered 200 with whatever [JSON.parse] makes of
    its text, unchecked, and with the not-a-scam fallback when the text does
    not parse, in particular when the answer carries no text and the parser
    rejects the empty string. *)
Theorem classifier_surfaces_failed_calls_absorbs_bad_answers
    JSON_parse run (req : Request Classifier.Body) b t :
  method req = "POST" ->
  x_api_key req = Some "dev-key" ->
  body req = Some b ->
  Classifier.text b = Some t ->
  t ≠ EmptyString ->
  Classifier.asked (Classifier.handler JSON_parse run req) = [Classifier.prompt t]
  /\ (run = FetchRejects \/ run = JsonRejects ->
      Classifier.outcome (Classifier.handler JSON_parse run req)
      = Sent {| status := 500; json := Js.VObj [("error", Js.VStr "Gemini failed")] |})
  /\ (forall data,
        run = Parsed data ->
        Classifier.outcome (Classifier.handler JSON_parse run req)
        = Sent {| status := 200;
                  json := default Classifier.fallback
                            (JSON_parse (Js.or (Js.optional_chain data text_path)
                                               (Js.VStr EmptyString))) |})
  /\ (fails run ->
      JSON_parse (Js.VStr EmptyString) = None ->
      forall data,
        run = Parsed data ->
        Classifier.outcome (Classifier.handler JSON_parse run req)
        = Sent {| status := 200; json := Classifier.fallback |}).
Proof.
  intros Hm Hkey Hbody Htext Hne. unfold Classifier.handler.
  rewrite Hm, Hkey, Hbody, Htext. simpl. rewrite (eqb_empty_false _ Hne).
  split_and!.
  - by destruct run.
  - by intros [-> | ->].
  - by intros data ->.
  - intros Hfails Hparse data ->. unfold Js.or.
    pose proof (fails_no_reply _ Hfails) as Hf. unfold generateGeminiReply in Hf.
    by rewrite Hf, Hparse.
Qed.

(** X12. The classifier asks the oracle only for a POST with the right
    credential and a non-empty text, and it throws only for a POST with the
    right credential and no body. *)
Theorem classifier_asks_only_checked_requests
    JSON_parse run (req : Request Classifier.Body) :
  (Classifier.asked (Classifier.handler JSON_parse run req) ≠ []
   <-> method req = "POST" /\ x_api_key req = Some "dev-key"
       /\ exists b t, body req = Some b /\ Classifier.text b = Some t /\ t ≠ EmptyString)
  /\ (Classifier.outcome (Classifier.handler JSON_parse run req) = Uncaught
      <-> method req = "POST" /\ x_api_key req = Some "dev-key" /\ body req = None).
Proof.
  unfold Classifier.handler.
  destruct (String.eqb_spec (method req) "GET") as [Hget | Hget].
  { rewrite Hget. simpl. split; split; try done; intros [[=] _]. }
  destruct (String.eqb_spec (method req) "POST") as [Hpost | Hpost]; simpl.
  2: { split; split; try done; by intros [? _]. }
  destruct (JsString.strict_eq (x_api_key req) "dev-key") eqn:Hkey; simpl.
  2: { assert (x_api_key req ≠ Some "dev-key") as Hne
         by (intros H; apply strict_eq_Some in H; congruence).
       split; split; try done; by intros (_ & ? & _). }
  apply strict_eq_Some in Hkey.
  destruct (body req) as [b|]; simpl.
  2: { split; split; try done. by intros (_ & _ & b & t & [=] & _). }
  destruct (JsString.falsy (Classifier.text b)) eqn:Hfalsy; simpl.
  - split; split; try done; [|by intros (_ & _ & [=])].
    intros (_ & _ & b' & t & [= <-] & Ht & Hne).
    assert (JsString.falsy (Classifier.text b) = false) as Hf
      by (apply falsy_Some_nonempty; eauto).
    congruence.
  - apply falsy_Some_nonempty in Hfalsy as (t & Ht & Hne).
    split; split; try done.
    + intros _. split_and!; [done.. |]. by exists b, t.
    + by destruct run.
    + by destruct run.
    + by intros (_ & _ & [=]).
Qed.

(** X13. The keyword endpoint asks for no credential.  For a POST with a
    body it answers 200; with a text, [scam] is true exactly when the text
    contains "otp" in any letter case and the message says so; without a
    text, [scam] is [undefined], so the body on the wire has the single
    field [message = "Safe message"].  Any other method is answered 405, and
    a POST without a body throws. *)
Theorem keyword_endpoint_flags_otp (req : Request Mock.Body) :
  (method req ≠ "POST" ->
   Mock.handler req
   = Sent {| status := 405; json := Js.VObj [("error", Js.VStr "Method not allowed")] |})
  /\ (method req = "POST" -> body req = None -> Mock.handler req = Uncaught)
  /\ (forall b t,
        method req = "POST" -> body req = Some b -> Mock.text b = Some t ->
        (mentions ["otp"] t
         /\ Mock.handler req
            = Sent {| status := 200;
                      json := Js.VObj [("scam", Js.VBool true);
                                       ("message", Js.VStr "Scam detected")] |})
        \/ (~ mentions ["otp"] t
            /\ Mock.handler req
               = Sent {| status := 200;
                         json := Js.VObj [("scam", Js.VBool false);
                                          ("message", Js.VStr "Safe message")] |}))
  /\ (forall b,
        method req = "POST" -> body req = Some b -> Mock.text b = None ->
        exists v,
          Mock.handler req = Sent {| status := 200; json := v |}
          /\ Json.wire v = Js.VObj [("message", Js.VStr "Safe message")]).
Proof.
  unfold Mock.handler. split_and!.
  - intros Hm. by apply String.eqb_neq in Hm as ->.
  - by intros -> ->.
  - intros b t -> -> ->. simpl.
    destruct (JsString.includes "otp" (JsString.toLowerCase t)) eqn:Hinc; simpl.
    + left. split; [|done]. apply test_mentions. unfold JsString.test. simpl.
      by rewrite Hinc.
    + right. split; [|done]. apply test_not_mentions. unfold JsString.test. simpl.
      by rewrite Hinc.
  - intros b -> -> ->. simpl. by eexists.
Qed.

(** X14. The tester endpoint has no fallback for the oracle: for a request
    with the credential and a string text the handler throws exactly when
    the call is rejected, the answer is not JSON, or the answer is [null];
    otherwise it answers 200 with [scam], true exactly when the text
    contains "otp", "upi" or "blocked" in any letter case whatever the
    oracle said, and the oracle's text unchanged. *)
Theorem tester_endpoint_lets_oracle_failures_escape run (req : Request Tester.Body) b t :
  x_api_key req = Some "dev-key" ->
  body req = Some b ->
  Tester.text b = Js.VStr t ->
  Tester.asked (Tester.handler run req) = [t]
  /\ (Tester.outcome (Tester.handler run req) = Uncaught
      <-> run = FetchRejects \/ run = JsonRejects
          \/ exists data, run = Parsed data /\ Js.nullish data = true)
  /\ (forall data,
        run = Parsed data -> Js.nullish data = false ->
        Tester.outcome (Tester.handler run req)
        = Sent {| status := 200;
                  json := Js.VObj
                    [("scam", Js.VBool (Tester.scam t));
                     ("aiResponse",
                      Js.optional_chain (Js.access (Js.Field "candidates") data)
                        [Js.Index 0; Js.Field "content"; Js.Field "parts";
                         Js.Index 0; Js.Field "text"])] |})
  /\ (Tester.scam t = true <-> Tester.mentions ["otp"; "upi"; "blocked"] t).
Proof.
  intros Hkey Hbody Htext. unfold Tester.handler, Tester.aiResponse.
  rewrite Hkey, Hbody, Htext. simpl. split_and!.
  - destruct run as [| |data]; [done.. |]. by destruct (Js.nullish data).
  - destruct run as [| |data].
    + split; [by left | done].
    + split; [by right; left | done].
    + destruct (Js.nullish data) eqn:Hnull; simpl.
      * split; [|done]. intros _. right. right. by exists data.
      * split; [done |]. intros [[=] | [[=] | (data' & [= <-] & Hn)]]. congruence.
  - by intros data -> ->.
  - apply test_folded.
Qed.

(** X15. A request to the tester endpoint that carries the credential but
    no body, or a text that is not a string, gets the fixed answer
    [{status: "ok", authenticated: true, honeypot: true}] and the oracle is
    not asked; an empty string is a text and is sent to the oracle. *)
Theorem tester_mode_without_string_text run (req : Request Tester.Body) :
  x_api_key req = Some "dev-key" ->
  ((body req = None \/ exists b, body req = Some b /\ Js.is_string (Tester.text b) = false)
   <-> Tester.handler run req = Tester.tester_mode)
  /\ (forall b, body req = Some b -> Tester.text b = Js.VStr EmptyString ->
        Tester.asked (Tester.handler run req) = [EmptyString]).
Proof.
  intros Hkey. unfold Tester.handler, Tester.aiResponse. rewrite Hkey. simpl. split.
  - destruct (body req) as [b|]; [|by split; [|left]].
    destruct (Tester.text b) eqn:Htext;
      try (split; [done | intros _; right; exists b; by rewrite Htext]).
    split.
    + intros [[=] | (b' & [= <-] & H)]. by rewrite Htext in H.
    + destruct run as [| |data]; [done.. |]. by destruct (Js.nullish data).
  - intros b -> ->. destruct run as [| |data]; [done.. |]. by destruct (Js.nullish data).
Qed.

End StatelessEndpoints.

(** * Trimming *)
Section TextFacts.
Import JsText.

Implicit Types (w s rest : list ascii) (ws : list (list ascii)).

Lemma strip_app w s rest : strip w s = Some rest <-> s = w ++ rest.
Proof.
  revert s; induction w as [|a w IH]; intros [|b s]; simpl.
  - split; congruence.
  - split; congruence.
  - split; [done | discriminate].
  - destruct (Ascii.eqb_spec a b) as [-> | Hne].
    + rewrite IH. split; [by intros -> | by intros [= ->]].
    + split; [done | by intros [= -> _]].
Qed.

Lemma strip_any_None ws s :
  strip_any ws s = None <-> forall w, w ∈ ws -> strip w s = None.
Proof.
  induction ws as [|w ws IH]; simpl.
  - split; [by intros _ w H%elem_of_nil | done].
  - destruct (strip w s) as [rest|] eqn:Hw.
    + split; [done |]. intros H. rewrite (H w) in Hw; [done | left].
    + rewrite IH. split.
      * intros H w' [-> | Hin]%elem_of_cons; auto.
      * intros H w' Hin. apply H. by right.
Qed.

Lemma strip_any_Some ws s rest :
  strip_any ws s = Some rest -> exists w, w ∈ ws /\ s = w ++ rest.
Proof.
  induction ws as [|w ws IH]; simpl; [done |].
  destruct (strip w s) as [rest'|] eqn:Hw.
  - intros [= ->]. exists w. split; [left | by apply strip_app].
  - intros H. destruct (IH H) as (w' & Hin & Hs). exists w'. split; [by right | done].
Qed.

(** What is in front of a prefix is in front of the whole. *)
Lemma strip_any_None_prefix ws s tail :
  strip_any ws (s ++ tail) = None -> strip_any ws s = None.
Proof.
  rewrite !strip_any_None. intros H w Hin.
  destruct (strip w s) as [rest|] eqn:Hw; [|done].
  apply strip_app in Hw as ->.
  specialize (H w Hin). rewrite <- app_assoc in H.
  assert (strip w (w ++ rest ++ tail) = Some (rest ++ tail)) as Hs by by apply strip_app.
  congruence.
Qed.

Lemma strip_all_clean ws : Forall (fun w => w ≠ []) ws ->
  forall fuel s, length s <= fuel -> strip_any ws (strip_all fuel ws s) = None.
Proof.
  intros Hws. induction fuel as [|fuel IH]; intros s Hlen; simpl.
  - destruct s; [|simpl in Hlen; lia].
    apply strip_any_None. intros w Hin.
    rewrite Forall_forall in Hws. specialize (Hws w Hin). by destruct w.
  - destruct (strip_any ws s) as [rest|] eqn:Hs; [|done].
    apply IH. apply strip_any_Some in Hs as (w & Hin & ->).
    rewrite Forall_forall in Hws. specialize (Hws w Hin).
    rewrite length_app in Hlen. destruct w; [done | simpl in Hlen; lia].
Qed.

Lemma strip_all_suffix ws fuel : forall s,
  exists front, s = front ++ strip_all fuel ws s.
Proof.
  induction fuel as [|fuel IH]; intros s; simpl; [by exists [] |].
  destruct (strip_any ws s) as [rest|] eqn:Hs; [|by exists []].
  apply strip_any_Some in Hs as (w & _ & ->).
  destruct (IH rest) as [front Hfront]. exists (w ++ front).
  by rewrite <- app_assoc, <- Hfront.
Qed.

Lemma whitespace_nonempty : Forall (fun w => w ≠ []) whitespace.
Proof. apply Forall_forall. intros w Hin. by repeat apply elem_of_cons in Hin as [-> | Hin];
  [.. | apply elem_of_nil in Hin]. Qed.

Lemma rev_whitespace_nonempty :
  Forall (fun w => w ≠ []) (List.map (@rev ascii) whitespace).
Proof. apply Forall_forall. intros w Hin. by repeat apply elem_of_cons in Hin as [-> | Hin];
  [.. | apply elem_of_nil in Hin]. Qed.

Lemma trim_chars_clean s :
  strip_any whitespace (trimEnd_chars (trimStart_chars s)) = None
  /\ strip_any (List.map (@rev ascii) whitespace)
       (rev (trimEnd_chars (trimStart_chars s))) = None.
Proof.
  set (t := trimStart_chars s).
  assert (strip_any whitespace t = None) as Hstart
    by (apply strip_all_clean; [apply whitespace_nonempty | done]).
  unfold trimEnd_chars.
  set (r := strip_all (length t) (List.map (@rev ascii) whitespace) (rev t)).
  split.
  - destruct (strip_all_suffix (List.map (@rev ascii) whitespace) (length t) (rev t))
      as [front Hfront]. fold r in Hfront.
    apply (strip_any_None_prefix _ _ (rev front)).
    by rewrite <- rev_app_distr, <- Hfront, rev_involutive.
  - rewrite rev_involutive. apply strip_all_clean; [apply rev_whitespace_nonempty |].
    by rewrite length_rev.
Qed.

(** A trimmed string has no white space at either end. *)
Lemma trim_not_padded (s : string) : padded (trim s) = false.
Proof.
  unfold padded, trim. rewrite list_ascii_of_string_of_list_ascii.
  destruct (trim_chars_clean (list_ascii_of_string s)) as [-> ->]. done.
Qed.

End TextFacts.

(** * The conversational endpoint *)
Section DetectFacts.

Variable String_of : Js.value -> string.
Variable toUpperCase : string -> string.

Implicit Types (w : Detect.World) (req : Request Detect.Envelope).

#[local] Arguments Js.optional_chain : simpl never.

Lemma handler_validated w req text :
  Detect.validated w req text ->
  Detect.handler String_of toUpperCase w req
  = match Detect.historyText toUpperCase
            (default [] (Detect.conversationHistory
                           (default Detect.no_envelope (body req)))) with
    | None => Detect.caught []
    | Some historyText =>
        match Detect.gemini w with
        | FetchRejects | JsonRejects => Detect.caught [Detect.prompt historyText text]
        | Parsed geminiData =>
            match Detect.geminiReply String_of geminiData with
            | None => Detect.caught [Detect.prompt historyText text]
            | Some geminiReply =>
                Detect.send [Detect.prompt historyText text] 200
                  [("status", Js.VStr "success");
                   ("reply", Js.or geminiReply (Detect.fallback (Detect.random w)))]
            end
        end
    end.
Proof.
  intros (Hm & Hkey & Hserver & Htext & Hne). unfold Detect.handler.
  rewrite Hm, Hkey, Hserver, Htext. simpl. by rewrite (eqb_empty_false _ Hne).
Qed.

(** X16. The checks of the conversational endpoint, in their order, each
    answered without asking the oracle: a method other than POST gets 405;
    then a missing, empty or wrong credential gets 401; then a server
    without its oracle key gets 500, whatever the body; then a body without
    a non-empty message text gets 400. *)
Theorem detect_checks_in_order w req :
  (method req ≠ "POST" ->
   Detect.handler String_of toUpperCase w req
   = Detect.send [] 405 [("error", Js.VStr "Method not allowed")])
  /\ (method req = "POST" -> x_api_key req ≠ Some "dev-key" ->
      Detect.handler String_of toUpperCase w req
      = Detect.send [] 401 [("status", Js.VStr "error");
                            ("message", Js.VStr "Unauthorized: invalid x-api-key")])
  /\ (method req = "POST" -> x_api_key req = Some "dev-key" ->
      JsString.falsy (Detect.GEMINI_API_KEY w) = true ->
      Detect.handler String_of toUpperCase w req
      = Detect.send [] 500
          [("status", Js.VStr "error");
           ("message", Js.VStr "Gemini API key not configured on server")])
  /\ (method req = "POST" -> x_api_key req = Some "dev-key" ->
      JsString.falsy (Detect.GEMINI_API_KEY w) = false ->
      JsString.falsy
        (Detect.message (default Detect.no_envelope (body req))
           ≫= Honeypot.Message.text) = true ->
      Detect.handler String_of toUpperCase w req
      = Detect.send [] 400 [("error", Js.VStr "Invalid request body")]).
Proof.
  unfold Detect.handler. split_and!.
  - intros Hm. by apply String.eqb_neq in Hm as ->.
  - intros -> Hkey. simpl.
    destruct (JsString.falsy (x_api_key req)); [done |]. simpl.
    destruct (JsString.strict_eq (x_api_key req) "dev-key") eqn:Heq; [|done].
    by apply strict_eq_Some in Heq.
  - by intros -> -> ->.
  - intros -> -> -> Hfalsy. simpl.
    destruct (_ ≫= _) as [text|]; [|done]. simpl in Hfalsy. by rewrite Hfalsy.
Qed.

Lemma fallback_row (random : nat) :
  exists reply, Detect.fallback random = Js.VStr reply
                /\ reply ∈ Detect.fallbackReplies
                /\ reply ≠ EmptyString /\ JsText.padded reply = false.
Proof.
  unfold Detect.fallback.
  assert (random mod length Detect.fallbackReplies < 4) as Hlt
    by (apply Nat.mod_upper_bound; done).
  destruct (random mod length Detect.fallbackReplies) as [|[|[|[|n]]]]; [| | | |lia];
    simpl; eexists; (split; [reflexivity |]);
    (split; [set_solver | by split]).
Qed.

Lemma geminiReply_clean data v :
  Detect.geminiReply String_of data = Some v ->
  v = Js.VNull
  \/ exists reply, v = Js.VStr reply /\ reply ≠ EmptyString
                   /\ JsText.padded reply = false.
Proof.
  unfold Detect.geminiReply. case_match; [intros [= <-]; by left |].
  case_match; try done. destruct (mapM _ _) as [texts|]; simpl; [|done].
  intros [= <-]. unfold Js.or. simpl.
  destruct (String.eqb_spec (JsText.trim (JsText.join " " (Detect.joined String_of <$> texts)))
              EmptyString) as [-> | Hne]; simpl; [by left |].
  right. eexists. split_and!; [done.. |]. apply trim_not_padded.
Qed.

(** X17. Whenever the conversational endpoint answers 200, the reply is a
    string that is not empty and has no white space at either end: the
    oracle's text trimmed, or one of the four fallback replies when that
    text is missing or blank. *)
Theorem detect_reply_never_blank w req r :
  Detect.outcome (Detect.handler String_of toUpperCase w req) = Sent r ->
  status r = 200 ->
  exists reply,
    json r = Js.VObj [("status", Js.VStr "success"); ("reply", Js.VStr reply)]
    /\ reply ≠ EmptyString
    /\ JsText.padded reply = false.
Proof.
  unfold Detect.handler, Detect.caught, Detect.send.
  repeat case_match; simpl; intros [= <-]; simpl; try done. intros _.
  match goal with H : Detect.geminiReply _ _ = Some _ |- _ =>
    apply geminiReply_clean in H as [-> | (reply & -> & Hne & Hpad)] end.
  - destruct (fallback_row (Detect.random w)) as (reply & Hrow & _ & Hne & Hpad).
    exists reply. unfold Js.or. simpl. by rewrite Hrow.
  - exists reply. unfold Js.or. simpl. by rewrite (eqb_empty_false _ Hne).
Qed.

Lemma historyLine_None (m : Honeypot.Message.t) :
  Detect.historyLine toUpperCase m = None <-> Honeypot.Message.sender m = None.
Proof. unfold Detect.historyLine. by destruct (Honeypot.Message.sender m). Qed.

Lemma historyText_None (history : list Honeypot.Message.t) :
  Detect.historyText toUpperCase history = None
  <-> exists m, m ∈ history /\ Honeypot.Message.sender m = None.
Proof.
  unfold Detect.historyText. rewrite fmap_None.
  induction history as [|m history IH].
  - split; [done | intros (m & H & _); by apply elem_of_nil in H].
  - change (mapM (Detect.historyLine toUpperCase) (m :: history))
      with (line ← Detect.historyLine toUpperCase m;
            lines ← mapM (Detect.historyLine toUpperCase) history; Some (line :: lines)).
    destruct (Detect.historyLine toUpperCase m) as [line|] eqn:Hline; simpl.
    + destruct (mapM (Detect.historyLine toUpperCase) history) as [lines|]; simpl.
      * split; [done |]. intros (m' & Hin & Hnone).
        apply elem_of_cons in Hin as [-> | Hin].
        -- apply historyLine_None in Hnone. congruence.
        -- destruct IH as [_ IH]. discriminate IH. by exists m'.
      * split; [|done]. intros _. destruct IH as [IH _].
        destruct (IH eq_refl) as (m' & Hin & Hnone).
        exists m'. split; [by right | done].
    + split; [|done]. intros _. exists m. split; [left |].
      by apply historyLine_None.
Qed.

(** X18. The conversational endpoint never throws, and it does not fall
    back when the oracle fails: a validated request is answered 500 with
    the fixed sentence "Can you please explain what this is regarding?"
    exactly when a history entry has no sender, the oracle call is rejected,
    its answer is not JSON, or the parts of the answer cannot be read; in
    every other case it is answered 200. *)
Theorem detect_failures_are_answered_500 w req text :
  Detect.validated w req text ->
  (Detect.outcome (Detect.handler String_of toUpperCase w req) = Detect.outcome (Detect.caught [])
   <-> Detect.historyText toUpperCase
         (default [] (Detect.conversationHistory
                        (default Detect.no_envelope (body req)))) = None
       \/ Detect.gemini w = FetchRejects
       \/ Detect.gemini w = JsonRejects
       \/ exists data, Detect.gemini w = Parsed data
                       /\ Detect.geminiReply String_of data = None)
  /\ (exists r, Detect.outcome (Detect.handler String_of toUpperCase w req) = Sent r
                /\ (status r = 500 \/ status r = 200))
  /\ (Detect.historyText toUpperCase
        (default [] (Detect.conversationHistory
                       (default Detect.no_envelope (body req)))) = None
      <-> exists m,
            m ∈ default [] (Detect.conversationHistory
                              (default Detect.no_envelope (body req)))
            /\ Honeypot.Message.sender m = None).
Proof.
  intros Hv. rewrite (handler_validated _ _ _ Hv). split_and!.
  - destruct (Detect.historyText _ _) as [history|]; [|by split; [left |]].
    destruct (Detect.gemini w) as [| |data].
    + split; [by right; left | done].
    + split; [by right; right; left | done].
    + destruct (Detect.geminiReply String_of data) eqn:Hreply.
      * split; [done |]. intros [[=] | [[=] | [[=] | (data' & [= <-] & H)]]]. congruence.
      * split; [|done]. intros _. right. right. right. by exists data.
  - destruct (Detect.historyText _ _); [|eexists; split; [done | by left]].
    destruct (Detect.gemini w) as [| |data]; try (eexists; split; [done | by left]).
    destruct (Detect.geminiReply String_of data);
      eexists; (split; [done |]); [by right | by left].
  - apply historyText_None.
Qed.

End DetectFacts.

Section DetectParts.

Variable String_of : Js.value -> string.
Variable toUpperCase : string -> string.

Implicit Types (w : Detect.World) (req : Request Detect.Envelope).

#[local] Arguments Js.optional_chain : simpl never.

Lemma mapM_part_text (items : list Js.value) (texts : list string) :
  Forall2 (fun part text => Js.nullish part = false
                            /\ Js.access (Js.Field "text") part = Js.VStr text)
          items texts ->
  mapM Detect.part_text items = Some (Js.VStr <$> texts).
Proof.
  induction 1 as [|part text items texts [Hnull Htext] _ IH]; [done |].
  change (mapM Detect.part_text (part :: items))
    with (t ← Detect.part_text part; ts ← mapM Detect.part_text items; Some (t :: ts)).
  assert (Detect.part_text part = Some (Js.VStr text)) as ->
    by (unfold Detect.part_text; by rewrite Hnull, Htext).
  simpl. by rewrite IH.
Qed.

Lemma joined_strings (texts : list string) :
  Detect.joined String_of <$> (Js.VStr <$> texts) = texts.
Proof. induction texts as [|text texts IH]; simpl; [done | f_equal; exact IH]. Qed.

(** X19. The conversational endpoint uses every part of the first
    candidate: when the parts all carry a string text, the reply is these
    texts joined by single spaces and trimmed, and one of the fallback
    replies, chosen by the draw, when that leaves nothing. *)
Theorem detect_joins_all_parts w req text history data items texts :
  Detect.validated w req text ->
  Detect.historyText toUpperCase (Detect.history_of req) = Some history ->
  Detect.gemini w = Parsed data ->
  Js.optional_chain data
    [Js.Field "candidates"; Js.Index 0; Js.Field "content"; Js.Field "parts"]
  = Js.VArr items ->
  Forall2 (fun part text => Js.nullish part = false
                            /\ Js.access (Js.Field "text") part = Js.VStr text)
          items texts ->
  Detect.handler String_of toUpperCase w req
  = Detect.send [Detect.prompt history text] 200
      [("status", Js.VStr "success");
       ("reply",
        if String.eqb (JsText.trim (JsText.join " " texts)) EmptyString
        then Detect.fallback (Detect.random w)
        else Js.VStr (JsText.trim (JsText.join " " texts)))].
Proof.
  intros Hv Hhistory Hw Hparts Htexts.
  rewrite (handler_validated _ _ _ _ _ Hv).
  unfold Detect.history_of in Hhistory. rewrite Hhistory, Hw.
  unfold Detect.geminiReply. rewrite Hparts. simpl.
  rewrite (mapM_part_text _ _ Htexts). simpl. rewrite joined_strings.
  unfold Js.or. simpl.
  destruct (String.eqb (JsText.trim (JsText.join " " texts)) EmptyString) eqn:Hblank;
    simpl; [done | by rewrite Hblank].
Qed.

End DetectParts.

(** Concrete instances for the other endpoints. *)
Lemma classifier_surfaces_failed_calls_absorbs_bad_answers_witness :
  Classifier.outcome
    (Classifier.handler Sample.no_json (Parsed (Js.VObj []))
       (Sample.classify (Some "dev-key") (Some "hello")))
  = Sent {| status := 200; json := Classifier.fallback |}.
Proof.
  destruct (classifier_surfaces_failed_calls_absorbs_bad_answers
              Sample.no_json (Parsed (Js.VObj []))
              (Sample.classify (Some "dev-key") (Some "hello"))
              {| Classifier.text := Some "hello" |} "hello")
    as (_ & _ & _ & Hbad); [reflexivity | reflexivity | reflexivity | reflexivity
                            | discriminate |].
  apply (Hbad (fails_no_text (Js.VObj []) eq_refl) eq_refl (Js.VObj []) eq_refl).
Defined.

Lemma tester_endpoint_lets_oracle_failures_escape_witness :
  Tester.outcome (Tester.handler (Parsed Js.VNull)
                    (Traffic.test_text (Js.VStr "Pay by UPI today")))
  = Uncaught
  /\ Tester.scam "Pay by UPI today" = true.
Proof.
  destruct (tester_endpoint_lets_oracle_failures_escape (Parsed Js.VNull)
              (Traffic.test_text (Js.VStr "Pay by UPI today"))
              {| Tester.text := Js.VStr "Pay by UPI today" |} "Pay by UPI today")
    as (_ & Hthrows & _ & _); [reflexivity.. |].
  split; [|reflexivity].
  apply Hthrows. right. right. by exists Js.VNull.
Defined.

Lemma tester_mode_without_string_text_witness :
  Tester.handler FetchRejects (Traffic.test_text (Js.VNum 7)) = Tester.tester_mode.
Proof.
  destruct (tester_mode_without_string_text FetchRejects
              (Traffic.test_text (Js.VNum 7))) as [Hmode _]; [reflexivity |].
  apply Hmode. right. by exists {| Tester.text := Js.VNum 7 |}.
Defined.

Lemma detect_reply_never_blank_witness :
  exists reply,
    Js.VObj [("status", Js.VStr "success");
             ("reply", Js.VStr "Can you explain this in more detail?")]
    = Js.VObj [("status", Js.VStr "success"); ("reply", Js.VStr reply)]
    /\ reply ≠ EmptyString.
Proof.
  destruct (detect_reply_never_blank Traffic.object_Object Traffic.upper
              (Traffic.configured (Parsed Traffic.blank_answer) 5)
              (Traffic.chat "Share the OTP")
              {| status := 200;
                 json := Js.VObj [("status", Js.VStr "success");
                                  ("reply", Js.VStr "Can you explain this in more detail?")] |})
    as (reply & Hjson & Hne & _).
  - vm_compute. reflexivity.
  - reflexivity.
  - exists reply. split; [exact Hjson | exact Hne].
Defined.

Lemma detect_failures_are_answered_500_witness :
  Detect.outcome (Detect.handler Traffic.object_Object Traffic.upper
                    (Traffic.configured FetchRejects 0) (Traffic.chat "Share the OTP"))
  = Detect.outcome (Detect.caught []).
Proof.
  destruct (detect_failures_are_answered_500 Traffic.object_Object Traffic.upper
              (Traffic.configured FetchRejects 0) (Traffic.chat "Share the OTP")
              "Share the OTP") as (Hfail & _ & _).
  - unfold Detect.validated. split_and!; [reflexivity.. | discriminate].
  - apply Hfail. right. by left.
Defined.

Lemma detect_joins_all_parts_witness :
  Detect.outcome (Detect.handler Traffic.object_Object Traffic.upper
                    (Traffic.configured (Parsed Watch.long_answer) 0)
                    (Traffic.chat "Share the OTP"))
  = Sent {| status := 200;
            json := Js.VObj [("status", Js.VStr "success");
                             ("reply", Js.VStr "Who is this? Which bank?")] |}.
Proof.
  rewrite (detect_joins_all_parts Traffic.object_Object Traffic.upper
             (Traffic.configured (Parsed Watch.long_answer) 0)
             (Traffic.chat "Share the OTP") "Share the OTP"
             "SCAMMER: Your account is blocked" Watch.long_answer
             [Js.VObj [("text", Js.VStr "Who is this?")];
              Js.VObj [("text", Js.VStr "Which bank?")]]
             ["Who is this?"; "Which bank?"]).
  - vm_compute. reflexivity.
  - unfold Detect.validated. split_and!; [reflexivity.. | discriminate].
  - reflexivity.
  - reflexivity.
  - reflexivity.
  - repeat constructor.
Defined.

(** * Requests that do not overlap *)
Section OneAtATime.
Implicit Types (w : World) (req : Request Envelope.t) (s : Server).
Implicit Types (arrivals : list (World * Request Envelope.t)) (ticket : nat).

Lemma one_at_a_time_keeps_answers arrivals : forall s ticket,
  waiting s = ∅ -> ticket < arrived s ->
  answers (run (one_at_a_time (arrived s) arrivals) s) !! ticket = answers s !! ticket.
Proof.
  induction arrivals as [|[w req] arrivals IH]; intros s ticket Hw Hlt; [done |].
  cbn [one_at_a_time].
  change (Arrive w req :: Settle (arrived s) :: Settle (arrived s)
            :: one_at_a_time (S (arrived s)) arrivals)
    with ([Arrive w req; Settle (arrived s); Settle (arrived s)]
            ++ one_at_a_time (S (arrived s)) arrivals).
  rewrite run_app, (run_alone _ _ _ Hw).
  set (s1 := {| sessions := _ |}).
  change (S (arrived s)) with (arrived s1).
  rewrite (IH s1 ticket eq_refl) by (simpl; lia).
  simpl. apply lookup_insert_ne. lia.
Qed.

Lemma one_at_a_time_answers arrivals : forall s i,
  waiting s = ∅ ->
  answers (run (one_at_a_time (arrived s) arrivals) s) !! (arrived s + i)
  = match outcomes (serve arrivals (sessions s)) !! i with
    | Some o => Some o
    | None => answers s !! (arrived s + i)
    end.
Proof.
  induction arrivals as [|[w req] arrivals IH]; intros s i Hw; [done |].
  cbn [one_at_a_time].
  change (Arrive w req :: Settle (arrived s) :: Settle (arrived s)
            :: one_at_a_time (S (arrived s)) arrivals)
    with ([Arrive w req; Settle (arrived s); Settle (arrived s)]
            ++ one_at_a_time (S (arrived s)) arrivals).
  rewrite run_app, (run_alone _ _ _ Hw).
  set (s1 := {| sessions := _ |}).
  change (S (arrived s)) with (arrived s1).
  destruct i as [|i].
  - rewrite Nat.add_0_r.
    rewrite (one_at_a_time_keeps_answers arrivals s1 (arrived s) eq_refl) by (simpl; lia).
    simpl. apply lookup_insert_eq.
  - replace (arrived s + S i) with (arrived s1 + i) by (simpl; lia).
    rewrite (IH s1 i eq_refl). simpl.
    destruct (outcomes _ !! i); [done |]. apply lookup_insert_ne. lia.
Qed.

(** X27. Requests each answered before the next arrives take the server
    through the stores, the outgoing calls and the outcomes of [serve]:
    [handler] and [serve] are the server without overlap. *)
Theorem serve_is_the_server_without_overlap arrivals :
  sessions (run (one_at_a_time 0 arrivals) boot) = final (serve arrivals ∅)
  /\ log (run (one_at_a_time 0 arrivals) boot) = calls (serve arrivals ∅)
  /\ waiting (run (one_at_a_time 0 arrivals) boot) = ∅
  /\ arrived (run (one_at_a_time 0 arrivals) boot) = length arrivals
  /\ (forall i, answers (run (one_at_a_time 0 arrivals) boot) !! i
                = outcomes (serve arrivals ∅) !! i).
Proof.
  destruct (run_one_at_a_time arrivals boot eq_refl) as (Hs & Hl & Hw & Ha).
  split_and!; [done.. |].
  intros i. pose proof (one_at_a_time_answers arrivals boot i eq_refl) as Hi.
  simpl in Hi. rewrite Hi. by destruct (outcomes _ !! i).
Qed.

(** X28. However requests arrive and overlap, the server stays consistent:
    every waiting request has arrived; no inherited name is ever a session;
    a stored session has exactly one callback in the log if it is finalized
    and none otherwise; it is finalized only with four turns or more; and
    with four turns or more it is finalized unless one of its requests still
    awaits the oracle.  A request whose oracle call has not settled is not
    answered. *)
Theorem server_stays_consistent (actions : list Action) :
  consistent (run actions boot)
  /\ (forall ticket r,
        waiting (run actions boot) !! ticket = Some r ->
        w_reply r = None -> answers (run actions boot) !! ticket = None ->
        forall more, Settle ticket ∉ more ->
        answers (run (actions ++ more) boot) !! ticket = None).
Proof.
  pose proof (consistent_run actions boot consistent_boot) as Hc.
  split; [done |].
  intros ticket r Hr Hreply Hnone more Hnot. rewrite run_app.
  destruct Hc as (Hw & _).
  eapply (waits_for_the_oracle more); [exact Hr | done | | done | done].
  apply Hw. by eexists.
Qed.

End OneAtATime.

(** * The chat window *)
Section Window.

Variable DEFAULT_NON_SCAM_REPLY : string.
Variable HONEYPOT_DEV_API_KEY : string.

Implicit Types (w : App.LogicWorld) (s : App.HoneypotSession.t) (text : string).
Implicit Types (ui : App.UI) (calls : list App.Call) (resp : App.Response.t).

(** What a successful run of the logic leaves of the session it was given. *)
Lemma logic_run_bookkeeping w s text calls resp s' :
  App.processHoneypotLogic DEFAULT_NON_SCAM_REPLY w s text = (calls, App.Resolved (resp, s')) ->
  App.HoneypotSession.conversationHistory s'
  = App.HoneypotSession.conversationHistory s
    ++ [{| App.sender := App.scammer; App.text := text;
           App.timestamp := App.now_received w |};
        {| App.sender := App.honeypot; App.text := App.Response.reply resp;
           App.timestamp := App.now_replied w |}]
  /\ App.HoneypotSession.totalMessagesExchanged s'
     = App.HoneypotSession.totalMessagesExchanged s + 2
  /\ App.HoneypotSession.sessionId s' = App.HoneypotSession.sessionId s
  /\ App.HoneypotSession.agentNotes s' = App.HoneypotSession.agentNotes s
  /\ App.HoneypotSession.status s' = App.HoneypotSession.status s
  /\ App.Response.status resp = App.Response.success
  /\ (App.HoneypotSession.scamDetected s = true ->
      App.HoneypotSession.scamDetected s' = true).
Proof.
  unfold App.processHoneypotLogic.
  destruct (App.HoneypotSession.scamDetected s) eqn:Hdet; simpl.
  - destruct (App.agentResponse w) as [reply|m]; [|done].
    destruct (App.intelligence w) as [data|m]; [|done].
    intros [= <- <- <-]. simpl. rewrite <- app_assoc. by split_and!.
  - destruct (App.detection w) as [d|m]; [|done].
    destruct (App.Detection.isScam d) eqn:Hscam.
    + destruct (App.intelligence w) as [data|m]; [|done].
      intros [= <- <- <-]. simpl. rewrite <- app_assoc. by split_and!.
    + intros [= <- <- <-]. simpl. rewrite <- app_assoc. by split_and!.
Qed.

(** X20. A run of the logic that succeeds appends exactly one exchange to
    the conversation, the counterpart's message and then the reply it
    returns, each with its reading of the clock; it counts two more
    messages; it leaves the session id, the notes and the status alone; its
    response says [success] and carries the detection flag of the new
    session; a session once detected stays detected, and one that is still
    undetected keeps its intelligence. *)
Theorem logic_appends_one_exchange w s text calls resp s' :
  App.processHoneypotLogic DEFAULT_NON_SCAM_REPLY w s text = (calls, App.Resolved (resp, s')) ->
  App.HoneypotSession.conversationHistory s'
  = App.HoneypotSession.conversationHistory s
    ++ [{| App.sender := App.scammer; App.text := text;
           App.timestamp := App.now_received w |};
        {| App.sender := App.honeypot; App.text := App.Response.reply resp;
           App.timestamp := App.now_replied w |}]
  /\ App.HoneypotSession.totalMessagesExchanged s'
     = App.HoneypotSession.totalMessagesExchanged s + 2
  /\ App.HoneypotSession.sessionId s' = App.HoneypotSession.sessionId s
  /\ App.HoneypotSession.agentNotes s' = App.HoneypotSession.agentNotes s
  /\ App.HoneypotSession.status s' = App.HoneypotSession.status s
  /\ App.Response.status resp = App.Response.success
  /\ App.Response.scamDetected resp = Some (App.HoneypotSession.scamDetected s')
  /\ (App.HoneypotSession.scamDetected s = true ->
      App.HoneypotSession.scamDetected s' = true)
  /\ (App.HoneypotSession.scamDetected s' = false ->
      App.HoneypotSession.extractedIntelligence s'
      = App.HoneypotSession.extractedIntelligence s).
Proof.
  unfold App.processHoneypotLogic.
  destruct (App.HoneypotSession.scamDetected s) eqn:Hdet; simpl.
  - destruct (App.agentResponse w) as [reply|m]; [|done].
    destruct (App.intelligence w) as [data|m]; [|done].
    intros [= <- <- <-]. simpl. rewrite <- app_assoc. by split_and!.
  - destruct (App.detection w) as [d|m]; [|done].
    destruct (App.Detection.isScam d) eqn:Hscam.
    + destruct (App.intelligence w) as [data|m]; [|done].
      intros [= <- <- <-]. simpl. rewrite <- app_assoc. by split_and!.
    + intros [= <- <- <-]. simpl. rewrite <- app_assoc. by split_and!.
Qed.

(** X21. Once a session is detected the detection service is never asked
    again: whatever it would answer, a run of the logic asks for an agent
    reply and then for the intelligence, and fails exactly when one of the
    two fails. *)
Theorem detected_session_is_not_reexamined w s text :
  App.HoneypotSession.scamDetected s = true ->
  (forall c, c ∈ (App.processHoneypotLogic DEFAULT_NON_SCAM_REPLY w s text).1 -> App.is_detection c = false)
  /\ (forall reply data,
        App.agentResponse w = App.Resolved reply ->
        App.intelligence w = App.Resolved data ->
        exists s',
          (App.processHoneypotLogic DEFAULT_NON_SCAM_REPLY w s text).2
          = App.Resolved
              ({| App.Response.status := App.Response.success;
                  App.Response.reply := reply;
                  App.Response.scamDetected := Some true |}, s')
          /\ App.HoneypotSession.extractedIntelligence s' = data
          /\ App.HoneypotSession.scamType s' = App.HoneypotSession.scamType s)
  /\ ((exists m, (App.processHoneypotLogic DEFAULT_NON_SCAM_REPLY w s text).2 = App.Rejected m)
      <-> (exists m, App.agentResponse w = App.Rejected m)
          \/ (exists m, App.intelligence w = App.Rejected m)).
Proof.
  intros Hdet. unfold App.processHoneypotLogic. rewrite Hdet. simpl. split_and!.
  - intros c.
    destruct (App.agentResponse w) as [reply|m]; simpl.
    + destruct (App.intelligence w) as [data|m]; simpl;
        rewrite elem_of_cons, list_elem_of_singleton; by intros [-> | ->].
    + rewrite list_elem_of_singleton. by intros ->.
  - intros reply data -> ->. simpl. by eexists.
  - destruct (App.agentResponse w) as [reply|m]; simpl.
    + destruct (App.intelligence w) as [data|m]; simpl.
      * split; [by intros [m H] | by intros [[m H] | [m H]]].
      * split; [intros _; right; by exists m | intros _; by exists m].
    + split; [intros _; left; by exists m | intros _; by exists m].
Qed.

(** X22. A message that the detection service does not call a scam is
    answered with the default reply: the session stays undetected, keeps its
    intelligence, takes over the scam type the detection named, and neither
    the agent nor the extraction service is asked. *)
Theorem undetected_message_gets_default_reply w s text d :
  App.HoneypotSession.scamDetected s = false ->
  App.detection w = App.Resolved d ->
  App.Detection.isScam d = false ->
  exists resp s',
    App.processHoneypotLogic DEFAULT_NON_SCAM_REPLY w s text
    = ([App.DetectScamIntent text
          (App.HoneypotSession.conversationHistory s
           ++ [{| App.sender := App.scammer; App.text := text;
                  App.timestamp := App.now_received w |}])],
       App.Resolved (resp, s'))
    /\ App.Response.reply resp = DEFAULT_NON_SCAM_REPLY
    /\ App.Response.scamDetected resp = Some false
    /\ App.HoneypotSession.scamDetected s' = false
    /\ App.HoneypotSession.extractedIntelligence s'
       = App.HoneypotSession.extractedIntelligence s
    /\ App.HoneypotSession.scamType s' = App.Detection.scamType d.
Proof.
  intros Hdet Hd Hscam. unfold App.processHoneypotLogic.
  rewrite Hdet, Hd, Hscam. simpl. by do 2 eexists.
Qed.

End Window.

Section WindowEndpoint.

Variable DEFAULT_NON_SCAM_REPLY : string.
Variable HONEYPOT_DEV_API_KEY : string.

Implicit Types (w : App.LogicWorld) (s : App.HoneypotSession.t) (text : string).
Implicit Types (ui : App.UI) (calls : list App.Call) (request : App.SimRequest).

Lemma logic_status w s text calls resp s' :
  App.processHoneypotLogic DEFAULT_NON_SCAM_REPLY w s text
  = (calls, App.Resolved (resp, s')) ->
  App.Response.status resp = App.Response.success.
Proof.
  intros H.
  by destruct (logic_run_bookkeeping _ _ _ _ _ _ _ H) as (_ & _ & _ & _ & _ & ? & _).
Qed.

(** The endpoint on a POST with the configured key and a complete body. *)
Lemma simulate_accepted w request s id text :
  App.sim_method request = "POST" ->
  App.sim_apiKey request = Some HONEYPOT_DEV_API_KEY ->
  HONEYPOT_DEV_API_KEY ≠ EmptyString ->
  App.sim_json request
  = App.Resolved {| App.p_sessionId := Some id; App.p_text := Some text |} ->
  id ≠ EmptyString -> text ≠ EmptyString ->
  App.simulateHoneypotApiEndpoint DEFAULT_NON_SCAM_REPLY HONEYPOT_DEV_API_KEY
    w request s
  = match App.processHoneypotLogic DEFAULT_NON_SCAM_REPLY w s text with
    | (calls, App.Rejected _) =>
        (calls, App.sim_error 500 "Internal Server Error during AI processing")
    | (calls, App.Resolved (apiResponse, _)) =>
        (calls, {| App.sim_status := 200; App.sim_body := apiResponse |})
    end.
Proof.
  unfold App.simulateHoneypotApiEndpoint.
  intros -> -> Hne -> Hid Htext. simpl.
  by rewrite (eqb_empty_false _ Hne), String.eqb_refl, (eqb_empty_false _ Hid),
    (eqb_empty_false _ Htext).
Qed.

(** X23. The simulated endpoint of the window answers 405 to a method
    other than POST; 401 when the key is missing or differs from the
    configured one, and always when the configured key is empty; 400 when
    the body cannot be parsed or lacks a non-empty session id or message
    text; 500 when the logic fails; and 200 with the logic's response
    otherwise.  Only in the last two cases are the services asked. *)
Theorem simulated_endpoint_statuses w request s :
  (App.sim_method request ≠ "POST" ->
   App.simulateHoneypotApiEndpoint DEFAULT_NON_SCAM_REPLY HONEYPOT_DEV_API_KEY
     w request s
   = ([], App.sim_error 405 "Method Not Allowed"))
  /\ (App.sim_method request = "POST" ->
      App.sim_apiKey request ≠ Some HONEYPOT_DEV_API_KEY
      \/ HONEYPOT_DEV_API_KEY = EmptyString ->
      App.simulateHoneypotApiEndpoint DEFAULT_NON_SCAM_REPLY HONEYPOT_DEV_API_KEY
        w request s
      = ([], App.sim_error 401 "Unauthorized: Invalid or missing API key"))
  /\ (App.sim_method request = "POST" ->
      App.sim_apiKey request = Some HONEYPOT_DEV_API_KEY ->
      HONEYPOT_DEV_API_KEY ≠ EmptyString ->
      (exists m, App.sim_json request = App.Rejected m)
      \/ (exists payload, App.sim_json request = App.Resolved payload
                          /\ (JsString.falsy (App.p_sessionId payload) = true
                              \/ JsString.falsy (App.p_text payload) = true)) ->
      App.simulateHoneypotApiEndpoint DEFAULT_NON_SCAM_REPLY HONEYPOT_DEV_API_KEY
        w request s
      = ([], App.sim_error 400 "Bad Request: Invalid JSON payload"))
  /\ (forall id text,
        App.sim_method request = "POST" ->
        App.sim_apiKey request = Some HONEYPOT_DEV_API_KEY ->
        HONEYPOT_DEV_API_KEY ≠ EmptyString ->
        App.sim_json request
        = App.Resolved {| App.p_sessionId := Some id; App.p_text := Some text |} ->
        id ≠ EmptyString -> text ≠ EmptyString ->
        App.simulateHoneypotApiEndpoint DEFAULT_NON_SCAM_REPLY HONEYPOT_DEV_API_KEY
          w request s
        = match App.processHoneypotLogic DEFAULT_NON_SCAM_REPLY w s text with
          | (calls, App.Rejected _) =>
              (calls, App.sim_error 500 "Internal Server Error during AI processing")
          | (calls, App.Resolved (apiResponse, _)) =>
              (calls, {| App.sim_status := 200; App.sim_body := apiResponse |})
          end).
Proof.
  unfold App.simulateHoneypotApiEndpoint. split_and!.
  - intros Hm. by apply String.eqb_neq in Hm as ->.
  - intros -> Hkey. simpl.
    destruct (App.sim_apiKey request) as [key|]; simpl; [|done].
    destruct (String.eqb_spec key EmptyString) as [-> | Hne]; [done |]. simpl.
    destruct (String.eqb_spec key HONEYPOT_DEV_API_KEY) as [-> | Hdiff]; [|done].
    by destruct Hkey.
  - intros -> -> Hne Hbad. simpl.
    rewrite (eqb_empty_false _ Hne), String.eqb_refl. simpl.
    destruct Hbad as [[m ->] | (payload & -> & Hfalsy)]; [done |].
    by destruct Hfalsy as [-> | ->]; rewrite ?orb_true_r.
  - intros id text Hm Hk Hne Hj Hid Htext.
    fold (App.simulateHoneypotApiEndpoint DEFAULT_NON_SCAM_REPLY
            HONEYPOT_DEV_API_KEY w request s).
    by apply simulate_accepted with id.
Qed.

(** X24. One message typed into the window runs the logic twice, each time
    on the session as it was.  The first run, behind the simulated endpoint,
    only decides whether to go on; its reply and its session are dropped.
    The session the window keeps is the one of the second run.  If either
    run fails the session is unchanged and an error is shown.  A blank
    message asks no service and is refused with the endpoint's 400.  The
    window is never left loading. *)
Theorem message_runs_logic_twice w1 w2 ui text :
  HONEYPOT_DEV_API_KEY ≠ EmptyString ->
  App.HoneypotSession.sessionId (App.session ui) ≠ EmptyString ->
  (text ≠ EmptyString ->
   App.handleIncomingMessage DEFAULT_NON_SCAM_REPLY HONEYPOT_DEV_API_KEY w1 w2 ui text
   = match App.processHoneypotLogic DEFAULT_NON_SCAM_REPLY w1 (App.session ui) text with
     | (calls1, App.Rejected _) =>
         (calls1,
          {| App.session := App.session ui; App.isLoading := false;
             App.error :=
               Some ("Failed to process message: API Error 500: "
                     +:+ "Internal Server Error during AI processing") |})
     | (calls1, App.Resolved _) =>
         match App.processHoneypotLogic DEFAULT_NON_SCAM_REPLY w2 (App.session ui) text with
         | (calls2, App.Resolved (_, updatedSessionState)) =>
             (calls1 ++ calls2,
              {| App.session := updatedSessionState; App.isLoading := false;
                 App.error := None |})
         | (calls2, App.Rejected m) =>
             (calls1 ++ calls2,
              {| App.session := App.session ui; App.isLoading := false;
                 App.error := Some ("Failed to process message: " +:+ m) |})
         end
     end)
  /\ App.handleIncomingMessage DEFAULT_NON_SCAM_REPLY HONEYPOT_DEV_API_KEY
       w1 w2 ui EmptyString
     = ([],
        {| App.session := App.session ui; App.isLoading := false;
           App.error :=
             Some ("Failed to process message: API Error 400: "
                   +:+ "Bad Request: Invalid JSON payload") |})
  /\ App.isLoading
       (App.handleIncomingMessage DEFAULT_NON_SCAM_REPLY HONEYPOT_DEV_API_KEY
          w1 w2 ui text).2 = false.
Proof.
  intros Hkey Hid.
  assert (text ≠ EmptyString ->
          App.handleIncomingMessage DEFAULT_NON_SCAM_REPLY HONEYPOT_DEV_API_KEY w1 w2 ui text
          = match App.processHoneypotLogic DEFAULT_NON_SCAM_REPLY w1 (App.session ui) text with
            | (calls1, App.Rejected _) =>
                (calls1,
                 {| App.session := App.session ui; App.isLoading := false;
                    App.error :=
                      Some ("Failed to process message: API Error 500: "
                            +:+ "Internal Server Error during AI processing") |})
            | (calls1, App.Resolved _) =>
                match App.processHoneypotLogic DEFAULT_NON_SCAM_REPLY w2 (App.session ui) text with
                | (calls2, App.Resolved (_, updatedSessionState)) =>
                    (calls1 ++ calls2,
                     {| App.session := updatedSessionState; App.isLoading := false;
                        App.error := None |})
                | (calls2, App.Rejected m) =>
                    (calls1 ++ calls2,
                     {| App.session := App.session ui; App.isLoading := false;
                        App.error := Some ("Failed to process message: " +:+ m) |})
                end
            end) as Hgo.
  { intros Htext. unfold App.handleIncomingMessage.
    rewrite (simulate_accepted w1 _ (App.session ui)
               (App.HoneypotSession.sessionId (App.session ui)) text) by done.
    destruct (App.processHoneypotLogic DEFAULT_NON_SCAM_REPLY w1 (App.session ui) text)
      as [calls1 [[resp1 s1]|m1]] eqn:H1; simpl; [|done].
    rewrite (logic_status _ _ _ _ _ _ H1).
    by destruct (App.processHoneypotLogic DEFAULT_NON_SCAM_REPLY w2 (App.session ui) text)
      as [calls2 [[resp2 s2]|m2]]. }
  split_and!; [done | |].
  - unfold App.handleIncomingMessage, App.simulateHoneypotApiEndpoint. simpl.
    by rewrite (eqb_empty_false _ Hkey), String.eqb_refl, (eqb_empty_false _ Hid).
  - destruct (String.eqb_spec text EmptyString) as [-> | Htext].
    + unfold App.handleIncomingMessage, App.simulateHoneypotApiEndpoint. simpl.
      by rewrite (eqb_empty_false _ Hkey), String.eqb_refl, (eqb_empty_false _ Hid).
    + rewrite (Hgo Htext).
      destruct (App.processHoneypotLogic DEFAULT_NON_SCAM_REPLY w1 (App.session ui) text)
        as [calls1 [[resp1 s1]|m1]]; [|done].
      by destruct (App.processHoneypotLogic DEFAULT_NON_SCAM_REPLY w2 (App.session ui) text)
        as [calls2 [[resp2 s2]|m2]].
Qed.

End WindowEndpoint.

Section WindowSession.

Variable DEFAULT_NON_SCAM_REPLY : string.
Variable HONEYPOT_DEV_API_KEY : string.

Implicit Types (w : App.LogicWorld) (s : App.HoneypotSession.t) (text : string).
Implicit Types (ui : App.UI) (calls : list App.Call).
Implicit Types (messages : list (App.LogicWorld * App.LogicWorld * string)).

(** What one message does to the session the window holds: nothing, or
    what one successful run of the logic on it does. *)
Lemma incoming_session w1 w2 ui text :
  (App.handleIncomingMessage DEFAULT_NON_SCAM_REPLY HONEYPOT_DEV_API_KEY
     w1 w2 ui text).2.(App.session) = App.session ui
  \/ exists calls resp,
       App.processHoneypotLogic DEFAULT_NON_SCAM_REPLY w2 (App.session ui) text
       = (calls, App.Resolved
                   (resp,
                    (App.handleIncomingMessage DEFAULT_NON_SCAM_REPLY
                       HONEYPOT_DEV_API_KEY w1 w2 ui text).2.(App.session))).
Proof.
  unfold App.handleIncomingMessage.
  destruct (App.simulateHoneypotApiEndpoint _ _ _ _ _) as [calls1 apiResponse].
  destruct (_ =? 200)%nat; [|by left].
  destruct (App.Response.status _); [|by left].
  destruct (App.processHoneypotLogic DEFAULT_NON_SCAM_REPLY w2 (App.session ui) text)
    as [calls2 [[resp s']|m]]; [|by left].
  right. by exists calls2, resp.
Qed.

Lemma incoming_not_loading w1 w2 ui text :
  App.isLoading
    (App.handleIncomingMessage DEFAULT_NON_SCAM_REPLY HONEYPOT_DEV_API_KEY
       w1 w2 ui text).2 = false.
Proof.
  unfold App.handleIncomingMessage.
  destruct (App.simulateHoneypotApiEndpoint _ _ _ _ _) as [calls1 apiResponse].
  destruct (_ =? 200)%nat; [|done].
  destruct (App.Response.status _); [|done].
  by destruct (App.processHoneypotLogic DEFAULT_NON_SCAM_REPLY w2 (App.session ui) text)
    as [calls2 [[resp s']|m]].
Qed.

(** X25. Whatever is typed into the window and whatever the services
    answer, the session keeps its books: if its conversation was a
    sequence of [n] exchanges counted as [2 * n] messages, it afterwards is
    a sequence of [n'] exchanges counted as [2 * n'], with at most one more
    exchange per message typed; the old conversation is a prefix of the new
    one; the session id, the notes and the status are untouched; and a
    session once detected stays detected. *)
Theorem typing_keeps_the_books messages ui n :
  App.sender <$> App.HoneypotSession.conversationHistory (App.session ui)
  = App.exchanges n ->
  App.HoneypotSession.totalMessagesExchanged (App.session ui) = 2 * n ->
  let after :=
    App.session
      (App.typing DEFAULT_NON_SCAM_REPLY HONEYPOT_DEV_API_KEY messages ui) in
  (exists n',
     n <= n' <= n + length messages
     /\ App.sender <$> App.HoneypotSession.conversationHistory after
        = App.exchanges n'
     /\ App.HoneypotSession.totalMessagesExchanged after = 2 * n')
  /\ App.HoneypotSession.conversationHistory (App.session ui)
     `prefix_of` App.HoneypotSession.conversationHistory after
  /\ App.HoneypotSession.sessionId after
     = App.HoneypotSession.sessionId (App.session ui)
  /\ App.HoneypotSession.agentNotes after
     = App.HoneypotSession.agentNotes (App.session ui)
  /\ App.HoneypotSession.status after
     = App.HoneypotSession.status (App.session ui)
  /\ (App.HoneypotSession.scamDetected (App.session ui) = true ->
      App.HoneypotSession.scamDetected after = true).
Proof.
  revert ui n. induction messages as [|[[w1 w2] text] rest IH]; intros ui n Hs Hn.
  - simpl. split_and!; try done. exists n. split_and!; [lia | lia | done | done].
  - simpl.
    set (ui1 := (App.handleIncomingMessage DEFAULT_NON_SCAM_REPLY
                   HONEYPOT_DEV_API_KEY w1 w2 ui text).2).
    destruct (incoming_session w1 w2 ui text) as [Hsame | (calls & resp & Hrun)];
      fold ui1 in Hsame || fold ui1 in Hrun.
    + destruct (IH ui1 n) as ((n' & Hle & Hs' & Hn') & Hpre & Hid & Hnotes & Hst & Hdet);
        [by rewrite Hsame | by rewrite Hsame |].
      rewrite Hsame in Hpre, Hid, Hnotes, Hst, Hdet.
      split_and!; try done. exists n'. split_and!; [lia | simpl; lia | done | done].
    + destruct (logic_run_bookkeeping _ _ _ _ _ _ _ Hrun)
        as (Hh & Ht & Hi & Hno & Hsta & _ & Hlatch).
      destruct (IH ui1 (S n)) as ((n' & Hle & Hs' & Hn') & Hpre & Hid & Hnotes & Hst & Hdet).
      { rewrite Hh, fmap_app, Hs. done. }
      { rewrite Ht, Hn. lia. }
      split_and!.
      * exists n'. split_and!; [lia | simpl; lia | done | done].
      * etrans; [|exact Hpre]. rewrite Hh. by apply prefix_app_r.
      * by rewrite Hid.
      * by rewrite Hnotes.
      * by rewrite Hst.
      * intros H. by apply Hdet, Hlatch.
Qed.

(** X26. Ending the engagement does nothing, and asks nothing, when the
    session is already completed or the window is loading.  Otherwise it
    asks for the notes over the session's conversation and, only if it got
    them, submits once the report built from the session and the notes.
    The session ends [completed] exactly when the notes were obtained and
    the submission was accepted, and then no error is shown; in every other
    case the status is [active] again and an error starting with
    "Failed to submit final results: " is shown.  Notes that were obtained
    stay in the session even when the submission fails; every other field
    of the session is untouched, and the window is not left loading. *)
Theorem end_engagement_outcomes (w : App.EndWorld) ui :
  (App.HoneypotSession.status (App.session ui) = App.completed
   \/ App.isLoading ui = true ->
   App.handleEndEngagement w ui = ([], ui))
  /\ (App.HoneypotSession.status (App.session ui) = App.active ->
      App.isLoading ui = false ->
      let calls := (App.handleEndEngagement w ui).1 in
      let after := (App.handleEndEngagement w ui).2 in
      let asked :=
        App.GenerateAgentNotes
          (App.HoneypotSession.conversationHistory (App.session ui)) in
      App.isLoading after = false
      /\ (forall m, App.notes w = App.Rejected m ->
            calls = [asked]
            /\ App.session after = App.session ui
            /\ App.error after = Some ("Failed to submit final results: " +:+ m))
      /\ (forall finalNotes, App.notes w = App.Resolved finalNotes ->
            calls = [asked; App.Submit (App.finalPayload (App.session ui) finalNotes)]
            /\ App.HoneypotSession.agentNotes (App.session after) = finalNotes)
      /\ (App.HoneypotSession.status (App.session after) = App.completed
          <-> (exists finalNotes, App.notes w = App.Resolved finalNotes)
              /\ App.submission w = App.Accepted)
      /\ (App.HoneypotSession.status (App.session after) = App.completed ->
          App.error after = None)
      /\ (App.HoneypotSession.status (App.session after) = App.active ->
          exists m, App.error after
                    = Some ("Failed to submit final results: " +:+ m))
      /\ App.HoneypotSession.sessionId (App.session after)
         = App.HoneypotSession.sessionId (App.session ui)
      /\ App.HoneypotSession.conversationHistory (App.session after)
         = App.HoneypotSession.conversationHistory (App.session ui)
      /\ App.HoneypotSession.scamDetected (App.session after)
         = App.HoneypotSession.scamDetected (App.session ui)
      /\ App.HoneypotSession.totalMessagesExchanged (App.session after)
         = App.HoneypotSession.totalMessagesExchanged (App.session ui)
      /\ App.HoneypotSession.extractedIntelligence (App.session after)
         = App.HoneypotSession.extractedIntelligence (App.session ui)
      /\ App.HoneypotSession.scamType (App.session after)
         = App.HoneypotSession.scamType (App.session ui)).
Proof.
  split.
  - unfold App.handleEndEngagement. intros [-> | ->]; [done |].
    by destruct (App.HoneypotSession.status _).
  - intros Hactive Hidle. unfold App.handleEndEngagement. rewrite Hactive, Hidle.
    destruct ui as [s loading err]. simpl in *.
    destruct (App.notes w) as [finalNotes|m] eqn:Hnotes.
    + destruct (App.submission w) as [m| |statusText [message|m]] eqn:Hsub; simpl;
        (split_and!;
         [ done | done | by intros ? [= <-]
         | try (split; [done | by intros [_ ?]]); try (split; [|done]; by eauto)
         | try done | try done; by eauto | done | done | done | done | done | done ]).
    + simpl. destruct s; simpl in *; subst.
      split_and!; try done.
      * by intros ? [= <-].
      * split; [done | by intros [[? ?] _]].
      * by eauto.
Qed.

End WindowSession.

(** Concrete instances for the chat window. *)
Lemma logic_appends_one_exchange_witness :
  exists calls resp s',
    App.processHoneypotLogic "Sorry, wrong number." (Traffic.services Traffic.lottery)
      (App.fresh "s1") "You won a prize"
    = (calls, App.Resolved (resp, s'))
    /\ App.sender <$> App.HoneypotSession.conversationHistory s'
       = [App.scammer; App.honeypot]
    /\ App.HoneypotSession.totalMessagesExchanged s' = 2.
Proof.
  do 3 eexists. split; [reflexivity |].
  destruct (logic_appends_one_exchange "Sorry, wrong number."
              (Traffic.services Traffic.lottery) (App.fresh "s1") "You won a prize"
              _ _ _ eq_refl) as (Hh & Ht & _).
  split; [by rewrite Hh | exact Ht].
Defined.

Lemma detected_session_is_not_reexamined_witness :
  exists s',
    (App.processHoneypotLogic "Sorry, wrong number." (Traffic.services Traffic.harmless)
       (App.typing "Sorry, wrong number." "dev-key"
          [(Traffic.services Traffic.lottery, Traffic.services Traffic.lottery,
            "You won a prize")]
          (Traffic.window "s1")).(App.session)
       "Send your account number").2
    = App.Resolved
        ({| App.Response.status := App.Response.success;
            App.Response.reply := "Which bank are you calling from?";
            App.Response.scamDetected := Some true |}, s')
    /\ App.HoneypotSession.scamType s' = Some "Lottery".
Proof.
  destruct (detected_session_is_not_reexamined "Sorry, wrong number."
              (Traffic.services Traffic.harmless)
              (App.typing "Sorry, wrong number." "dev-key"
                 [(Traffic.services Traffic.lottery, Traffic.services Traffic.lottery,
                   "You won a prize")]
                 (Traffic.window "s1")).(App.session)
              "Send your account number") as (_ & Hreply & _).
  - reflexivity.
  - destruct (Hreply _ _ eq_refl eq_refl) as (s' & Hrun & _ & Htype).
    exists s'. split; [exact Hrun | exact Htype].
Defined.

Lemma undetected_message_gets_default_reply_witness :
  exists resp s',
    (App.processHoneypotLogic "Sorry, wrong number." (Traffic.services Traffic.harmless)
       (App.fresh "s1") "Hello, is this Ravi?").2
    = App.Resolved (resp, s')
    /\ App.Response.reply resp = "Sorry, wrong number."
    /\ App.HoneypotSession.scamDetected s' = false.
Proof.
  destruct (undetected_message_gets_default_reply "Sorry, wrong number."
              (Traffic.services Traffic.harmless) (App.fresh "s1")
              "Hello, is this Ravi?" Traffic.harmless)
    as (resp & s' & Hrun & Hreply & _ & Hflag & _).
  - reflexivity.
  - reflexivity.
  - reflexivity.
  - exists resp, s'. split_and!; [by rewrite Hrun | exact Hreply | exact Hflag].
Defined.

Lemma message_runs_logic_twice_witness :
  length (App.handleIncomingMessage "Sorry, wrong number." "dev-key"
            (Traffic.services Traffic.harmless) (Traffic.services Traffic.lottery)
            (Traffic.window "s1") "You won a prize").1 = 3
  /\ App.HoneypotSession.scamDetected
       (App.handleIncomingMessage "Sorry, wrong number." "dev-key"
          (Traffic.services Traffic.harmless) (Traffic.services Traffic.lottery)
          (Traffic.window "s1") "You won a prize").2.(App.session) = true.
Proof.
  destruct (message_runs_logic_twice "Sorry, wrong number." "dev-key"
              (Traffic.services Traffic.harmless) (Traffic.services Traffic.lottery)
              (Traffic.window "s1") "You won a prize") as (Hrun & _).
  - discriminate.
  - discriminate.
  - rewrite Hrun by discriminate. split; reflexivity.
Defined.

Lemma typing_keeps_the_books_witness :
  exists n',
    0 <= n' <= 0 + 3
    /\ App.sender
       <$> App.HoneypotSession.conversationHistory
             (App.typing "Sorry, wrong number." "dev-key"
                [(Traffic.services Traffic.lottery, Traffic.services Traffic.lottery,
                  "You won a prize");
                 (Traffic.down, Traffic.down, "Send your account number");
                 (Traffic.services Traffic.lottery, Traffic.down, "Are you there?")]
                (Traffic.window "s1")).(App.session)
       = App.exchanges n'.
Proof.
  destruct (typing_keeps_the_books "Sorry, wrong number." "dev-key"
              [(Traffic.services Traffic.lottery, Traffic.services Traffic.lottery,
                "You won a prize");
               (Traffic.down, Traffic.down, "Send your account number");
               (Traffic.services Traffic.lottery, Traffic.down, "Are you there?")]
              (Traffic.window "s1") 0) as ((n' & Hle & Hs & _) & _).
  - reflexivity.
  - reflexivity.
  - exists n'. split; [exact Hle | exact Hs].
Defined.
